(** * gceutils: paths, the structural type checker, record validation
      and the tree visitor

    A shallow embedding of
      - [src/gceutils/base.py]          (AbstractTreePath, NotSet, field
                                         options, validate_method),
      - [src/gceutils/errors.py]        (GU_PathValidationError and its kinds),
      - [src/gceutils/decorators.py]    (_repr_type, enforce_type,
                                         enforce_argument_types),
      - [src/gceutils/tree_tools.py]    (TreeVisitor),
      - [src/gceutils/validation.py]    (Validator, VA_TYPE),
      - [src/gceutils/dual_key_dict.py] (DualKeyDict),
    followed by the properties the specification states about them and by
    further properties of the code.

    A call ends in one of three ways: it returns, it raises a
    [GU_PathValidationError], or it raises another exception, of which the
    code lets out the [TypeError] of [isinstance] and [issubclass] against a
    Protocol class that is not runtime-checkable. *)

From Stdlib Require Import ZArith List String Ascii Bool Lia.
From Stdlib Require Import DecimalString.
From Stdlib Require Import Permutation.
From Stdlib.Strings Require Byte.
Import ListNotations.

Local Open Scope string_scope.
Local Open Scope list_scope.
Local Open Scope Z_scope.

Set Implicit Arguments.

(* ===================================================================== *)
(** ** Python classes and runtime values                                  *)
(* ===================================================================== *)

(** A class is identified by [__module__] and [__name__].  Two of its
    attributes matter to the code: [cls_protocol] holds for a
    [typing.Protocol] class that is not decorated with [@runtime_checkable]
    (such as [HasGreprValidate] of base.py), against which [isinstance] and
    [issubclass] raise [TypeError]; [cls_hook] identifies what
    [getattr(cls, "_visit_node_unfiltered_", None)] is on the class object
    itself, when that is callable. *)
Record pyclass := mk_class {
  cls_module   : string;
  cls_name     : string;
  cls_protocol : bool;
  cls_hook     : option nat
}.

Definition pyclass_eqb (a b : pyclass) : bool :=
  String.eqb (cls_module a) (cls_module b) && String.eqb (cls_name a) (cls_name b).

Definition builtin (name : string) : pyclass := mk_class "builtins" name false None.

Definition object_cls    : pyclass := builtin "object".
Definition type_cls      : pyclass := builtin "type".
Definition NoneType_cls  : pyclass := builtin "NoneType".
Definition bool_cls      : pyclass := builtin "bool".
Definition int_cls       : pyclass := builtin "int".
Definition float_cls     : pyclass := builtin "float".
Definition str_cls       : pyclass := builtin "str".
Definition bytes_cls     : pyclass := builtin "bytes".
Definition list_cls      : pyclass := builtin "list".
Definition tuple_cls     : pyclass := builtin "tuple".
Definition set_cls       : pyclass := builtin "set".
Definition frozenset_cls : pyclass := builtin "frozenset".
Definition dict_cls      : pyclass := builtin "dict".
(** [class NotSetType] of base.py. *)
Definition NotSetType    : pyclass := mk_class "gceutils.base" "NotSetType" false None.
(** [collections.abc.Callable], imported as [ABCCallable] in decorators.py. *)
Definition ABCCallable   : pyclass := mk_class "collections.abc" "Callable" false None.
(** [class HasGreprValidate(Protocol)] of base.py, not runtime-checkable. *)
Definition HasGreprValidate : pyclass :=
  mk_class "gceutils.base" "HasGreprValidate" true None.
(** The classes of the exceptions, other than validation errors, that the
    code lets out. *)
Definition TypeError_cls      : pyclass := builtin "TypeError".
Definition AttributeError_cls : pyclass := builtin "AttributeError".

(** What the code asks of an instance of a user-defined class: its class and
    the proper ancestors of that class (the tail of the MRO), the names
    [dataclasses.fields] reports for the class (empty when the class is not
    a dataclass), whether the instance is callable, and the identity of its
    [_visit_node_unfiltered_] method when it has one.  Instances of user
    subclasses of the built-in containers are represented by the container
    itself; containers of other kinds (a [mappingproxy], an instance of a
    user class that is a [Mapping], [Sequence] or [Iterable] only through an
    abstract base class) are not represented. *)
Record objinfo := mk_objinfo {
  obj_class    : pyclass;
  obj_bases    : list pyclass;
  obj_fields   : list string;
  obj_callable : bool;
  obj_hook     : option nat
}.

(** Runtime values.  Sets and dicts are kept in iteration order.
    Floating-point numbers are not represented. *)
#[warning="-register-all"] Inductive PyValue : Type :=
| VNone
| VNotSet                                   (* the singleton [NotSet] *)
| VBool (b : bool)
| VInt (z : Z)
| VStr (s : string)
| VBytes (b : list Byte.byte)
| VList (items : list PyValue)
| VTuple (items : list PyValue)
| VSet (items : list PyValue)
| VFrozenSet (items : list PyValue)
| VDict (items : list (PyValue * PyValue))
| VClass (c : pyclass) (bases : list pyclass)      (* a class object *)
| VObj (info : objinfo) (attrs : list (string * PyValue)).

(** [type(value)] and the proper ancestors of [type(value)]. *)
Definition type_of (value : PyValue) : pyclass :=
  match value with
  | VNone => NoneType_cls
  | VNotSet => NotSetType
  | VBool _ => bool_cls
  | VInt _ => int_cls
  | VStr _ => str_cls
  | VBytes _ => bytes_cls
  | VList _ => list_cls
  | VTuple _ => tuple_cls
  | VSet _ => set_cls
  | VFrozenSet _ => frozenset_cls
  | VDict _ => dict_cls
  | VClass _ _ => type_cls
  | VObj info _ => obj_class info
  end.

Definition bases_of (value : PyValue) : list pyclass :=
  match value with
  | VBool _ => [int_cls; object_cls]
  | VObj info _ => obj_bases info
  | _ => [object_cls]
  end.

(** [type.__instancecheck__]: [cls] is in the MRO of [type(value)].  This
    is the answer of [isinstance(value, cls)] for a class that accepts
    instance checks; the built-in itself, which raises [TypeError] for a
    Protocol class that does not, is [instance_check] below, and the
    embedded code calls only that.  Virtual subclasses registered with an
    abstract base class and the structural checks of runtime-checkable
    protocols are not represented; the three protocols the checker tests
    for have their own predicates below. *)
Definition isinstance (value : PyValue) (cls : pyclass) : bool :=
  existsb (pyclass_eqb cls) (type_of value :: bases_of value).

(** [type.__subclasscheck__] for the class object [c] with ancestors
    [bases], against each class of a tuple. *)
Definition issubclass (c : pyclass) (bases : list pyclass) (targets : list pyclass) : bool :=
  existsb (fun t => existsb (pyclass_eqb t) (c :: bases)) targets.

(** The built-ins [isinstance(value, classes)] and
    [issubclass(value, classes)] with a tuple of classes as second
    argument: the classes are tried in order, the first that accepts ends
    the call, and a Protocol class that is not runtime-checkable raises
    [TypeError] ([None]) when its turn comes (such a class has no direct
    instances, so the exact-type shortcut of [isinstance] never spares it
    the check). *)
Fixpoint instance_check (value : PyValue) (classes : list pyclass) : option bool :=
  match classes with
  | [] => Some false
  | cls :: rest =>
      if cls_protocol cls then None
      else if isinstance value cls then Some true
      else instance_check value rest
  end.

Fixpoint subclass_check (c : pyclass) (bases : list pyclass) (targets : list pyclass)
    : option bool :=
  match targets with
  | [] => Some false
  | t :: rest =>
      if cls_protocol t then None
      else if issubclass c bases [t] then Some true
      else subclass_check c bases rest
  end.

(** [callable(value)]. *)
Definition callable (value : PyValue) : bool :=
  match value with
  | VClass _ _ => true
  | VObj info _ => obj_callable info
  | _ => false
  end.

(** Iteration ([for item in value]); [None] for a value that is not
    iterable.  A dict iterates over its keys, a str over its one-character
    substrings, a bytes over its byte values. *)
Definition py_iter (value : PyValue) : option (list PyValue) :=
  match value with
  | VList items | VTuple items | VSet items | VFrozenSet items => Some items
  | VDict items => Some (map fst items)
  | VStr s => Some (map (fun c => VStr (String c EmptyString)) (list_ascii_of_string s))
  | VBytes b => Some (map (fun x => VInt (Z.of_N (Byte.to_N x))) b)
  | _ => None
  end.

(** [isinstance(value, collections.abc.Sequence)]. *)
Definition is_Sequence (value : PyValue) : bool :=
  match value with
  | VList _ | VTuple _ | VStr _ | VBytes _ => true
  | _ => false
  end.

(** [isinstance(value, (str, bytes))]. *)
Definition is_str_or_bytes (value : PyValue) : bool :=
  match value with
  | VStr _ | VBytes _ => true
  | _ => false
  end.

(** Python's [==] on the represented values: [bool] is a subclass of [int]
    and compares as 0/1; lists and tuples compare element-wise; sets compare
    by mutual inclusion, whatever the iteration order; dicts by their
    key/value pairs; class objects by identity; instances by class and
    attributes. *)
Fixpoint py_eq (a b : PyValue) {struct a} : bool :=
  let seq_eq :=
    fix seq_eq (xs ys : list PyValue) {struct xs} : bool :=
      match xs, ys with
      | [], [] => true
      | x :: xs', y :: ys' => py_eq x y && seq_eq xs' ys'
      | _, _ => false
      end in
  let attrs_eq :=
    fix attrs_eq (xs ys : list (string * PyValue)) {struct xs} : bool :=
      match xs, ys with
      | [], [] => true
      | (n, x) :: xs', (m, y) :: ys' => String.eqb n m && py_eq x y && attrs_eq xs' ys'
      | _, _ => false
      end in
  let members_eq (xs ys : list PyValue) : bool :=
    forallb (fun x => existsb (fun y => py_eq x y) ys) xs
    && forallb (fun y => existsb (fun x => py_eq x y) xs) ys in
  match a, b with
  | VNone, VNone => true
  | VNotSet, VNotSet => true
  | VBool x, VBool y => Bool.eqb x y
  | VBool x, VInt y => Z.eqb (Z.b2z x) y
  | VInt x, VBool y => Z.eqb x (Z.b2z y)
  | VInt x, VInt y => Z.eqb x y
  | VStr x, VStr y => String.eqb x y
  | VBytes x, VBytes y => if list_eq_dec Byte.byte_eq_dec x y then true else false
  | VList xs, VList ys => seq_eq xs ys
  | VTuple xs, VTuple ys => seq_eq xs ys
  | VSet xs, VSet ys | VSet xs, VFrozenSet ys
  | VFrozenSet xs, VSet ys | VFrozenSet xs, VFrozenSet ys => members_eq xs ys
  | VDict xs, VDict ys =>
      Nat.eqb (List.length xs) (List.length ys)
      && forallb (fun kv => existsb (fun kv' => py_eq (fst kv) (fst kv') && py_eq (snd kv) (snd kv')) ys) xs
  | VClass c _, VClass d _ => pyclass_eqb c d
  | VObj i xs, VObj j ys => pyclass_eqb (obj_class i) (obj_class j) && attrs_eq xs ys
  | _, _ => false
  end.

(* ===================================================================== *)
(** ** base.py: path segments and AbstractTreePath                        *)
(* ===================================================================== *)

(** [ATPathAttribute] and [ATPathIndexOrKey]: two frozen dataclasses with
    the single field [value]. *)
Inductive segment : Type :=
| ATPathAttribute (value : string)
| ATPathIndexOrKey (value : PyValue).

(** The dataclass [AbstractTreePath]: the fields [path] and
    [start_with_dot], in this order. *)
Record AbstractTreePath := mk_path {
  path : list segment;
  start_with_dot : bool
}.

(** [AbstractTreePath()] : both constructor arguments default. *)
Definition empty_path : AbstractTreePath := mk_path [] true.

Definition add_attribute (self : AbstractTreePath) (attr : string) : AbstractTreePath :=
  mk_path (path self ++ [ATPathAttribute attr]) (start_with_dot self).

Definition add_index_or_key (self : AbstractTreePath) (index_or_key : PyValue) : AbstractTreePath :=
  mk_path (path self ++ [ATPathIndexOrKey index_or_key]) (start_with_dot self).

Definition extend (self other : AbstractTreePath) : AbstractTreePath :=
  mk_path (path self ++ path other) (start_with_dot self).

(** [len(self)]. *)
Definition path_len (self : AbstractTreePath) : nat := List.length (path self).

(** Python's [t[start:stop]] on a tuple (step 1): a negative bound counts
    from the end, and every bound is clamped into [0, len(t)]. *)
Definition adjust_index (len : Z) (i : Z) : Z :=
  if i <? 0 then Z.max (i + len) 0 else Z.min i len.

Definition tuple_slice {A : Type} (t : list A) (start stop : option Z) : list A :=
  let len := Z.of_nat (List.length t) in
  let lo := match start with None => 0 | Some i => adjust_index len i end in
  let hi := match stop with None => len | Some i => adjust_index len i end in
  firstn (Z.to_nat (hi - lo)) (skipn (Z.to_nat lo) t).

(** [__getitem__] with a slice argument. *)
Definition getitem_slice (self : AbstractTreePath) (start stop : option Z) : AbstractTreePath :=
  mk_path (tuple_slice (path self) start stop) (start_with_dot self).

(** [go_up]: [return self[:-n]]. *)
Definition go_up (self : AbstractTreePath) (n : Z) : AbstractTreePath :=
  getitem_slice self None (Some (- n)).

(** The [__eq__] that [dataclass(eq=True)] generates: same class and equal
    tuples of fields.  The two segment classes are distinct. *)
Definition segment_eq (a b : segment) : bool :=
  match a, b with
  | ATPathAttribute x, ATPathAttribute y => String.eqb x y
  | ATPathIndexOrKey x, ATPathIndexOrKey y => py_eq x y
  | _, _ => false
  end.

Fixpoint segments_eq (xs ys : list segment) : bool :=
  match xs, ys with
  | [], [] => true
  | x :: xs', y :: ys' => segment_eq x y && segments_eq xs' ys'
  | _, _ => false
  end.

(** [AbstractTreePath.__eq__]:
    [(self.path, self.start_with_dot) == (other.path, other.start_with_dot)]. *)
Definition AbstractTreePath_eq (self other : AbstractTreePath) : bool :=
  segments_eq (path self) (path other)
  && Bool.eqb (start_with_dot self) (start_with_dot other).

(* ===================================================================== *)
(** ** errors.py                                                          *)
(* ===================================================================== *)

(** The three subclasses of [GU_PathValidationError]. *)
Inductive error_kind : Type :=
| GU_TypeValidationError
| GU_InvalidValueError
| GU_RangeValidationError.

(** [GU_PathValidationError.__init__] stores [path], [msg], [condition]. *)
Record GU_PathValidationError := mk_error {
  err_kind      : error_kind;
  err_path      : AbstractTreePath;
  err_msg       : string;
  err_condition : option string
}.

(** A call returns [None], raises a validation error, or raises an
    exception of another class that is no validation error (the
    [TypeError] of an instance check, whatever user code raises). *)
Inductive outcome : Type :=
| Returns
| Raises (e : GU_PathValidationError)
| RaisesOther (exc : pyclass).

Definition and_then (first : outcome) (rest : outcome) : outcome :=
  match first with
  | Returns => rest
  | Raises e => Raises e
  | RaisesOther exc => RaisesOther exc
  end.

Notation "a ;; b" := (and_then a b) (at level 61, right associativity).

Definition returns (o : outcome) : bool :=
  match o with Returns => true | _ => false end.

(* ===================================================================== *)
(** ** decorators.py: type annotations                                    *)
(* ===================================================================== *)

(** The argument of [type[...]]: a class or a union of classes, or a
    [TypeVar] whose bound (when it has one) is such. *)
Inductive class_or_union : Type :=
| OneClass (c : pyclass)
| UnionOf (cs : list pyclass).

Inductive type_arg : Type :=
| ArgIs (t : class_or_union)
| ArgTypeVar (bound : option class_or_union).

(** [get_origin(expected)] for a parametrised generic other than a union,
    [type[...]] and [Literal[...]]. *)
Inductive origin : Type :=
| ODict | OTuple | OList | OSet | OFrozenSet
| OCallable | OMapping | OSequence | OIterable
| OOther (c : pyclass).

(** The annotations [enforce_type] distinguishes.  [TGeneric o args] is an
    annotation with [get_origin = o] and [get_args = args]; [TClass] is a
    plain class; [TClassTuple] a tuple of classes; [TEllipsis] is
    [Ellipsis]; [TOpaque] is any other object that [isinstance] refuses as
    its second argument ([NewType], [None], a string). *)
#[warning="-register-all"] Inductive texpr : Type :=
| TAny
| TTypeVar (bound : option texpr)
| TUnion (arms : list texpr)
| TType (args : list type_arg)
| TGeneric (o : origin) (args : list texpr)
| TLiteral (args : list PyValue)
| TClass (c : pyclass)
| TClassTuple (cs : list pyclass)
| TEllipsis
| TOpaque (id : nat).

(** What the interpreter supplies and the library only calls: [repr] of a
    value, [str] of an annotation that is not a class, [hash] of a value and
    the hash of a tuple from the hashes of its items. *)
Class PyRuntime : Type := {
  py_repr       : PyValue -> string;
  py_str_type   : texpr -> string;
  py_hash       : PyValue -> Z;
  py_hash_tuple : list Z -> Z
}.

(** [str(n)] for a length. *)
Definition str_of_nat (n : nat) : string := NilZero.string_of_uint (Nat.to_uint n).

(** [str(cls)] for a class object with the default [type.__repr__],
    [<class 'module.name'>]. *)
Definition str_of_class (c : pyclass) : string :=
  if String.eqb (cls_module c) "builtins"
  then "<class '" ++ cls_name c ++ "'>"
  else "<class '" ++ cls_module c ++ "." ++ cls_name c ++ "'>".

(** [str(targets)] for a tuple of class objects. *)
Definition str_of_class_tuple (targets : list pyclass) : string :=
  match targets with
  | [] => "()"
  | [c] => "(" ++ str_of_class c ++ ",)"
  | _ => "(" ++ String.concat ", " (map str_of_class targets) ++ ")"
  end.

(** [_repr_type] on a class ([isinstance(t, type)] holds). *)
Definition _repr_type (t : pyclass) (notset_as_special : bool) : string :=
  if notset_as_special && pyclass_eqb t NotSetType then "<not set>"
  else if String.eqb (cls_module t) "builtins" then cls_name t
  else if String.prefix "pmp_manip.utility." (cls_module t) then "pmp_manip.utility." ++ cls_name t
  else if String.prefix "pmp_manip." (cls_module t) then "pmp_manip." ++ cls_name t
  else if String.eqb (cls_module t) "gceutils" then "gceutils." ++ cls_name t
  else cls_module t ++ "." ++ cls_name t.

(** [AbstractTreePath.__hash__] as [dataclass(unsafe_hash=True)] generates
    it: the hash of the tuple of the fields, here
    [hash((self.path, self.start_with_dot))]; a segment hashes as
    [hash((self.value,))]. *)
Definition segment_hash {rt : PyRuntime} (s : segment) : Z :=
  match s with
  | ATPathAttribute value => py_hash_tuple [py_hash (VStr value)]
  | ATPathIndexOrKey value => py_hash_tuple [py_hash value]
  end.

Definition AbstractTreePath_hash {rt : PyRuntime} (self : AbstractTreePath) : Z :=
  py_hash_tuple [py_hash_tuple (map segment_hash (path self));
                 py_hash (VBool (start_with_dot self))].

(* ===================================================================== *)
(** ** decorators.py: enforce_type                                        *)
(* ===================================================================== *)

(** [enforce_type] with its annotation fixed: a function of [value],
    [path], [condition] and [notset_as_special]. *)
Definition checker : Type :=
  PyValue -> AbstractTreePath -> option string -> bool -> outcome.

(** [expected is Any]: [return]. *)
Definition check_any : checker := fun _ _ _ _ => Returns.

(** [args[i] if len(args) > i else Any], on the checkers of [args]. *)
Definition arg_or_any (checks : list checker) (i : nat) : checker :=
  nth i checks check_any.

(** The union loop: the first arm that does not raise ends the call, a
    [GU_TypeValidationError] of an arm is caught and the next arm tried,
    any other exception of an arm leaves the loop, and when every arm
    raised a validation error the combined error is raised. *)
Fixpoint try_arms (arms : list outcome) (all_failed : outcome) : outcome :=
  match arms with
  | [] => all_failed
  | Returns :: _ => Returns
  | Raises _ :: rest => try_arms rest all_failed
  | RaisesOther exc :: _ => RaisesOther exc
  end.

(** [for i, item in enumerate(value): enforce_type(item, elem_t,
    path.add_index_or_key(i), condition, notset_as_special)], from index
    [i] on. *)
Fixpoint enforce_items (elem_t : checker) (path : AbstractTreePath)
    (condition : option string) (notset_as_special : bool)
    (i : nat) (items : list PyValue) : outcome :=
  match items with
  | [] => Returns
  | item :: rest =>
      elem_t item (add_index_or_key path (VInt (Z.of_nat i))) condition notset_as_special ;;
      enforce_items elem_t path condition notset_as_special (S i) rest
  end.

(** [for i, (item, elem_t) in enumerate(zip(value, args)): ...]. *)
Fixpoint enforce_zip (args : list checker) (path : AbstractTreePath)
    (condition : option string) (notset_as_special : bool)
    (i : nat) (items : list PyValue) : outcome :=
  match items, args with
  | item :: rest, elem_t :: args' =>
      elem_t item (add_index_or_key path (VInt (Z.of_nat i))) condition notset_as_special ;;
      enforce_zip args' path condition notset_as_special (S i) rest
  | _, _ => Returns
  end.

(** [for i, (k, v) in enumerate(value.items()): ...] of the dict and
    Mapping branches. *)
Fixpoint enforce_dict_items (key_t val_t : checker) (path keys_path : AbstractTreePath)
    (condition : option string) (notset_as_special : bool)
    (i : nat) (items : list (PyValue * PyValue)) : outcome :=
  match items with
  | [] => Returns
  | (k, v) :: rest =>
      key_t k (add_index_or_key keys_path (VInt (Z.of_nat i))) condition notset_as_special ;;
      val_t v (add_index_or_key path k) condition notset_as_special ;;
      enforce_dict_items key_t val_t path keys_path condition notset_as_special (S i) rest
  end.

(** The [type[T]] branch after [isinstance(value, type)] held: the class
    [c] with ancestors [bases] against the first argument of [type[...]]. *)
Definition type_target (args : list type_arg) : class_or_union :=
  let target := match args with
                | a :: _ => a
                | [] => ArgIs (OneClass object_cls)
                end in
  match target with
  | ArgTypeVar (Some bound) => bound
  | ArgTypeVar None => OneClass object_cls
  | ArgIs t => t
  end.

Definition type_targets (target : class_or_union) : list pyclass :=
  match target with
  | UnionOf cs => cs
  | OneClass c => [c]
  end.

Definition is_object (target : class_or_union) : bool :=
  match target with
  | OneClass c => pyclass_eqb c object_cls
  | UnionOf _ => false
  end.

(** [len(args) == 2 and args[1] is Ellipsis]. *)
Definition is_repeated_tuple (args : list texpr) : bool :=
  match args with
  | [_; TEllipsis] => true
  | _ => false
  end.

(** [origin.__name__] for the three homogeneous containers. *)
Definition container_name (o : origin) : string :=
  match o with
  | OList => "list"
  | OSet => "set"
  | OFrozenSet => "frozenset"
  | _ => ""
  end.

(** [value] when [isinstance(value, origin)] for [origin] one of [list],
    [set], [frozenset]. *)
Definition container_items (o : origin) (value : PyValue) : option (list PyValue) :=
  match o, value with
  | OList, VList items => Some items
  | OSet, VSet items => Some items
  | OFrozenSet, VFrozenSet items => Some items
  | _, _ => None
  end.

Fixpoint enforce_type {rt : PyRuntime} (expected : texpr) (value : PyValue)
    (path : AbstractTreePath) (condition : option string)
    (notset_as_special : bool) {struct expected} : outcome :=
  let raise (msg : string) : outcome :=
    Raises (mk_error GU_TypeValidationError path msg condition) in
  let actual : string := _repr_type (type_of value) notset_as_special in
  match expected with
  (* --- Handle Any --- *)
  | TAny => Returns
  (* --- Handle TypeVar --- *)
  | TTypeVar (Some bound) => enforce_type bound value path condition true
  | TTypeVar None => Returns
  (* --- Handle Union / Optional --- *)
  | TUnion arms =>
      try_arms
        (map (fun arm => enforce_type arm value path condition notset_as_special) arms)
        (raise ("must be one of types " ++ py_str_type expected ++ " not " ++ actual)%string)
  (* --- Handle type[T] --- *)
  | TType args =>
      match value with
      | VClass c bases =>
          let target := type_target args in
          let targets := type_targets target in
          if is_object target then Returns
          else
            match subclass_check c bases targets with
            | None => RaisesOther TypeError_cls
            | Some false => raise ("must be a subclass of " ++ str_of_class_tuple targets
                                   ++ " not " ++ str_of_class c)%string
            | Some true => Returns
            end
      | _ => raise ("must be a class (type[T]) not " ++ actual)%string
      end
  (* --- Handle dict[K,V] --- *)
  | TGeneric ODict args =>
      let key_t := arg_or_any (map enforce_type args) 0 in
      let val_t := arg_or_any (map enforce_type args) 1 in
      match value with
      | VDict items =>
          let keys_path := add_attribute path "keys()" in
          enforce_dict_items key_t val_t path keys_path condition notset_as_special 0 items
      | _ => raise ("must be a dict not " ++ actual)%string
      end
  (* --- Handle tuple[T,...] or fixed tuple --- *)
  | TGeneric OTuple args =>
      match value with
      | VTuple items =>
          if is_repeated_tuple args then                       (* tuple[T, ...] *)
            let elem_t := arg_or_any (map enforce_type args) 0 in
            enforce_items elem_t path condition notset_as_special 0 items
          else if negb (Nat.eqb (List.length args) 0) then     (* tuple[T1, T2, ...] *)
            if negb (Nat.eqb (List.length items) (List.length args))
            then raise ("must be a tuple of length " ++ str_of_nat (List.length args)
                        ++ " not length " ++ str_of_nat (List.length items))%string
            else enforce_zip (map enforce_type args) path condition notset_as_special 0 items
          else Returns
      | _ => raise ("must be a tuple not " ++ actual)%string
      end
  (* --- Handle list[T], set[T], frozenset[T] --- *)
  | TGeneric ((OList | OSet | OFrozenSet) as o) args =>
      match container_items o value with
      | Some items =>
          let elem_t := arg_or_any (map enforce_type args) 0 in
          enforce_items elem_t path condition notset_as_special 0 items
      | None => raise ("must be a " ++ container_name o ++ " not " ++ actual)%string
      end
  (* --- Handle Callable --- *)
  | TGeneric OCallable _ =>
      if negb (callable value)
      then raise ("must be Callable not non-callable " ++ actual)%string
      else Returns
  (* --- Handle Mapping[K, V] --- the only Mapping among the represented
     values is the dict *)
  | TGeneric OMapping args =>
      let key_t := arg_or_any (map enforce_type args) 0 in
      let val_t := arg_or_any (map enforce_type args) 1 in
      match value with
      | VDict items =>
          let keys_path := add_attribute path "keys()" in
          enforce_dict_items key_t val_t path keys_path condition notset_as_special 0 items
      | _ => raise ("must be a Mapping not " ++ actual)%string
      end
  (* --- Handle Sequence[T] --- *)
  | TGeneric OSequence args =>
      match (if is_Sequence value then py_iter value else None) with
      | Some items =>
          let elem_t := arg_or_any (map enforce_type args) 0 in
          enforce_items elem_t path condition notset_as_special 0 items
      | None => raise ("must be a Sequence not " ++ actual)%string
      end
  (* --- Handle Iterable[T] (excluding str/bytes) --- *)
  | TGeneric OIterable args =>
      match py_iter value with
      | Some items =>
          if is_str_or_bytes value then Returns
          else
            let elem_t := arg_or_any (map enforce_type args) 0 in
            enforce_items elem_t path condition notset_as_special 0 items
      | None => raise ("must be an Iterable not " ++ actual)%string
      end
  (* --- Handle Literal[V, ...] --- *)
  | TLiteral args =>
      if negb (existsb (fun a => py_eq a value) args)
      then raise ("must be one of Literal" ++ py_repr (VTuple args)
                  ++ " not " ++ py_repr value)%string
      else Returns
  (* --- Fallback: plain class or special typing objects --- *)
  | TClass c =>
      if pyclass_eqb c ABCCallable
      then (if negb (callable value)
            then raise ("must be Callable not non-callable " ++ actual)%string
            else Returns)
      else
        (* isinstance(expected, type): the check is outside any try *)
        match instance_check value [c] with
        | None => RaisesOther TypeError_cls
        | Some false => raise ("must be of type " ++ _repr_type c notset_as_special
                               ++ " not " ++ actual)%string
        | Some true => Returns
        end
  | TClassTuple cs =>
      (* inside try ... except TypeError: a TypeError of isinstance is
         turned into the same error *)
      match instance_check value cs with
      | Some true => Returns
      | _ => raise ("must be of type " ++ py_str_type expected ++ " not " ++ actual)%string
      end
  | TEllipsis | TOpaque _ =>
      (* isinstance raises TypeError, which is turned into the same error *)
      raise ("must be of type " ++ py_str_type expected ++ " not " ++ actual)%string
  (* --- Last fallback: ignore parameterization, just check origin --- *)
  | TGeneric (OOther c) _ =>
      match instance_check value [c] with
      | None => RaisesOther TypeError_cls
      | Some false => raise ("must be of type " ++ cls_name c ++ " not " ++ actual)%string
      | Some true => Returns
      end
  end.

(* ===================================================================== *)
(** ** base.py: validate_method of grepr_dataclass                        *)
(* ===================================================================== *)

(** A dataclass field as [validate_method] reads it: its name, its resolved
    type hint and the options of [FIELD_OPTIONS] that the method consults
    ([grepr] and [validator_fn] are not read there). *)
Record dc_field := mk_field {
  field_name             : string;
  field_type             : texpr;
  validate_type          : bool;
  validate_require_exist : bool;
  call_subvalidate       : bool
}.

(** An instance of a grepr dataclass: the fields of its class, the
    attributes [getattr] finds on it, and its [post_validate] method when
    it has a callable one. *)
Record instance := mk_instance {
  inst_fields        : list dc_field;
  inst_attrs         : list (string * PyValue);
  inst_post_validate : option (AbstractTreePath -> outcome)
}.

(** Attribute lookup; [None] when [hasattr] is false. *)
Fixpoint lookup_attr {A : Type} (attrs : list (string * A)) (name : string) : option A :=
  match attrs with
  | [] => None
  | (n, v) :: rest => if String.eqb n name then Some v else lookup_attr rest name
  end.

(** A [for] loop whose body may raise. *)
Fixpoint for_each {A : Type} (body : A -> outcome) (xs : list A) : outcome :=
  match xs with
  | [] => Returns
  | x :: rest => body x ;; for_each body rest
  end.

Section Validate.
Context {rt : PyRuntime}.

(** [getattr(field_value, "validate", None)] when it is callable: the
    outcome of calling it on a path.  Only class objects and instances of
    user classes can carry such a method. *)
Variable validate_attr : PyValue -> option (AbstractTreePath -> outcome).

Definition getattr_validate (field_value : PyValue) : option (AbstractTreePath -> outcome) :=
  match field_value with
  | VClass _ _ | VObj _ _ => validate_attr field_value
  | _ => None
  end.

(** Body of the first loop of [validate_method]. *)
Definition check_field (self : instance) (path : AbstractTreePath) (field : dc_field) : outcome :=
  if negb (validate_type field) then Returns
  else
    let expected_type := field_type field in
    match lookup_attr (inst_attrs self) (field_name field) with
    | Some value =>
        enforce_type expected_type value (add_attribute path (field_name field)) None false
    | None =>
        if validate_require_exist field
        then enforce_type expected_type VNotSet (add_attribute path (field_name field)) None true
        else Returns
    end.

(** Body of the second loop. *)
Definition subvalidate_field (self : instance) (path : AbstractTreePath) (field : dc_field) : outcome :=
  if negb (call_subvalidate field) then Returns
  else
    let field_value :=
      match lookup_attr (inst_attrs self) (field_name field) with
      | Some value => value
      | None => VNone
      end in
    match getattr_validate field_value with
    | Some validate => validate (add_attribute path (field_name field))
    | None => Returns
    end.

Definition validate_method (self : instance) (path : option AbstractTreePath) : outcome :=
  let path := match path with
              | None => mk_path [] true
              | Some p => p
              end in
  for_each (check_field self path) (inst_fields self) ;;
  for_each (subvalidate_field self path) (inst_fields self) ;;
  match inst_post_validate self with
  | Some post_validate => post_validate path
  | None => Returns
  end.
End Validate.

(* ===================================================================== *)
(** ** tree_tools.py: TreeVisitor                                         *)
(* ===================================================================== *)

Definition pairs : Type := list (AbstractTreePath * PyValue).

(** A call that may raise [AttributeError] ([None]). *)
Definition visitor : Type := AbstractTreePath -> option pairs.

(** [for i, item in enumerate(obj)]: each child comes with the recursive
    call on it. *)
Fixpoint visit_items (children : list (PyValue * visitor)) (path : AbstractTreePath)
    (i : nat) : option pairs :=
  match children with
  | [] => Some []
  | (item, visit) :: rest =>
      let current_path := add_index_or_key path (VInt (Z.of_nat i)) in
      match visit current_path with
      | None => None
      | Some below =>
          match visit_items rest path (S i) with
          | None => None
          | Some more => Some ((current_path, item) :: below ++ more)
          end
      end
  end.

(** [for key, value in obj.items()]. *)
Fixpoint visit_dict (children : list (PyValue * (PyValue * visitor))) (path : AbstractTreePath)
    : option pairs :=
  match children with
  | [] => Some []
  | (key, (value, visit)) :: rest =>
      let current_path := add_index_or_key path key in
      match visit current_path with
      | None => None
      | Some below =>
          match visit_dict rest path with
          | None => None
          | Some more => Some ((current_path, value) :: below ++ more)
          end
      end
  end.

(** [for field in fields]: [getattr(obj, field)] raises when the attribute
    is missing; a [None] value is skipped. *)
Fixpoint visit_fields (fields : list string) (attrs : list (string * (PyValue * visitor)))
    (path : AbstractTreePath) : option pairs :=
  match fields with
  | [] => Some []
  | field :: rest =>
      match lookup_attr attrs field with
      | None => None
      | Some (VNone, _) => visit_fields rest attrs path
      | Some (value, visit) =>
          let current_path := add_attribute path field in
          match visit current_path with
          | None => None
          | Some below =>
              match visit_fields rest attrs path with
              | None => None
              | Some more => Some ((current_path, value) :: below ++ more)
              end
          end
      end
  end.

(** [filtered_map[path] = value] on a dict kept in insertion order: an
    equal key keeps its place and takes the new value. *)
Fixpoint dict_setitem (d : pairs) (key : AbstractTreePath) (value : PyValue) : pairs :=
  match d with
  | [] => [(key, value)]
  | (k, v) :: rest =>
      if AbstractTreePath_eq k key then (k, value) :: rest
      else (k, v) :: dict_setitem rest key value
  end.

Section TreeVisitor.
(** [obj._visit_node_unfiltered_(path)] for the callable identified by
    [obj_hook] (on an instance) or [cls_hook] (on a class object); [None]
    when the call raises.  On a class object whose class defines the hook
    as a plain method the call lacks an argument and raises [TypeError]. *)
Variable visit_hook : nat -> AbstractTreePath -> option pairs.

Fixpoint _visit_node_unfiltered (obj : PyValue) (path : AbstractTreePath)
    {struct obj} : option pairs :=
  match obj with
  | VList items | VTuple items | VSet items | VFrozenSet items =>
      visit_items (map (fun item => (item, _visit_node_unfiltered item)) items) path 0
  | VDict items =>
      visit_dict
        (map (fun kv => (fst kv, (snd kv, _visit_node_unfiltered (snd kv)))) items) path
  | VObj info attrs =>
      match obj_hook info with
      | Some hook => visit_hook hook path
      | None =>
          visit_fields (obj_fields info)
            (map (fun nv => (fst nv, (snd nv, _visit_node_unfiltered (snd nv)))) attrs) path
      end
  | VClass c _ =>
      match cls_hook c with
      | Some hook => visit_hook hook path
      | None => Some []          (* [dataclasses.fields(type)] raises: no fields *)
      end
  | _ => Some []
  end.

(** The filtering loop of [visit_tree]; [None] when
    [isinstance(value, self.included_types)] raises. *)
Fixpoint filter_pairs (included_types : list pyclass) (unfiltered_pairs : pairs)
    (filtered_map : pairs) : option pairs :=
  match unfiltered_pairs with
  | [] => Some filtered_map
  | (path, value) :: rest =>
      match instance_check value included_types with
      | None => None
      | Some true => filter_pairs included_types rest (dict_setitem filtered_map path value)
      | Some false => filter_pairs included_types rest filtered_map
      end
  end.

Definition visit_tree (included_types : list pyclass) (obj : PyValue) : option pairs :=
  match _visit_node_unfiltered obj empty_path with
  | None => None
  | Some unfiltered_pairs => filter_pairs included_types unfiltered_pairs []
  end.
End TreeVisitor.

(** The calls of custom [_visit_node_unfiltered_] methods that
    [_visit_node_unfiltered] makes on [obj] at [path], in order, as long as
    nothing raises: the hook called and the path it is called with. *)
Definition hook_call : Type := (nat * AbstractTreePath)%type.

Fixpoint calls_of_items (children : list (AbstractTreePath -> list hook_call))
    (path : AbstractTreePath) (i : nat) : list hook_call :=
  match children with
  | [] => []
  | calls :: rest =>
      calls (add_index_or_key path (VInt (Z.of_nat i))) ++ calls_of_items rest path (S i)
  end.

Fixpoint calls_of_dict (children : list (PyValue * (AbstractTreePath -> list hook_call)))
    (path : AbstractTreePath) : list hook_call :=
  match children with
  | [] => []
  | (key, calls) :: rest => calls (add_index_or_key path key) ++ calls_of_dict rest path
  end.

Fixpoint calls_of_fields (fields : list string)
    (attrs : list (string * (PyValue * (AbstractTreePath -> list hook_call))))
    (path : AbstractTreePath) : list hook_call :=
  match fields with
  | [] => []
  | field :: rest =>
      match lookup_attr attrs field with
      | None => []
      | Some (VNone, _) => calls_of_fields rest attrs path
      | Some (_, calls) => calls (add_attribute path field) ++ calls_of_fields rest attrs path
      end
  end.

Fixpoint hook_calls (obj : PyValue) (path : AbstractTreePath) {struct obj} : list hook_call :=
  match obj with
  | VList items | VTuple items | VSet items | VFrozenSet items =>
      calls_of_items (map hook_calls items) path 0
  | VDict items =>
      calls_of_dict (map (fun kv => (fst kv, hook_calls (snd kv))) items) path
  | VObj info attrs =>
      match obj_hook info with
      | Some hook => [(hook, path)]
      | None =>
          calls_of_fields (obj_fields info)
            (map (fun nv => (fst nv, (snd nv, hook_calls (snd nv)))) attrs) path
      end
  | VClass c _ =>
      match cls_hook c with
      | Some hook => [(hook, path)]
      | None => []
      end
  | _ => []
  end.

(* ===================================================================== *)
(** ** base.py: the remaining operations of AbstractTreePath              *)
(* ===================================================================== *)

(** [copy] / [__copy__]: a new path over a copy of the tuple. *)
Definition copy (self : AbstractTreePath) : AbstractTreePath :=
  mk_path (path self) (start_with_dot self).

(** [__add__]: [return self.extend(other)]. *)
Definition path_add (self other : AbstractTreePath) : AbstractTreePath :=
  extend self other.

(** Python's [t[i]] on a tuple: a negative index counts from the end;
    [None] is [IndexError]. *)
Definition tuple_getitem {A : Type} (t : list A) (i : Z) : option A :=
  let len := Z.of_nat (List.length t) in
  let j := if i <? 0 then i + len else i in
  if (j <? 0) || (len <=? j) then None else nth_error t (Z.to_nat j).

(** [__getitem__] with an index argument. *)
Definition getitem_index (self : AbstractTreePath) (i : Z) : option segment :=
  tuple_getitem (path self) i.

(** [tuple.index]: the position of the first item equal to [value];
    [None] is [ValueError]. *)
Fixpoint tuple_index (t : list segment) (value : segment) : option nat :=
  match t with
  | [] => None
  | item :: rest =>
      if segment_eq item value then Some 0%nat
      else match tuple_index rest value with
           | Some i => Some (S i)
           | None => None
           end
  end.

(** [index]: [return self.path.index(value)]. *)
Definition index (self : AbstractTreePath) (value : segment) : option nat :=
  tuple_index (path self) value.

(** [__contains__]: [return value in self.path]. *)
Definition contains (self : AbstractTreePath) (value : segment) : bool :=
  existsb (fun item => segment_eq item value) (path self).

(** [__reversed__]. *)
Definition reversed (self : AbstractTreePath) : list segment := rev (path self).

(** [str.removeprefix(".")]. *)
Definition removeprefix_dot (s : string) : string :=
  match s with
  | String "."%char rest => rest
  | _ => s
  end.

(** The loop of [repr_as_python_code]: [.name] for an attribute,
    [[repr(value)]] for an index or key. *)
Fixpoint render_segments {rt : PyRuntime} (items : list segment) : string :=
  match items with
  | [] => ""
  | ATPathAttribute value :: rest => "." ++ value ++ render_segments rest
  | ATPathIndexOrKey value :: rest => "[" ++ py_repr value ++ "]" ++ render_segments rest
  end.

Definition repr_as_python_code {rt : PyRuntime} (self : AbstractTreePath) : string :=
  let path_string := render_segments (path self) in
  if negb (start_with_dot self) then removeprefix_dot path_string else path_string.

(** [__repr__]. *)
Definition path_repr {rt : PyRuntime} (self : AbstractTreePath) : string :=
  "AbstractTreePath(" ++ repr_as_python_code self ++ ")".

(** errors.py, [GU_PathValidationError.__init__]: the message handed to
    [Exception]. *)
Definition full_message {rt : PyRuntime} (e : GU_PathValidationError) : string :=
  (if Nat.ltb 0 (path_len (err_path e))
   then "At " ++ repr_as_python_code (err_path e) ++ ": " else "")
  ++ (match err_condition e with
      | Some condition => condition ++ ": "
      | None => ""
      end)
  ++ err_msg e.

(* ===================================================================== *)
(** ** base.py: get_in_tree and exists_in_tree                            *)
(* ===================================================================== *)

(** An index: an [int], or a [bool] used as one. *)
Definition as_index (key : PyValue) : option Z :=
  match key with
  | VInt z => Some z
  | VBool b => Some (Z.b2z b)
  | _ => None
  end.

(** [d[key]] on a dict: the value of the stored key equal to [key];
    [None] is [KeyError] (or [TypeError] for an unhashable key, which
    equals no stored key). *)
Fixpoint dict_getitem (items : list (PyValue * PyValue)) (key : PyValue) : option PyValue :=
  match items with
  | [] => None
  | (k, v) :: rest => if py_eq k key then Some v else dict_getitem rest key
  end.

Section GetInTree.

(** [getattr] on a value that is not an instance of a user class, and
    [obj[key]] on an instance or a class object: what the interpreter or
    user code answers; [None] stands for the exception raised. *)
Variable builtin_getattr : PyValue -> string -> option PyValue.
Variable user_getitem : PyValue -> PyValue -> option PyValue.

(** [getattr(current_object, name)]. *)
Definition py_getattr (current_object : PyValue) (name : string) : option PyValue :=
  match current_object with
  | VObj _ attrs => lookup_attr attrs name
  | _ => builtin_getattr current_object name
  end.

(** [current_object[key]]. *)
Definition py_getitem (current_object : PyValue) (key : PyValue) : option PyValue :=
  match current_object with
  | VList items | VTuple items =>
      match as_index key with
      | Some i => tuple_getitem items i
      | None => None
      end
  | VStr s =>
      match as_index key with
      | Some i =>
          match tuple_getitem (list_ascii_of_string s) i with
          | Some c => Some (VStr (String c EmptyString))
          | None => None
          end
      | None => None
      end
  | VBytes b =>
      match as_index key with
      | Some i =>
          match tuple_getitem b i with
          | Some x => Some (VInt (Z.of_N (Byte.to_N x)))
          | None => None
          end
      | None => None
      end
  | VDict items => dict_getitem items key
  | VObj _ _ | VClass _ _ => user_getitem current_object key
  | _ => None
  end.

(** One iteration of the loop of [get_in_tree]; [None] when the access
    raises. *)
Definition get_step (item : segment) (current_object : PyValue) : option PyValue :=
  match item with
  | ATPathAttribute value =>
      match current_object with
      | VDict items =>
          if String.eqb value "keys()" then Some (VList (map fst items))
          else py_getattr current_object value
      | _ => py_getattr current_object value
      end
  | ATPathIndexOrKey value => py_getitem current_object value
  end.

(** The result of [get_in_tree]: a value, or [ValueError] whose message
    names the part [self[:i]] of the path walked so far. *)
Inductive lookup : Type :=
| Value (v : PyValue)
| ValueError (walked : list segment).

Fixpoint get_from (walked items : list segment) (current_object : PyValue) : lookup :=
  match items with
  | [] => Value current_object
  | item :: rest =>
      match get_step item current_object with
      | Some next => get_from (walked ++ [item]) rest next
      | None => ValueError walked
      end
  end.

Definition get_in_tree (self : AbstractTreePath) (tree : PyValue) (default : PyValue)
    : lookup :=
  match get_from [] (path self) tree with
  | Value v => Value v
  | ValueError walked =>
      match default with
      | VNotSet => ValueError walked
      | _ => Value default
      end
  end.

Definition exists_in_tree (self : AbstractTreePath) (tree : PyValue) : bool :=
  match get_in_tree self tree VNotSet with
  | Value _ => true
  | ValueError _ => false
  end.

End GetInTree.

(** A tree made of scalars, lists, tuples, dicts whose keys are pairwise
    different, and class objects and instances without a
    [_visit_node_unfiltered_] method: the containers that can be indexed by
    what the visitor and the checker put into a path. *)
Fixpoint distinct_keys (keys : list PyValue) : bool :=
  match keys with
  | [] => true
  | k :: rest => negb (existsb (fun k' => py_eq k k') rest) && distinct_keys rest
  end.

Fixpoint navigable (v : PyValue) : bool :=
  match v with
  | VList items | VTuple items => forallb navigable items
  | VSet _ | VFrozenSet _ => false
  | VDict items =>
      distinct_keys (map fst items)
      && forallb (fun kv => navigable (fst kv) && navigable (snd kv)) items
  | VObj info attrs =>
      match obj_hook info with
      | Some _ => false
      | None => forallb (fun nv => navigable (snd nv)) attrs
      end
  | VClass c _ =>
      match cls_hook c with
      | Some _ => false
      | None => true
      end
  | _ => true
  end.

(** Every instance that the visitor descends into has all the fields its
    dataclass declares. *)
Fixpoint fields_present (v : PyValue) : bool :=
  match v with
  | VList items | VTuple items | VSet items | VFrozenSet items =>
      forallb fields_present items
  | VDict items => forallb (fun kv => fields_present (snd kv)) items
  | VObj info attrs =>
      match obj_hook info with
      | Some _ => true
      | None =>
          forallb (fun field => existsb (fun nv => String.eqb (fst nv) field) attrs)
                  (obj_fields info)
          && forallb (fun nv => fields_present (snd nv)) attrs
      end
  | _ => true
  end.

(** The annotation has no [Iterable[...]] inside. *)
Fixpoint iterable_free (t : texpr) : bool :=
  match t with
  | TTypeVar (Some bound) => iterable_free bound
  | TUnion arms => forallb iterable_free arms
  | TGeneric OIterable _ => false
  | TGeneric _ args => forallb iterable_free args
  | _ => true
  end.

(** No class that [enforce_type] hands to [isinstance] or [issubclass]
    outside a [try] is a Protocol class that rejects these checks. *)
Fixpoint protocol_free (t : texpr) : bool :=
  match t with
  | TTypeVar (Some bound) => protocol_free bound
  | TUnion arms => forallb protocol_free arms
  | TType args => negb (existsb cls_protocol (type_targets (type_target args)))
  | TGeneric (OOther c) _ => negb (cls_protocol c)
  | TGeneric _ args => forallb protocol_free args
  | TClass c => negb (cls_protocol c)
  | _ => true
  end.

(* ===================================================================== *)
(** ** decorators.py: enforce_argument_types                              *)
(* ===================================================================== *)

(** The two tests that make the wrapper ignore a hint: the hint carries
    the marks of [typing.TypeVar] ([__module__ == "typing"], no
    [__origin__], [__name__ == "TypeVar"]), or it is an instance of a class
    named [TypeVar]. *)
Definition is_typevar_hint (expected_type : texpr) : bool :=
  match expected_type with
  | TTypeVar _ => true
  | TClass c => pyclass_eqb c (mk_class "typing" "TypeVar" false None)
  | _ => false
  end.

(** [AbstractTreePath(start_with_dot=False).add_attribute(name)]. *)
Definition argument_path (name : string) : AbstractTreePath :=
  add_attribute (mk_path [] false) name.

(** [first_name in ("self", "cls")] for the first bound argument. *)
Definition skips_first (arguments : list (string * PyValue)) : bool :=
  match arguments with
  | (first_name, _) :: _ => String.eqb first_name "self" || String.eqb first_name "cls"
  | [] => false
  end.

(** The loop of the wrapper over [bound_args.arguments.items()], from
    position [i] on; [type_hints] is the dict of resolved hints. *)
Fixpoint check_arguments {rt : PyRuntime} (type_hints : list (string * texpr))
    (skip_first : bool) (i : nat) (arguments : list (string * PyValue)) : outcome :=
  match arguments with
  | [] => Returns
  | (name, value) :: rest =>
      (if skip_first && Nat.eqb i 0 then Returns
       else
         match lookup_attr type_hints name with
         | Some expected_type =>
             if is_typevar_hint expected_type then Returns
             else enforce_type expected_type value (argument_path name) None true
         | None => Returns
         end) ;;
      check_arguments type_hints skip_first (S i) rest
  end.

(** What a call of the wrapper does: raise the validation error of a
    check, let out another exception of a check, or call [func]. *)
Inductive call_result (R : Type) : Type :=
| TypeRejected (e : GU_PathValidationError)
| CheckRaised (exc : pyclass)
| Called (result : R).

Arguments TypeRejected {R} e.
Arguments CheckRaised {R} exc.
Arguments Called {R} result.

Definition enforce_argument_types {rt : PyRuntime} {R : Type}
    (type_hints : list (string * texpr)) (func : list (string * PyValue) -> R)
    (arguments : list (string * PyValue)) : call_result R :=
  match check_arguments type_hints (skips_first arguments) 0 arguments with
  | Raises e => TypeRejected e
  | RaisesOther exc => CheckRaised exc
  | Returns => Called (func arguments)
  end.

(* ===================================================================== *)
(** ** base.py: FIELD_OPTIONS, update_field, get_field_options            *)
(* ===================================================================== *)

(** The options stored for a dataclass field; [validator_fn] is kept as
    the identity of the callable, if any. *)
Record field_options := mk_options {
  opt_grepr                  : bool;
  opt_validate_type          : bool;
  opt_validator_fn           : option nat;
  opt_validate_require_exist : bool;
  opt_call_subvalidate       : bool
}.

(** The defaults of [update_field]. *)
Definition default_options : field_options := mk_options true true None true false.

(** [FIELD_OPTIONS]: a dict keyed by [Field] objects, which hash and
    compare by identity; a field is named by a number. *)
Definition field_table : Type := list (nat * field_options).

Fixpoint table_lookup (table : field_table) (field : nat) : option field_options :=
  match table with
  | [] => None
  | (f, options) :: rest => if Nat.eqb f field then Some options else table_lookup rest field
  end.

(** [update_field]: [if field not in FIELD_OPTIONS: FIELD_OPTIONS[field] = dict(...)]. *)
Definition update_field (field : nat) (options : field_options) (table : field_table)
    : field_table :=
  match table_lookup table field with
  | Some _ => table
  | None => table ++ [(field, options)]
  end.

(** [get_field_options]: [update_field(field); return FIELD_OPTIONS[field]];
    the new table and the options returned. *)
Definition get_field_options (field : nat) (table : field_table)
    : field_table * option field_options :=
  let table' := update_field field default_options table in
  (table', table_lookup table' field).

(* ===================================================================== *)
(** ** validation.py: Validator and ValidateAttribute.VA_TYPE             *)
(* ===================================================================== *)

(** What a call of a [Validator] does: return, raise the validation error
    it builds, or fail with [TypeError] (wrong number of arguments, or an
    exception [is_valid_fn] lets out) or with the [AttributeError] of
    [getattr(obj, attr)]. *)
Inductive validator_result : Type :=
| VReturns
| VRaises (e : GU_PathValidationError)
| VTypeError
| VAttributeError.

(** What [is_valid_fn] does: return a truth value or raise [TypeError]. *)
Inductive validity : Type :=
| Valid (b : bool)
| ValidityTypeError.

(** A [Validator] whose extra positional arguments are of type [Arg]:
    [is_valid_arg_count] is the number of parameters of [is_valid_fn] plus
    two. *)
Record Validator (Arg : Type) := mk_validator {
  is_valid_fn        : PyValue -> list Arg -> validity;
  is_valid_params    : nat;
  error_cls          : error_kind;
  create_error_fn    : PyValue -> string -> list Arg -> string;
  pre_validate_fn    : option (PyValue -> AbstractTreePath -> string -> list Arg ->
                               option string -> validator_result)
}.

Definition is_valid_arg_count {Arg : Type} (self : Validator Arg) : nat :=
  (is_valid_params self + 2)%nat.

Section ValidatorCall.
Context {rt : PyRuntime}.
Variable builtin_getattr : PyValue -> string -> option PyValue.

(** [_repr_type] on a type hint: a class is rendered by the class rule
    ([typing.Any] is a class of module [typing]), anything else by [str]. *)
Definition _repr_type_hint (t : texpr) : string :=
  match t with
  | TClass c => _repr_type c true
  | TAny => _repr_type (mk_class "typing" "Any" false None) true
  | _ => py_str_type t
  end.

(** [_value_and_descr]. *)
Definition _value_and_descr (obj : PyValue) (attr : string) : option (PyValue * string) :=
  match py_getattr builtin_getattr obj attr with
  | Some attr_value =>
      Some (attr_value, (attr ++ " of a " ++ _repr_type (type_of obj) true)%string)
  | None => None
  end.

(** [Validator.__call__]. *)
Definition validator_call {Arg : Type} (self : Validator Arg) (obj : PyValue)
    (path : AbstractTreePath) (attr : string) (args : list Arg)
    (condition : option string) : validator_result :=
  let continue :=
    let arg_count := (List.length args + 3)%nat in
    if negb (Nat.eqb arg_count (is_valid_arg_count self)) then VTypeError
    else
      match _value_and_descr obj attr with
      | None => VAttributeError
      | Some (attr_value, descr) =>
          match is_valid_fn self attr_value args with
          | ValidityTypeError => VTypeError
          | Valid false =>
              VRaises (mk_error (error_cls self) path
                         (create_error_fn self attr_value descr args) condition)
          | Valid true => VReturns
          end
      end in
  match pre_validate_fn self with
  | Some pre =>
      match pre obj path attr args condition with
      | VReturns => continue
      | failure => failure
      end
  | None => continue
  end.

(** [_passes(enforce_type, attr_value, t)]: only a
    [GU_PathValidationError] is caught; the only other exception
    [enforce_type] lets out is a [TypeError]. *)
Definition _passes (attr_value : PyValue) (t : texpr) : validity :=
  match enforce_type t attr_value empty_path None true with
  | Returns => Valid true
  | Raises _ => Valid false
  | RaisesOther _ => ValidityTypeError
  end.

(** [ValidateAttribute.VA_TYPE]. *)
Definition VA_TYPE : Validator texpr :=
  mk_validator
    (fun attr_value args =>
       match args with
       | [t] => _passes attr_value t
       | _ => ValidityTypeError   (* the lambda takes exactly [attr_value, t] *)
       end)
    2
    GU_TypeValidationError
    (fun attr_value descr args =>
       match args with
       | [t] => (descr ++ " must be of type " ++ _repr_type_hint t ++ " not "
                 ++ _repr_type (type_of attr_value) true)%string
       | _ => ""%string
       end)
    None.

End ValidatorCall.

(* ===================================================================== *)
(** ** dual_key_dict.py: DualKeyDict                                      *)
(* ===================================================================== *)

(** The methods are embedded by their bodies: keys and values are
    annotated with type variables, which [enforce_argument_types] skips.
    Exceptions are told apart by class. *)

Module DKD.

(** A Python dict in insertion order, over keys whose [==] is decided by
    [eqb]. *)
Section PyDict.
Variables (K A : Type) (eqb : K -> K -> bool).

(** [d[k]]; [None] is [KeyError]. *)
Fixpoint pd_get (d : list (K * A)) (k : K) : option A :=
  match d with
  | [] => None
  | (k', v) :: rest => if eqb k' k then Some v else pd_get rest k
  end.

(** [k in d]. *)
Definition pd_contains (d : list (K * A)) (k : K) : bool :=
  match pd_get d k with
  | Some _ => true
  | None => false
  end.

(** [d[k] = v]: an existing key keeps its place. *)
Fixpoint pd_set (d : list (K * A)) (k : K) (v : A) : list (K * A) :=
  match d with
  | [] => [(k, v)]
  | (k', v') :: rest =>
      if eqb k' k then (k', v) :: rest else (k', v') :: pd_set rest k v
  end.

(** [d.pop(k)]: the value and the dict without the key; [None] is
    [KeyError]. *)
Fixpoint pd_pop (d : list (K * A)) (k : K) : option (A * list (K * A)) :=
  match d with
  | [] => None
  | (k', v) :: rest =>
      if eqb k' k then Some (v, rest)
      else match pd_pop rest k with
           | Some (x, rest') => Some (x, (k', v) :: rest')
           | None => None
           end
  end.
End PyDict.

Section Methods.
Variables K1 K2 V : Type.
Variable k1_eqb : K1 -> K1 -> bool.
Variable k2_eqb : K2 -> K2 -> bool.

(** The three dicts of an instance. *)
Record t := mk {
  _values   : list (K1 * V);
  _k2_to_k1 : list (K2 * K1);
  _k1_to_k2 : list (K1 * K2)
}.

(** The exceptions the methods raise, by class. *)
Inductive exn : Type :=
| KeyError
| ValueError.

Inductive res (A : Type) : Type :=
| Ok (a : A)
| Raise (e : exn).
Arguments Ok {A} a.
Arguments Raise {A} e.

(** A method call: the instance after the call (mutations made before an
    exception stay) and the result. *)
Definition M (A : Type) : Type := t -> t * res A.

Definition ret {A : Type} (a : A) : M A := fun s => (s, Ok a).
Definition raise {A : Type} (e : exn) : M A := fun s => (s, Raise e).
Definition bind {A B : Type} (m : M A) (k : A -> M B) : M B :=
  fun s =>
    match m s with
    | (s', Ok a) => k a s'
    | (s', Raise e) => (s', Raise e)
    end.
Definition get_self : M t := fun s => (s, Ok s).
Definition put_self (s' : t) : M unit := fun _ => (s', Ok tt).

(** [try: m  except KeyError: handler]. *)
Definition except_KeyError {A : Type} (m : M A) (handler : M A) : M A :=
  fun s =>
    match m s with
    | (s', Raise KeyError) => handler s'
    | other => other
    end.

Notation "x <- m ;; k" := (bind m (fun x => k))
  (at level 61, m at next level, right associativity).
Notation "m ;;; k" := (bind m (fun _ => k))
  (at level 61, right associativity).

(** [DualKeyDict()]. *)
Definition empty : t := mk [] [] [].

Definition has_key1 (key1 : K1) : M bool :=
  s <- get_self ;; ret (pd_contains k1_eqb (_values s) key1).

Definition has_key2 (key2 : K2) : M bool :=
  s <- get_self ;; ret (pd_contains k2_eqb (_k2_to_k1 s) key2).

Definition get_key1_for_key2 (key2 : K2) : M K1 :=
  s <- get_self ;;
  match pd_get k2_eqb (_k2_to_k1 s) key2 with
  | Some key1 => ret key1
  | None => raise KeyError
  end.

Definition get_key2_for_key1 (key1 : K1) : M K2 :=
  s <- get_self ;;
  match pd_get k1_eqb (_k1_to_k2 s) key1 with
  | Some key2 => ret key2
  | None => raise KeyError
  end.

(** The three assignments that end [set] and the loop body of [__ior__]. *)
Definition store (key1 : K1) (key2 : K2) (value : V) : M unit :=
  s <- get_self ;;
  put_self (mk (pd_set k1_eqb (_values s) key1 value)
               (pd_set k2_eqb (_k2_to_k1 s) key2 key1)
               (pd_set k1_eqb (_k1_to_k2 s) key1 key2)).

Definition set (key1 : K1) (key2 : K2) (value : V) : M unit :=
  has_key1_ <- has_key1 key1 ;;
  has_key2_ <- has_key2 key2 ;;
  if has_key1_ && negb has_key2_ then
    get_key2_for_key1 key1 ;;; raise ValueError
  else if has_key2_ && negb has_key1_ then
    get_key1_for_key2 key2 ;;; raise ValueError
  else
    differs <- (if has_key1_
                then real_key2 <- get_key2_for_key1 key1 ;;
                     ret (negb (k2_eqb real_key2 key2))
                else ret false) ;;
    if differs then get_key2_for_key1 key1 ;;; raise ValueError
    else store key1 key2 value.

Definition update_by_key1 (key1 : K1) (value : V) : M unit :=
  present <- has_key1 key1 ;;
  if negb present then raise KeyError
  else s <- get_self ;;
       put_self (mk (pd_set k1_eqb (_values s) key1 value) (_k2_to_k1 s) (_k1_to_k2 s)).

Definition update_by_key2 (key2 : K2) (value : V) : M unit :=
  present <- has_key2 key2 ;;
  if negb present then raise KeyError
  else key1 <- get_key1_for_key2 key2 ;;
       s <- get_self ;;
       put_self (mk (pd_set k1_eqb (_values s) key1 value) (_k2_to_k1 s) (_k1_to_k2 s)).

Definition clear : M unit := put_self empty.

Definition get_by_key1 (key1 : K1) : M V :=
  s <- get_self ;;
  match pd_get k1_eqb (_values s) key1 with
  | Some value => ret value
  | None => raise KeyError
  end.

Definition get_by_key2 (key2 : K2) : M V :=
  key1 <- get_key1_for_key2 key2 ;;
  s <- get_self ;;
  match pd_get k1_eqb (_values s) key1 with
  | Some value => ret value
  | None => raise KeyError
  end.

Definition get_by_key1_with_default (key1 : K1) (default : V) : M V :=
  except_KeyError (get_by_key1 key1) (ret default).

Definition get_by_key2_with_default (key2 : K2) (default : V) : M V :=
  except_KeyError (get_by_key2 key2) (ret default).

(** [self._values.pop(key1)] and its two companions. *)
Definition pop_values (key1 : K1) : M V :=
  s <- get_self ;;
  match pd_pop k1_eqb (_values s) key1 with
  | Some (value, rest) => put_self (mk rest (_k2_to_k1 s) (_k1_to_k2 s)) ;;; ret value
  | None => raise KeyError
  end.

Definition pop_k2_to_k1 (key2 : K2) : M K1 :=
  s <- get_self ;;
  match pd_pop k2_eqb (_k2_to_k1 s) key2 with
  | Some (key1, rest) => put_self (mk (_values s) rest (_k1_to_k2 s)) ;;; ret key1
  | None => raise KeyError
  end.

Definition pop_k1_to_k2 (key1 : K1) : M K2 :=
  s <- get_self ;;
  match pd_pop k1_eqb (_k1_to_k2 s) key1 with
  | Some (key2, rest) => put_self (mk (_values s) (_k2_to_k1 s) rest) ;;; ret key2
  | None => raise KeyError
  end.

(** [pop_by_key1]: only the [KeyError] of the first [pop] is caught. *)
Definition pop_by_key1 (key1 : K1) : M V :=
  fun s =>
    match pop_k1_to_k2 key1 s with
    | (s', Ok key2) => (pop_k2_to_k1 key2 ;;; pop_values key1) s'
    | (s', Raise KeyError) => (s', Raise KeyError)
    | (s', Raise e) => (s', Raise e)
    end.

Definition pop_by_key2 (key2 : K2) : M V :=
  fun s =>
    match pop_k2_to_k1 key2 s with
    | (s', Ok key1) => (pop_k1_to_k2 key1 ;;; pop_values key1) s'
    | (s', Raise KeyError) => (s', Raise KeyError)
    | (s', Raise e) => (s', Raise e)
    end.

Definition delete_by_key1 (key1 : K1) : M unit := pop_by_key1 key1 ;;; ret tt.
Definition delete_by_key2 (key2 : K2) : M unit := pop_by_key2 key2 ;;; ret tt.

Definition pop_by_key1_with_default (key1 : K1) (default : V) : M V :=
  except_KeyError (pop_by_key1 key1) (ret default).

Definition pop_by_key2_with_default (key2 : K2) (default : V) : M V :=
  except_KeyError (pop_by_key2 key2) (ret default).

Definition change_key1_by_key2 (key2 : K2) (new_key1 : K1) : M unit :=
  present <- has_key2 key2 ;;
  if negb present then raise KeyError
  else
    taken <- has_key1 new_key1 ;;
    if taken then get_key2_for_key1 new_key1 ;;; raise ValueError
    else value <- pop_by_key2 key2 ;; set new_key1 key2 value.

Definition change_key2_by_key1 (key1 : K1) (new_key2 : K2) : M unit :=
  present <- has_key1 key1 ;;
  if negb present then raise KeyError
  else
    taken <- has_key2 new_key2 ;;
    if taken then get_key1_for_key2 new_key2 ;;; raise ValueError
    else value <- pop_by_key1 key1 ;; set key1 new_key2 value.

Definition change_key1_key2_by_key1 (old_key1 new_key1 : K1) (new_key2 : K2) : M unit :=
  present <- has_key1 old_key1 ;;
  if negb present then raise KeyError
  else
    taken1 <- has_key1 new_key1 ;;
    if taken1 then get_key2_for_key1 new_key1 ;;; raise ValueError
    else
      taken2 <- has_key2 new_key2 ;;
      if taken2 then get_key1_for_key2 new_key2 ;;; raise ValueError
      else value <- pop_by_key1 old_key1 ;; set new_key1 new_key2 value.

Definition change_key1_key2_by_key2 (old_key2 : K2) (new_key1 : K1) (new_key2 : K2)
    : M unit :=
  present <- has_key2 old_key2 ;;
  if negb present then raise KeyError
  else
    taken1 <- has_key1 new_key1 ;;
    if taken1 then get_key2_for_key1 new_key1 ;;; raise ValueError
    else
      taken2 <- has_key2 new_key2 ;;
      if taken2 then get_key1_for_key2 new_key2 ;;; raise ValueError
      else value <- pop_by_key2 old_key2 ;; set new_key1 new_key2 value.

(** The body of the loop of [__ior__]. *)
Definition ior_entry (key1 : K1) (key2 : K2) (evalue : V) : M unit :=
  has_key1_ <- has_key1 key1 ;;
  has_key2_ <- has_key2 key2 ;;
  if has_key1_ && negb has_key2_ then
    get_key2_for_key1 key1 ;;; raise ValueError
  else if has_key2_ && negb has_key1_ then
    get_key1_for_key2 key2 ;;; raise ValueError
  else
    real_key2 <- get_key2_for_key1 key1 ;;
    if negb (k2_eqb real_key2 key2) then get_key2_for_key1 key1 ;;; raise ValueError
    else store key1 key2 evalue.

(** [for key1, key2, evalue in value.items_key1_key2(): ...]: the
    generator walks [value._k1_to_k2] and reads each value with
    [value.get_by_key1(key1)] when the entry is reached. *)
Fixpoint ior_loop (other_values : list (K1 * V)) (other_k1_to_k2 : list (K1 * K2))
    : M unit :=
  match other_k1_to_k2 with
  | [] => ret tt
  | (key1, key2) :: rest =>
      match pd_get k1_eqb other_values key1 with
      | Some evalue => ior_entry key1 key2 evalue ;;; ior_loop other_values rest
      | None => raise KeyError
      end
  end.

(** [__ior__]: the loop; nothing is returned. *)
Definition ior (value : t) : M unit :=
  ior_loop (_values value) (_k1_to_k2 value).

(** [update]: [return self.__ior__(value)]. *)
Definition update (value : t) : M unit := ior value.

(** [__or__] (and [__ror__]): [copy = self.copy(); return copy.__ior__(value)];
    the receiver is not changed, and the result is what [__ior__] on the
    copy returns. *)
Definition or_ (value : t) : M unit :=
  fun self => (self, snd (ior value self)).

(** [__len__] and [__bool__]. *)
Definition len (self : t) : nat := List.length (_values self).
Definition to_bool (self : t) : bool := negb (Nat.eqb (len self) 0).

(** [__init__] from the items of a dict keyed by pairs. *)
Fixpoint init_loop (items : list ((K1 * K2) * V)) : M unit :=
  match items with
  | [] => ret tt
  | ((key1, key2), value) :: rest => set key1 key2 value ;;; init_loop rest
  end.

Definition init (iterable : option (list ((K1 * K2) * V))) : t * res unit :=
  match iterable with
  | Some items => init_loop items empty
  | None => (empty, Ok tt)
  end.

(** What the three dicts of an instance built through the methods satisfy:
    each is a dict (no key twice), [_values] and [_k1_to_k2] have the same
    keys, and [_k1_to_k2] and [_k2_to_k1] are inverse to each other. *)
Definition consistent (self : t) : Prop :=
  NoDup (map fst (_values self))
  /\ NoDup (map fst (_k2_to_k1 self))
  /\ NoDup (map fst (_k1_to_k2 self))
  /\ (forall key1, pd_contains k1_eqb (_values self) key1
                   = pd_contains k1_eqb (_k1_to_k2 self) key1)
  /\ (forall key1 key2,
        pd_get k1_eqb (_k1_to_k2 self) key1 = Some key2
        <-> pd_get k2_eqb (_k2_to_k1 self) key2 = Some key1).

(** What a key change achieves: the call returned; the value that was
    stored under [old1] is now read by [new1] and by [new2], which name each
    other; a key that was replaced is no longer a key; the length is the
    same and every other key1 reads what it read before. *)
Definition entry_moved (self : t) (old1 : K1) (old2 : K2) (new1 : K1) (new2 : K2)
    (result : t * res unit) : Prop :=
  snd result = Ok tt
  /\ (exists value,
        snd (get_by_key1 old1 self) = Ok value
        /\ snd (get_by_key1 new1 (fst result)) = Ok value
        /\ snd (get_by_key2 new2 (fst result)) = Ok value)
  /\ snd (get_key2_for_key1 new1 (fst result)) = Ok new2
  /\ snd (get_key1_for_key2 new2 (fst result)) = Ok new1
  /\ (old1 <> new1 -> snd (has_key1 old1 (fst result)) = Ok false)
  /\ (old2 <> new2 -> snd (has_key2 old2 (fst result)) = Ok false)
  /\ len (fst result) = len self
  /\ (forall k, k <> old1 -> k <> new1 ->
        snd (get_by_key1 k (fst result)) = snd (get_by_key1 k self)).

End Methods.

Arguments Ok {A} a.
Arguments Raise {A} e.

Section SingleKey.
Variables K V : Type.
Variable k_eqb : K -> K -> bool.

(** [==] on the tuples [(key, key)]. *)
Definition pair_eqb (a b : K * K) : bool :=
  k_eqb (fst a) (fst b) && k_eqb (snd a) (snd b).

(** [from_single_key_value]: the dict comprehension
    [{(key, key): value for key, value in iterable}] handed to
    [DualKeyDict(...)]. *)
Definition from_single_key_value (iterable : list (K * V)) : t K K V * res unit :=
  init k_eqb k_eqb
    (Some (fold_left (fun d kv => pd_set pair_eqb d (fst kv, fst kv) (snd kv))
             iterable [])).

(** [dict(iterable)]: a later pair of the same key replaces the value. *)
Definition dict_of (iterable : list (K * V)) : list (K * V) :=
  fold_left (fun d kv => pd_set k_eqb d (fst kv) (snd kv)) iterable [].
End SingleKey.

End DKD.

(** An instance with the entries 2/"two" and 1/"one". *)
Definition sample_dkd : DKD.t nat string Z :=
  fst (DKD.set Nat.eqb String.eqb 1%nat "one" 10
         (fst (DKD.set Nat.eqb String.eqb 2%nat "two" 20 (DKD.empty nat string Z)))).

(* ===================================================================== *)
(** ** Vocabulary of the statements                                       *)
(* ===================================================================== *)

(** A checker whose verdict ignores [path], [condition] and
    [notset_as_special]. *)
Definition verdict_stable (chk : checker) : Prop :=
  forall v p c ns p' c' ns', returns (chk v p c ns) = returns (chk v p' c' ns').

(** How a call ends, the content of a validation error left aside. *)
Inductive ending : Type :=
| EndsReturning
| EndsRejecting
| EndsRaising (exc : pyclass).

Definition ending_of (o : outcome) : ending :=
  match o with
  | Returns => EndsReturning
  | Raises _ => EndsRejecting
  | RaisesOther exc => EndsRaising exc
  end.

(** A checker for which also the exception let out ignores [path],
    [condition] and [notset_as_special]. *)
Definition ending_stable (chk : checker) : Prop :=
  forall v p c ns p' c' ns', ending_of (chk v p c ns) = ending_of (chk v p' c' ns').

(** [q] is [p] followed by further segments, with the same rendering
    flag. *)
Definition extends_path (p q : AbstractTreePath) : Prop :=
  exists suffix, q = mk_path (path p ++ suffix) (start_with_dot p).

(** An error of kind [GU_TypeValidationError] that carries the condition
    [c] and whose path is [p] or lies below [p]. *)
Definition reported_below (p : AbstractTreePath) (c : option string)
    (e : GU_PathValidationError) : Prop :=
  err_kind e = GU_TypeValidationError /\ err_condition e = c /\ extends_path p (err_path e).

Definition well_reported (chk : checker) : Prop :=
  forall v p c ns e, chk v p c ns = Raises e -> reported_below p c e.

(** Following the specification's words for a mapping: the [i]-th key is
    checked against [K] at [path.keys()[i]] and its value against [V] at
    [path[key]], in enumeration order. *)
Definition dict_checks_spec {rt : PyRuntime} (K V : texpr) (path : AbstractTreePath)
    (condition : option string) (notset_as_special : bool)
    (items : list (PyValue * PyValue)) : outcome :=
  for_each
    (fun entry : nat * (PyValue * PyValue) =>
       let '(i, (k, v)) := entry in
       enforce_type K k
         (add_index_or_key (add_attribute path "keys()") (VInt (Z.of_nat i)))
         condition notset_as_special ;;
       enforce_type V v (add_index_or_key path k) condition notset_as_special)
    (combine (seq 0 (List.length items)) items).

(** A record with the single field [x], which no instance attribute
    provides. *)
Definition absent_field_instance (field_type : texpr) (require_exist : bool) : instance :=
  mk_instance [mk_field "x" field_type true require_exist false] [] None.

(** A pair whose path has at least one segment. *)
Definition below_root (entry : AbstractTreePath * PyValue) : Prop :=
  path (fst entry) <> [].

(** Each of the hook calls [calls] that returns, returns pairs whose paths
    have at least one segment. *)
Definition hooks_below_root (visit_hook : nat -> AbstractTreePath -> option pairs)
    (calls : list hook_call) : Prop :=
  Forall (fun call => forall found,
            visit_hook (fst call) (snd call) = Some found -> Forall below_root found)
         calls.

(** Each of the hook calls [calls] returns. *)
Definition hooks_return (visit_hook : nat -> AbstractTreePath -> option pairs)
    (calls : list hook_call) : Prop :=
  Forall (fun call => exists found, visit_hook (fst call) (snd call) = Some found) calls.

(** The class [app.Node], which defines [_visit_node_unfiltered_] as a
    plain method (hook 0 on its instances; hook 1 is the function reached
    through the class object itself), and an instance of it. *)
Definition Node_cls : pyclass := mk_class "app" "Node" false (Some 1%nat).

Definition hooked_node : PyValue :=
  VObj (mk_objinfo Node_cls [object_cls] [] false (Some 0%nat)) [].

(* ===================================================================== *)
(** ** A runtime to evaluate examples with                                *)
(* ===================================================================== *)

(** A small rendering of annotations in the style of [str(int | str)] and
    [str(list[int])], used only to run the examples below; the general
    statements hold for every [PyRuntime]. *)
Fixpoint sample_str_type (t : texpr) : string :=
  match t with
  | TAny => "typing.Any"
  | TTypeVar _ => "~T"
  | TUnion arms => String.concat " | " (map sample_str_type arms)
  | TType _ => "type"
  | TGeneric o args =>
      (match o with
       | ODict => "dict" | OTuple => "tuple" | OList => "list" | OSet => "set"
       | OFrozenSet => "frozenset" | OCallable => "typing.Callable"
       | OMapping => "typing.Mapping" | OSequence => "typing.Sequence"
       | OIterable => "typing.Iterable" | OOther c => cls_name c
       end) ++ "[" ++ String.concat ", " (map sample_str_type args) ++ "]"
  | TLiteral _ => "typing.Literal"
  | TClass c => _repr_type c false
  | TClassTuple cs => str_of_class_tuple cs
  | TEllipsis => "Ellipsis"
  | TOpaque _ => "<object>"
  end.

Definition sample_repr (v : PyValue) : string :=
  match v with
  | VNone => "None"
  | VNotSet => "NotSet"
  | VBool true => "True"
  | VBool false => "False"
  | VInt z => if z <? 0 then "-" ++ str_of_nat (Z.to_nat (- z)) else str_of_nat (Z.to_nat z)
  | VStr s => "'" ++ s ++ "'"
  | _ => "<value>"
  end.

Definition sample_hash (v : PyValue) : Z :=
  match v with
  | VBool b => Z.b2z b
  | VInt z => z
  | _ => 0
  end.

Definition sample_runtime : PyRuntime := {|
  py_repr := sample_repr;
  py_str_type := sample_str_type;
  py_hash := sample_hash;
  py_hash_tuple := fun hs => fold_left (fun acc h => 31 * acc + h) hs 7
|}.

(* ===================================================================== *)
(** * Properties                                                          *)
(* ===================================================================== *)

(** ** Induction over annotations and values                              *)

Section TexprInd.
Variable P : texpr -> Prop.
Hypothesis H_any : P TAny.
Hypothesis H_typevar : forall bound, (forall b, bound = Some b -> P b) -> P (TTypeVar bound).
Hypothesis H_union : forall arms, Forall P arms -> P (TUnion arms).
Hypothesis H_type : forall args, P (TType args).
Hypothesis H_generic : forall o args, Forall P args -> P (TGeneric o args).
Hypothesis H_literal : forall args, P (TLiteral args).
Hypothesis H_class : forall c, P (TClass c).
Hypothesis H_class_tuple : forall cs, P (TClassTuple cs).
Hypothesis H_ellipsis : P TEllipsis.
Hypothesis H_opaque : forall id, P (TOpaque id).

Fixpoint texpr_nested_ind (t : texpr) : P t :=
  let all :=
    fix all (ts : list texpr) : Forall P ts :=
      match ts with
      | [] => Forall_nil P
      | t' :: ts' => Forall_cons t' (texpr_nested_ind t') (all ts')
      end in
  match t with
  | TAny => H_any
  | TTypeVar bound =>
      H_typevar
        (match bound as o return forall b, o = Some b -> P b with
         | Some b' => fun b E =>
             match E in _ = s return match s with Some x => P x | None => True end with
             | eq_refl => texpr_nested_ind b'
             end
         | None => fun b E => match E in _ = s return match s with Some x => P x | None => True end with
             | eq_refl => I
             end
         end)
  | TUnion arms => H_union (all arms)
  | TType args => H_type args
  | TGeneric o args => H_generic o (all args)
  | TLiteral args => H_literal args
  | TClass c => H_class c
  | TClassTuple cs => H_class_tuple cs
  | TEllipsis => H_ellipsis
  | TOpaque id => H_opaque id
  end.
End TexprInd.

(** ** Whether a check returns does not depend on where it is reported    *)

Lemma returns_true_iff (o : outcome) : returns o = true <-> o = Returns.
Proof. destruct o; simpl; split; congruence. Qed.

Lemma returns_and_then (a b : outcome) : returns (a ;; b) = returns a && returns b.
Proof. destruct a; reflexivity. Qed.

Lemma returns_ending (o : outcome) :
  returns o = match ending_of o with EndsReturning => true | _ => false end.
Proof. destruct o; reflexivity. Qed.

Lemma ending_stable_verdict (chk : checker) : ending_stable chk -> verdict_stable chk.
Proof.
  intros H v p c ns p' c' ns'. rewrite !returns_ending, (H v p c ns p' c' ns'). reflexivity.
Qed.

Lemma ending_and_then (a b a' b' : outcome) :
  ending_of a = ending_of a' -> ending_of b = ending_of b' ->
  ending_of (a ;; b) = ending_of (a' ;; b').
Proof. destruct a, a'; simpl; intros Ha Hb; congruence. Qed.

(** When no arm lets another exception out the union returns exactly when
    some arm returns. *)
Lemma returns_try_arms (arms : list outcome) (e : GU_PathValidationError) :
  Forall (fun o => forall exc, o <> RaisesOther exc) arms ->
  returns (try_arms arms (Raises e)) = existsb returns arms.
Proof.
  induction 1 as [|[|e'|exc] arms Ho _ IH]; simpl; auto.
  exfalso. exact (Ho exc eq_refl).
Qed.

Lemma ending_try_arms (arms arms' : list outcome) (e e' : GU_PathValidationError) :
  Forall2 (fun o o' => ending_of o = ending_of o') arms arms' ->
  ending_of (try_arms arms (Raises e)) = ending_of (try_arms arms' (Raises e')).
Proof.
  induction 1 as [|o o' arms arms' Ho _ IH]; simpl; [reflexivity|].
  destruct o, o'; simpl in *; try discriminate; auto.
Qed.

Lemma ending_stable_any : ending_stable check_any.
Proof. intros v p c ns p' c' ns'; reflexivity. Qed.

Lemma ending_stable_nth (checks : list checker) (i : nat) :
  Forall ending_stable checks -> ending_stable (arg_or_any checks i).
Proof.
  unfold arg_or_any. intros H. revert i.
  induction H as [|chk checks Hc _ IH]; intros [|i]; simpl;
    auto using ending_stable_any.
Qed.

Lemma verdict_stable_any : verdict_stable check_any.
Proof. intros v p c ns p' c' ns'; reflexivity. Qed.

Lemma verdict_stable_nth (checks : list checker) (i : nat) :
  Forall verdict_stable checks -> verdict_stable (arg_or_any checks i).
Proof.
  unfold arg_or_any. intros H. revert i.
  induction H as [|chk checks Hc _ IH]; intros [|i]; simpl;
    auto using verdict_stable_any.
Qed.

Lemma ending_enforce_items (elem_t : checker) :
  ending_stable elem_t ->
  forall items p c ns i p' c' ns' i',
    ending_of (enforce_items elem_t p c ns i items)
    = ending_of (enforce_items elem_t p' c' ns' i' items).
Proof.
  intros Hs items. induction items as [|item rest IH]; intros; simpl; auto.
  apply ending_and_then; [apply Hs | apply IH].
Qed.

Lemma ending_enforce_zip (args : list checker) :
  Forall ending_stable args ->
  forall items p c ns i p' c' ns' i',
    ending_of (enforce_zip args p c ns i items)
    = ending_of (enforce_zip args p' c' ns' i' items).
Proof.
  intros H. induction H as [|chk args Hc _ IH]; intros [|item rest]; intros; simpl; auto.
  apply ending_and_then; [apply Hc | apply IH].
Qed.

Lemma ending_enforce_dict_items (key_t val_t : checker) :
  ending_stable key_t -> ending_stable val_t ->
  forall items p kp c ns i p' kp' c' ns' i',
    ending_of (enforce_dict_items key_t val_t p kp c ns i items)
    = ending_of (enforce_dict_items key_t val_t p' kp' c' ns' i' items).
Proof.
  intros Hk Hv items. induction items as [|[k v] rest IH]; intros; simpl; auto.
  apply ending_and_then; [apply Hk | apply ending_and_then; [apply Hv | apply IH]].
Qed.

Lemma returns_enforce_items (elem_t : checker) :
  verdict_stable elem_t ->
  forall items p c ns i p' c' ns' i',
    returns (enforce_items elem_t p c ns i items)
    = returns (enforce_items elem_t p' c' ns' i' items).
Proof.
  intros Hs items. induction items as [|item rest IH]; intros; simpl; auto.
  rewrite !returns_and_then. f_equal; [apply Hs | apply IH].
Qed.

Lemma returns_enforce_zip (args : list checker) :
  Forall verdict_stable args ->
  forall items p c ns i p' c' ns' i',
    returns (enforce_zip args p c ns i items)
    = returns (enforce_zip args p' c' ns' i' items).
Proof.
  intros H. induction H as [|chk args Hc _ IH]; intros [|item rest]; intros; simpl; auto.
  rewrite !returns_and_then. f_equal; [apply Hc | apply IH].
Qed.

Lemma returns_enforce_dict_items (key_t val_t : checker) :
  verdict_stable key_t -> verdict_stable val_t ->
  forall items p kp c ns i p' kp' c' ns' i',
    returns (enforce_dict_items key_t val_t p kp c ns i items)
    = returns (enforce_dict_items key_t val_t p' kp' c' ns' i' items).
Proof.
  intros Hk Hv items. induction items as [|[k v] rest IH]; intros; simpl; auto.
  rewrite !returns_and_then. f_equal; [apply Hk | f_equal; [apply Hv | apply IH]].
Qed.

Section EnforceTypeFacts.
Context {rt : PyRuntime}.

Lemma Forall_map_checkers (P : checker -> Prop) (args : list texpr) :
  Forall (fun t => P (enforce_type t)) args -> Forall P (map enforce_type args).
Proof. induction 1; simpl; constructor; auto. Qed.

(** How [enforce_type] ends is decided by the value and the annotation. *)
Lemma enforce_type_ending_stable (expected : texpr) :
  ending_stable (enforce_type expected).
Proof.
  induction expected using texpr_nested_ind; intros v p cd ns p' cd' ns'.
  - reflexivity.
  - destruct bound as [b|]; simpl; [apply (H b eq_refl) | reflexivity].
  - simpl. apply ending_try_arms.
    induction H as [|arm arms Ha _ IH]; simpl; constructor; auto.
  - simpl. destruct v; simpl; try reflexivity.
    destruct (is_object _); [reflexivity|].
    destruct (subclass_check _ _ _) as [[|]|]; reflexivity.
  - pose proof (Forall_map_checkers ending_stable H) as Hm.
    pose proof (ending_stable_nth 0 Hm) as H0.
    pose proof (ending_stable_nth 1 Hm) as H1.
    destruct o; simpl.
    + destruct v; simpl; try reflexivity.
      apply ending_enforce_dict_items; assumption.
    + destruct v; simpl; try reflexivity.
      destruct (is_repeated_tuple args); [apply (ending_enforce_items H0)|].
      destruct (negb (Nat.eqb (List.length args) 0)); [|reflexivity].
      destruct (negb _); simpl; [reflexivity|].
      apply ending_enforce_zip; assumption.
    + destruct v; simpl; try reflexivity; apply ending_enforce_items; assumption.
    + destruct v; simpl; try reflexivity; apply ending_enforce_items; assumption.
    + destruct v; simpl; try reflexivity; apply ending_enforce_items; assumption.
    + destruct (negb (callable v)); reflexivity.
    + destruct v; simpl; try reflexivity.
      apply ending_enforce_dict_items; assumption.
    + destruct v; simpl; try reflexivity; apply ending_enforce_items; assumption.
    + destruct v; simpl; try reflexivity; apply ending_enforce_items; assumption.
    + destruct (cls_protocol c); [reflexivity|]. destruct (isinstance v c); reflexivity.
  - simpl. destruct (negb _); reflexivity.
  - simpl. destruct (pyclass_eqb c ABCCallable).
    + destruct (negb (callable v)); reflexivity.
    + destruct (cls_protocol c); [reflexivity|]. destruct (isinstance v c); reflexivity.
  - simpl. destruct (instance_check v cs) as [[|]|]; reflexivity.
  - reflexivity.
  - reflexivity.
Qed.

Lemma enforce_type_verdict_stable (expected : texpr) :
  verdict_stable (enforce_type expected).
Proof. apply ending_stable_verdict, enforce_type_ending_stable. Qed.
End EnforceTypeFacts.

(** ** Every error is reported at or below the path of the call          *)

Lemma extends_path_refl (p : AbstractTreePath) : extends_path p p.
Proof. exists []. rewrite app_nil_r. destruct p; reflexivity. Qed.

Lemma extends_path_index (p q : AbstractTreePath) (k : PyValue) :
  extends_path (add_index_or_key p k) q -> extends_path p q.
Proof.
  intros [suffix ->]. exists (ATPathIndexOrKey k :: suffix).
  simpl. rewrite <- app_assoc. reflexivity.
Qed.

Lemma extends_path_attribute (p q : AbstractTreePath) (name : string) :
  extends_path (add_attribute p name) q -> extends_path p q.
Proof.
  intros [suffix ->]. exists (ATPathAttribute name :: suffix).
  simpl. rewrite <- app_assoc. reflexivity.
Qed.

Lemma reported_below_here (p : AbstractTreePath) (c : option string) (msg : string) :
  reported_below p c (mk_error GU_TypeValidationError p msg c).
Proof. repeat split. apply extends_path_refl. Qed.

Lemma reported_below_index (p : AbstractTreePath) (k : PyValue) c e :
  reported_below (add_index_or_key p k) c e -> reported_below p c e.
Proof. intros (Hk & Hc & He). repeat split; eauto using extends_path_index. Qed.

Lemma reported_below_attribute (p : AbstractTreePath) (name : string) c e :
  reported_below (add_attribute p name) c e -> reported_below p c e.
Proof. intros (Hk & Hc & He). repeat split; eauto using extends_path_attribute. Qed.

Lemma and_then_raises (a b : outcome) (e : GU_PathValidationError) :
  a ;; b = Raises e -> a = Raises e \/ (a = Returns /\ b = Raises e).
Proof. destruct a; simpl; intros H; [right|left|discriminate]; auto. Qed.

Lemma try_arms_raises (arms : list outcome) (all_failed : outcome) e :
  try_arms arms all_failed = Raises e -> all_failed = Raises e.
Proof.
  induction arms as [|[|e'|exc] arms IH]; simpl; intros H; auto; discriminate.
Qed.

Lemma well_reported_any : well_reported check_any.
Proof. intros v p c ns e H. discriminate. Qed.

Lemma well_reported_nth (checks : list checker) (i : nat) :
  Forall well_reported checks -> well_reported (arg_or_any checks i).
Proof.
  unfold arg_or_any. intros H. revert i.
  induction H as [|chk checks Hc _ IH]; intros [|i]; simpl;
    auto using well_reported_any.
Qed.

Lemma enforce_items_reported (elem_t : checker) :
  well_reported elem_t ->
  forall items p c ns i e,
    enforce_items elem_t p c ns i items = Raises e -> reported_below p c e.
Proof.
  intros Hw items. induction items as [|item rest IH]; simpl; intros p c ns i e H.
  - discriminate.
  - apply and_then_raises in H as [H | [_ H]].
    + eapply reported_below_index, Hw, H.
    + eapply IH, H.
Qed.

Lemma enforce_zip_reported (args : list checker) :
  Forall well_reported args ->
  forall items p c ns i e,
    enforce_zip args p c ns i items = Raises e -> reported_below p c e.
Proof.
  intros H. induction H as [|chk args Hc _ IH]; intros [|item rest] p c ns i e; simpl;
    try discriminate.
  intros H. apply and_then_raises in H as [H | [_ H]].
  - eapply reported_below_index, Hc, H.
  - eapply IH, H.
Qed.

Lemma extends_path_trans (p q r : AbstractTreePath) :
  extends_path p q -> extends_path q r -> extends_path p r.
Proof.
  intros [s1 ->] [s2 ->]. exists (s1 ++ s2). simpl. rewrite app_assoc. reflexivity.
Qed.

Lemma reported_below_extends (p q : AbstractTreePath) c e :
  extends_path p q -> reported_below q c e -> reported_below p c e.
Proof. intros Hpq (Hk & Hc & He). repeat split; eauto using extends_path_trans. Qed.

Lemma enforce_dict_items_reported (key_t val_t : checker) :
  well_reported key_t -> well_reported val_t ->
  forall items p keys_path c ns i e,
    extends_path p keys_path ->
    enforce_dict_items key_t val_t p keys_path c ns i items = Raises e ->
    reported_below p c e.
Proof.
  intros Hk Hv items.
  induction items as [|[k v] rest IH]; simpl; intros p keys_path c ns i e Hp H.
  - discriminate.
  - apply and_then_raises in H as [H | [_ H]].
    + eapply reported_below_extends, reported_below_index, Hk, H. exact Hp.
    + apply and_then_raises in H as [H | [_ H]].
      * eapply reported_below_index, Hv, H.
      * eapply IH; eassumption.
Qed.

(** The items of a loop up to the first one that raises. *)
Lemma enforce_items_app (elem_t : checker) p c ns (before after : list PyValue) (i : nat) :
  enforce_items elem_t p c ns i (before ++ after)
  = enforce_items elem_t p c ns i before ;;
    enforce_items elem_t p c ns (i + List.length before)%nat after.
Proof.
  revert i. induction before as [|x before IH]; intros i; simpl.
  - rewrite Nat.add_0_r. reflexivity.
  - rewrite IH. rewrite <- Nat.add_succ_comm.
    destruct (elem_t x _ c ns); reflexivity.
Qed.

Lemma enforce_items_returns (elem_t : checker) p c ns (items : list PyValue) (i : nat) :
  enforce_items elem_t p c ns i items = Returns <->
  forall k x, nth_error items k = Some x ->
    elem_t x (add_index_or_key p (VInt (Z.of_nat (i + k)))) c ns = Returns.
Proof.
  revert i. induction items as [|item rest IH]; intros i; simpl.
  - split; [intros _ [|k] x H; discriminate | reflexivity].
  - split.
    + intros H [|k] x Hx; simpl in Hx.
      * injection Hx as <-. rewrite Nat.add_0_r.
        destruct (elem_t item _ c ns); [reflexivity | discriminate ..].
      * destruct (elem_t item _ c ns); [|discriminate ..]. simpl in H.
        rewrite <- Nat.add_succ_comm. apply (proj1 (IH (S i)) H k x Hx).
    + intros H. rewrite <- (Nat.add_0_r i) at 1. rewrite (H 0%nat item eq_refl). simpl.
      apply IH. intros k x Hx. rewrite Nat.add_succ_comm. apply (H (S k) x Hx).
Qed.

Section EnforceTypeErrors.
Context {rt : PyRuntime}.

Ltac raised_here :=
  match goal with
  | H : Raises _ = Raises _ |- _ =>
      injection H as H; rewrite <- H; apply reported_below_here
  | H : Returns = Raises _ |- _ => discriminate H
  | H : RaisesOther _ = Raises _ |- _ => discriminate H
  end.

Lemma enforce_type_well_reported (expected : texpr) :
  well_reported (enforce_type expected).
Proof.
  induction expected using texpr_nested_ind; intros v p cd ns e He.
  - discriminate.
  - destruct bound as [b|]; simpl in He; [apply (H b eq_refl _ _ _ _ _ He) | discriminate].
  - simpl in He. apply try_arms_raises in He. raised_here.
  - simpl in He. destruct v; simpl in He; try raised_here.
    destruct (is_object _); [discriminate|].
    destruct (subclass_check _ _ _) as [[|]|]; raised_here.
  - pose proof (Forall_map_checkers well_reported H) as Hm.
    pose proof (well_reported_nth 0 Hm) as H0.
    pose proof (well_reported_nth 1 Hm) as H1.
    destruct o; simpl in He.
    + destruct v; simpl in He; try raised_here.
      eapply (enforce_dict_items_reported H0 H1); [|exact He].
      exists [ATPathAttribute "keys()"]; reflexivity.
    + destruct v; simpl in He; try raised_here.
      destruct (is_repeated_tuple args); [apply (enforce_items_reported H0 _ _ _ _ _ He)|].
      destruct (negb (Nat.eqb (List.length args) 0)); [|discriminate].
      destruct (negb _); simpl in He; [raised_here|].
      apply (enforce_zip_reported Hm _ _ _ _ _ He).
    + destruct v; simpl in He; try raised_here; apply (enforce_items_reported H0 _ _ _ _ _ He).
    + destruct v; simpl in He; try raised_here; apply (enforce_items_reported H0 _ _ _ _ _ He).
    + destruct v; simpl in He; try raised_here; apply (enforce_items_reported H0 _ _ _ _ _ He).
    + destruct (negb (callable v)); raised_here.
    + destruct v; simpl in He; try raised_here.
      eapply (enforce_dict_items_reported H0 H1); [|exact He].
      exists [ATPathAttribute "keys()"]; reflexivity.
    + destruct v; simpl in He; try raised_here; apply (enforce_items_reported H0 _ _ _ _ _ He).
    + destruct v; simpl in He; try raised_here; apply (enforce_items_reported H0 _ _ _ _ _ He).
    + destruct (cls_protocol c); [discriminate|]. destruct (isinstance v c); raised_here.
  - simpl in He. destruct (negb _); raised_here.
  - simpl in He. destruct (pyclass_eqb c ABCCallable).
    + destruct (negb (callable v)); raised_here.
    + destruct (cls_protocol c); [discriminate|]. destruct (isinstance v c); raised_here.
  - simpl in He. destruct (instance_check v cs) as [[|]|]; raised_here.
  - simpl in He. raised_here.
  - simpl in He. raised_here.
Qed.

(** ** The other exception: the TypeError of a Protocol class             *)

(** Whatever exception other than a validation error [chk] lets out is a
    [TypeError], and then [P] holds. *)
Definition type_errors_only (P : Prop) (chk : checker) : Prop :=
  forall v p c ns exc, chk v p c ns = RaisesOther exc -> exc = TypeError_cls /\ P.

Lemma and_then_other (a b : outcome) (exc : pyclass) :
  a ;; b = RaisesOther exc -> a = RaisesOther exc \/ (a = Returns /\ b = RaisesOther exc).
Proof. destruct a; simpl; intros H; [right|discriminate|left]; auto. Qed.

Lemma type_errors_only_any (P : Prop) : type_errors_only P check_any.
Proof. intros v p c ns exc H. discriminate. Qed.

Lemma type_errors_only_nth (P : Prop) (checks : list checker) (i : nat) :
  Forall (type_errors_only P) checks -> type_errors_only P (arg_or_any checks i).
Proof.
  unfold arg_or_any. intros H. revert i.
  induction H as [|chk checks Hc _ IH]; intros [|i]; simpl;
    auto using type_errors_only_any.
Qed.

Lemma enforce_items_other (P : Prop) (elem_t : checker) :
  type_errors_only P elem_t ->
  forall items p c ns i exc,
    enforce_items elem_t p c ns i items = RaisesOther exc -> exc = TypeError_cls /\ P.
Proof.
  intros Hw items. induction items as [|item rest IH]; simpl; intros p c ns i exc H.
  - discriminate.
  - apply and_then_other in H as [H | [_ H]]; [eapply Hw, H | eapply IH, H].
Qed.

Lemma enforce_zip_other (P : Prop) (args : list checker) :
  Forall (type_errors_only P) args ->
  forall items p c ns i exc,
    enforce_zip args p c ns i items = RaisesOther exc -> exc = TypeError_cls /\ P.
Proof.
  intros H. induction H as [|chk args Hc _ IH]; intros [|item rest] p c ns i exc; simpl;
    try discriminate.
  intros H. apply and_then_other in H as [H | [_ H]]; [eapply Hc, H | eapply IH, H].
Qed.

Lemma enforce_dict_items_other (P : Prop) (key_t val_t : checker) :
  type_errors_only P key_t -> type_errors_only P val_t ->
  forall items p keys_path c ns i exc,
    enforce_dict_items key_t val_t p keys_path c ns i items = RaisesOther exc ->
    exc = TypeError_cls /\ P.
Proof.
  intros Hk Hv items.
  induction items as [|[k v] rest IH]; simpl; intros p keys_path c ns i exc H.
  - discriminate.
  - apply and_then_other in H as [H | [_ H]]; [eapply Hk, H|].
    apply and_then_other in H as [H | [_ H]]; [eapply Hv, H | eapply IH, H].
Qed.

Lemma try_arms_other (arms : list outcome) (e : GU_PathValidationError) (exc : pyclass) :
  try_arms arms (Raises e) = RaisesOther exc -> In (RaisesOther exc) arms.
Proof.
  induction arms as [|[|e'|exc'] arms IH]; simpl; intros H; try discriminate; auto.
Qed.

Lemma forallb_false_in {A : Type} (f : A -> bool) (xs : list A) (x : A) :
  In x xs -> f x = false -> forallb f xs = false.
Proof.
  intros Hin Hx. destruct (forallb f xs) eqn:Hall; [|reflexivity].
  rewrite forallb_forall in Hall. rewrite (Hall _ Hin) in Hx. discriminate.
Qed.

Lemma instance_check_one_none (v : PyValue) (c : pyclass) :
  instance_check v [c] = None -> cls_protocol c = true.
Proof.
  cbn [instance_check]. destruct (cls_protocol c); [reflexivity|].
  destruct (isinstance v c); intros H; discriminate H.
Qed.

Lemma subclass_check_none (c : pyclass) (bases targets : list pyclass) :
  subclass_check c bases targets = None -> existsb cls_protocol targets = true.
Proof.
  induction targets as [|t rest IH]; cbn [subclass_check existsb]; [discriminate|].
  destruct (cls_protocol t); [reflexivity|]. cbn [orb].
  destruct (issubclass c bases [t]); [intros H; discriminate H | exact IH].
Qed.

Lemma enforce_type_other (expected : texpr) :
  type_errors_only (protocol_free expected = false) (enforce_type expected).
Proof.
  induction expected using texpr_nested_ind; intros v p cd ns exc He.
  - discriminate.
  - destruct bound as [b|]; simpl in He; [apply (H b eq_refl _ _ _ _ _ He) | discriminate].
  - simpl in He. apply try_arms_other in He.
    apply in_map_iff in He as (arm & Harm & Hin).
    rewrite Forall_forall in H. destruct (H _ Hin _ _ _ _ _ Harm) as [-> Hfree].
    split; [reflexivity|]. simpl. exact (forallb_false_in _ _ _ Hin Hfree).
  - simpl in He. destruct v; simpl in He; try discriminate.
    destruct (is_object _); [discriminate|].
    destruct (subclass_check _ _ _) as [[|]|] eqn:Hs; try discriminate.
    injection He as <-. split; [reflexivity|].
    simpl. rewrite (subclass_check_none _ _ _ Hs). reflexivity.
  - assert (Hm : Forall (type_errors_only (forallb protocol_free args = false))
                   (map enforce_type args)).
    { apply Forall_map_checkers. apply Forall_forall. intros t Hin.
      rewrite Forall_forall in H. intros v' p' c' ns' exc' He'.
      destruct (H _ Hin _ _ _ _ _ He') as [-> Hfree].
      split; [reflexivity | exact (forallb_false_in _ _ _ Hin Hfree)]. }
    pose proof (type_errors_only_nth 0 Hm) as H0.
    pose proof (type_errors_only_nth 1 Hm) as H1.
    destruct o; simpl in He |- *.
    + destruct v; simpl in He; try discriminate.
      exact (enforce_dict_items_other H0 H1 _ _ _ _ _ _ He).
    + destruct v; simpl in He; try discriminate.
      destruct (is_repeated_tuple args); [exact (enforce_items_other H0 _ _ _ _ _ He)|].
      destruct (negb (Nat.eqb (List.length args) 0)); [|discriminate].
      destruct (negb _); simpl in He; [discriminate|].
      exact (enforce_zip_other Hm _ _ _ _ _ He).
    + destruct v; simpl in He; try discriminate; exact (enforce_items_other H0 _ _ _ _ _ He).
    + destruct v; simpl in He; try discriminate; exact (enforce_items_other H0 _ _ _ _ _ He).
    + destruct v; simpl in He; try discriminate; exact (enforce_items_other H0 _ _ _ _ _ He).
    + destruct (negb (callable v)); discriminate.
    + destruct v; simpl in He; try discriminate.
      exact (enforce_dict_items_other H0 H1 _ _ _ _ _ _ He).
    + destruct v; simpl in He; try discriminate; exact (enforce_items_other H0 _ _ _ _ _ He).
    + destruct v; simpl in He; try discriminate; exact (enforce_items_other H0 _ _ _ _ _ He).
    + destruct (cls_protocol c); [|destruct (isinstance v c); discriminate].
      injection He as <-. split; reflexivity.
  - simpl in He. destruct (negb _); discriminate.
  - simpl in He. destruct (pyclass_eqb c ABCCallable).
    + destruct (negb (callable v)); discriminate.
    + simpl. destruct (cls_protocol c); [|destruct (isinstance v c); discriminate].
      injection He as <-. split; reflexivity.
  - simpl in He. destruct (instance_check v cs) as [[|]|]; discriminate.
  - simpl in He. discriminate.
  - simpl in He. discriminate.
Qed.
End EnforceTypeErrors.

(* ===================================================================== *)
(** * The claims of the specification                                     *)
(* ===================================================================== *)

Lemma returns_false_iff (o : outcome) :
  returns o = false <-> (exists e, o = Raises e) \/ (exists exc, o = RaisesOther exc).
Proof.
  destruct o; simpl; split; try congruence; eauto.
  intros [[e H] | [exc H]]; discriminate.
Qed.




(** C2.  For every value [L] and element type [T],
    [enforce_type(L, list[T])] returns normally if and only if [L] is a
    list and [enforce_type(e, T)] returns normally for every element [e] of
    [L]; a value that is not a list raises [GU_TypeValidationError] at
    [path]; and when an element raises while those before it pass, the
    call raises that element's error, whose path starts with [path]
    extended by the index of the element. *)
Theorem enforce_type_list (rt : PyRuntime) (L : PyValue) (T : texpr)
    (path : AbstractTreePath) (condition : option string) (notset_as_special : bool) :
  (enforce_type (TGeneric OList [T]) L path condition notset_as_special = Returns <->
     exists items, L = VList items /\
       Forall (fun e => enforce_type T e empty_path None true = Returns) items)
  /\ ((forall items, L <> VList items) ->
      enforce_type (TGeneric OList [T]) L path condition notset_as_special
      = Raises (mk_error GU_TypeValidationError path
                  ("must be a list not " ++ _repr_type (type_of L) notset_as_special)
                  condition))
  /\ (forall before x after e,
        L = VList (before ++ x :: after) ->
        Forall (fun b => enforce_type T b empty_path None true = Returns) before ->
        enforce_type T x
          (add_index_or_key path (VInt (Z.of_nat (List.length before))))
          condition notset_as_special = Raises e ->
        enforce_type (TGeneric OList [T]) L path condition notset_as_special = Raises e
        /\ err_kind e = GU_TypeValidationError
        /\ extends_path
             (add_index_or_key path (VInt (Z.of_nat (List.length before))))
             (err_path e)).
Proof.
  assert (Hstable : forall e p c ns,
            enforce_type T e p c ns = Returns <->
            enforce_type T e empty_path None true = Returns).
  { intros e p c ns. rewrite <- !returns_true_iff.
    rewrite (enforce_type_verdict_stable T e p c ns empty_path None true). reflexivity. }
  split; [|split].
  - destruct L; cbn [enforce_type container_items]; cbv zeta;
      try (split; [discriminate | intros (l & Hl & _); discriminate]).
    cbn [map arg_or_any nth]. rewrite enforce_items_returns. split.
    + intros H. exists items. split; [reflexivity|].
      apply Forall_forall. intros e He.
      apply In_nth_error in He as [k Hk].
      eapply (proj1 (Hstable _ _ _ _)), H, Hk.
    + intros (l & Hl & Hall) k x Hx. injection Hl as <-.
      apply (proj2 (Hstable _ _ _ _)). rewrite Forall_forall in Hall.
      eapply Hall, nth_error_In, Hx.
  - intros Hnot. destruct L; cbn [enforce_type container_items]; cbv zeta; try reflexivity.
    exfalso. eapply Hnot. reflexivity.
  - intros before x after e -> Hbefore Hx.
    pose proof (enforce_type_well_reported T _ _ _ _ Hx) as (Hk & _ & Hp).
    split; [|split; assumption].
    cbn [enforce_type container_items map arg_or_any nth]. cbv zeta.
    rewrite enforce_items_app.
    assert (Hpre : enforce_items (enforce_type T) path condition notset_as_special 0 before
                   = Returns).
    { apply enforce_items_returns. intros k y Hy. apply (proj2 (Hstable _ _ _ _)).
      rewrite Forall_forall in Hbefore. eapply Hbefore, nth_error_In, Hy. }
    rewrite Hpre. simpl. rewrite Hx. reflexivity.
Qed.

Lemma enforce_type_list_witness :
  enforce_type (rt := sample_runtime) (TGeneric OList [TClass int_cls])
    (VList [VInt 1; VStr "2"; VInt 3]) empty_path None true
  = Raises (mk_error GU_TypeValidationError
              (add_index_or_key empty_path (VInt 1))
              "must be of type int not str" None)
  /\ enforce_type (rt := sample_runtime) (TGeneric OList [TClass int_cls])
       (VTuple [VInt 1]) empty_path None true
     = Raises (mk_error GU_TypeValidationError empty_path
                 "must be a list not tuple" None).
Proof.
  split.
  - apply (proj2 (proj2 (enforce_type_list sample_runtime
                           (VList [VInt 1; VStr "2"; VInt 3]) (TClass int_cls)
                           empty_path None true))
             [VInt 1] (VStr "2") [VInt 3]).
    + reflexivity.
    + repeat constructor.
    + reflexivity.
  - apply (proj1 (proj2 (enforce_type_list sample_runtime (VTuple [VInt 1])
                           (TClass int_cls) empty_path None true))).
    intros items H. discriminate H.
Defined.

Section PyValueInd.
Variable P : PyValue -> Prop.
Hypothesis H_none : P VNone.
Hypothesis H_notset : P VNotSet.
Hypothesis H_bool : forall b, P (VBool b).
Hypothesis H_int : forall z, P (VInt z).
Hypothesis H_str : forall s, P (VStr s).
Hypothesis H_bytes : forall b, P (VBytes b).
Hypothesis H_list : forall items, Forall P items -> P (VList items).
Hypothesis H_tuple : forall items, Forall P items -> P (VTuple items).
Hypothesis H_set : forall items, Forall P items -> P (VSet items).
Hypothesis H_frozenset : forall items, Forall P items -> P (VFrozenSet items).
Hypothesis H_dict :
  forall items, Forall (fun kv => P (fst kv) /\ P (snd kv)) items -> P (VDict items).
Hypothesis H_cls : forall c bases, P (VClass c bases).
Hypothesis H_obj :
  forall info attrs, Forall (fun nv => P (snd nv)) attrs -> P (VObj info attrs).

Fixpoint PyValue_nested_ind (v : PyValue) : P v :=
  let all :=
    fix all (vs : list PyValue) : Forall P vs :=
      match vs with
      | [] => Forall_nil P
      | x :: vs' => Forall_cons x (PyValue_nested_ind x) (all vs')
      end in
  let all_items :=
    fix all_items (kvs : list (PyValue * PyValue))
        : Forall (fun kv => P (fst kv) /\ P (snd kv)) kvs :=
      match kvs with
      | [] => Forall_nil _
      | kv :: kvs' =>
          Forall_cons kv
            (conj (PyValue_nested_ind (fst kv)) (PyValue_nested_ind (snd kv)))
            (all_items kvs')
      end in
  let all_attrs :=
    fix all_attrs (nvs : list (string * PyValue)) : Forall (fun nv => P (snd nv)) nvs :=
      match nvs with
      | [] => Forall_nil _
      | nv :: nvs' => Forall_cons nv (PyValue_nested_ind (snd nv)) (all_attrs nvs')
      end in
  match v with
  | VNone => H_none
  | VNotSet => H_notset
  | VBool b => H_bool b
  | VInt z => H_int z
  | VStr s => H_str s
  | VBytes b => H_bytes b
  | VList items => H_list (all items)
  | VTuple items => H_tuple (all items)
  | VSet items => H_set (all items)
  | VFrozenSet items => H_frozenset (all items)
  | VDict items => H_dict (all_items items)
  | VClass c bases => H_cls c bases
  | VObj info attrs => H_obj info (all_attrs attrs)
  end.
End PyValueInd.

(** ** Equality of values and of paths                                    *)

Lemma pyclass_eqb_refl (c : pyclass) : pyclass_eqb c c = true.
Proof. unfold pyclass_eqb. rewrite !String.eqb_refl. reflexivity. Qed.

Lemma existsb_refl_member {A : Type} (f : A -> A -> bool) (xs : list A) :
  Forall (fun x => f x x = true) xs ->
  forallb (fun x => existsb (fun y => f x y) xs) xs = true.
Proof.
  intros H. apply forallb_forall. intros x Hx. apply existsb_exists.
  exists x. split; [assumption|]. rewrite Forall_forall in H. auto.
Qed.

Lemma py_eq_refl (v : PyValue) : py_eq v v = true.
Proof.
  assert (Hseq : forall items, Forall (fun x => py_eq x x = true) items ->
            (fix seq_eq (xs ys : list PyValue) {struct xs} : bool :=
               match xs, ys with
               | [], [] => true
               | x :: xs', y :: ys' => py_eq x y && seq_eq xs' ys'
               | _, _ => false
               end) items items = true).
  { induction 1 as [|x xs Hx _ IH]; [reflexivity|]. rewrite Hx, IH. reflexivity. }
  induction v using PyValue_nested_ind; simpl; auto.
  - apply Bool.eqb_reflx.
  - apply Z.eqb_refl.
  - apply String.eqb_refl.
  - destruct (list_eq_dec Byte.byte_eq_dec b b); congruence.
  - rewrite (existsb_refl_member py_eq H). simpl.
    apply forallb_forall. intros y Hy. apply existsb_exists.
    exists y. split; [assumption|]. rewrite Forall_forall in H. auto.
  - rewrite (existsb_refl_member py_eq H). simpl.
    apply forallb_forall. intros y Hy. apply existsb_exists.
    exists y. split; [assumption|]. rewrite Forall_forall in H. auto.
  - rewrite Nat.eqb_refl. simpl.
    apply forallb_forall. intros kv Hkv. apply existsb_exists.
    exists kv. split; [assumption|]. rewrite Forall_forall in H.
    destruct (H kv Hkv) as [-> ->]. reflexivity.
  - apply pyclass_eqb_refl.
  - rewrite pyclass_eqb_refl. simpl.
    induction H as [|[n x] xs Hx _ IH]; [reflexivity|].
    simpl in Hx. rewrite String.eqb_refl, Hx, IH. reflexivity.
Qed.

Lemma segment_eq_refl (s : segment) : segment_eq s s = true.
Proof. destruct s; simpl; [apply String.eqb_refl | apply py_eq_refl]. Qed.

Lemma segments_eq_refl (xs : list segment) : segments_eq xs xs = true.
Proof.
  induction xs as [|x xs IH]; simpl; [reflexivity|].
  rewrite segment_eq_refl, IH. reflexivity.
Qed.

Lemma tuple_slice_to (A : Type) (t : list A) (stop : Z) :
  tuple_slice t None (Some stop)
  = firstn (Z.to_nat (adjust_index (Z.of_nat (List.length t)) stop)) t.
Proof. unfold tuple_slice. simpl. rewrite Z.sub_0_r. reflexivity. Qed.

(** C3.  [go_up(n)] is [self[:-n]].  For every [n >= 1] the result keeps
    the rendering flag and has the segments of [p] without the last
    [min(n, len(p))] of them, so an [n] above the length yields the empty
    path.  For [n = 0] the slice is [self[:0]]: the result is the empty
    path, not a path equal to [p] as "removes the last n elements" says. *)
Theorem go_up_slices (p : AbstractTreePath) (n : nat) :
  path (go_up p (Z.of_nat (S n)))
    = firstn (List.length (path p) - Nat.min (S n) (List.length (path p))) (path p)
  /\ start_with_dot (go_up p (Z.of_nat (S n))) = start_with_dot p
  /\ go_up p 0 = mk_path [] (start_with_dot p)
  /\ AbstractTreePath_eq
       (go_up (mk_path [ATPathAttribute "user"; ATPathIndexOrKey (VInt 0)] true) 0)
       (mk_path [ATPathAttribute "user"; ATPathIndexOrKey (VInt 0)] true) = false.
Proof.
  split; [|split; [reflexivity | split; [|reflexivity]]].
  - unfold go_up, getitem_slice. cbn [path]. rewrite tuple_slice_to.
    f_equal. unfold adjust_index.
    destruct (Z.ltb_spec (- Z.of_nat (S n)) 0); lia.
  - unfold go_up, getitem_slice. rewrite tuple_slice_to. unfold adjust_index.
    change (- 0) with 0. change (0 <? 0) with false. cbv iota.
    rewrite Z.min_l by lia. reflexivity.
Qed.

(** C4 (as stated, refuted).  Two paths with the same (here: no) segments
    and different [start_with_dot] flags are not equal. *)
Lemma path_eq_distinguishes_flag :
  AbstractTreePath_eq (mk_path [] true) (mk_path [] false) = false.
Proof. reflexivity. Qed.

(** C4 (amended).  The generated [__eq__] and [__hash__] range over both
    fields: two paths built from the same segments are equal exactly when
    their [start_with_dot] flags are equal; with equal flags their hashes
    are equal; and the flag is hashed: whenever the interpreter's tuple
    hash tells the two tuples of fields apart, which differ in the flag
    only, two paths with equal hashes have equal flags. *)
Theorem path_eq_same_segments (rt : PyRuntime) (s : list segment) (a b : bool) :
  (AbstractTreePath_eq (mk_path s a) (mk_path s b) = true <-> a = b)
  /\ (a = b -> AbstractTreePath_hash (mk_path s a) = AbstractTreePath_hash (mk_path s b))
  /\ (py_hash_tuple [py_hash_tuple (map segment_hash s); py_hash (VBool true)]
      <> py_hash_tuple [py_hash_tuple (map segment_hash s); py_hash (VBool false)] ->
      AbstractTreePath_hash (mk_path s a) = AbstractTreePath_hash (mk_path s b) ->
      a = b).
Proof.
  split; [|split].
  - unfold AbstractTreePath_eq. cbn [path start_with_dot].
    rewrite segments_eq_refl. simpl. split.
    + apply Bool.eqb_prop.
    + intros ->. apply Bool.eqb_reflx.
  - intros ->. reflexivity.
  - unfold AbstractTreePath_hash. cbn [path start_with_dot].
    intros Hsep Heq. destruct a, b; try reflexivity; exfalso; apply Hsep; congruence.
Qed.

Lemma path_eq_same_segments_witness :
  AbstractTreePath_hash (rt := sample_runtime)
    (mk_path [ATPathAttribute "user"; ATPathIndexOrKey (VInt 0)] true)
  <> AbstractTreePath_hash (rt := sample_runtime)
       (mk_path [ATPathAttribute "user"; ATPathIndexOrKey (VInt 0)] false).
Proof.
  intros Heq.
  assert (H : true = false).
  { apply (proj2 (proj2 (path_eq_same_segments sample_runtime
                           [ATPathAttribute "user"; ATPathIndexOrKey (VInt 0)] true false))).
    - vm_compute. discriminate.
    - exact Heq. }
  discriminate H.
Defined.

(** ** The dict, tuple, Iterable and Sequence branches                    *)

Lemma enforce_dict_items_enumerate (key_t val_t : checker) path keys_path c ns
    (items : list (PyValue * PyValue)) (i : nat) :
  enforce_dict_items key_t val_t path keys_path c ns i items
  = for_each
      (fun entry : nat * (PyValue * PyValue) =>
         let '(j, (k, v)) := entry in
         key_t k (add_index_or_key keys_path (VInt (Z.of_nat j))) c ns ;;
         val_t v (add_index_or_key path k) c ns)
      (combine (seq i (List.length items)) items).
Proof.
  revert i. induction items as [|[k v] rest IH]; intros i; simpl; [reflexivity|].
  rewrite IH.
  destruct (key_t k _ c ns); [|reflexivity ..].
  destruct (val_t v _ c ns); reflexivity.
Qed.

(** C5.  [{"a": 1, "b": 2}] passes [dict[str, int]]; [{1: 1}] raises a
    [GU_TypeValidationError] whose path is the incoming path followed by the
    attribute segment ["keys()"] and the index segment [0]; and in general
    the call on a dict is the sequence of checks of [dict_checks_spec]. *)
Theorem enforce_type_dict (rt : PyRuntime) (path : AbstractTreePath)
    (condition : option string) (notset_as_special : bool) :
  enforce_type (TGeneric ODict [TClass str_cls; TClass int_cls])
    (VDict [(VStr "a", VInt 1); (VStr "b", VInt 2)]) path condition notset_as_special
  = Returns
  /\ enforce_type (TGeneric ODict [TClass str_cls; TClass int_cls])
       (VDict [(VInt 1, VInt 1)]) path condition notset_as_special
     = Raises (mk_error GU_TypeValidationError
                 (add_index_or_key (add_attribute path "keys()") (VInt 0))
                 "must be of type str not int" condition)
  /\ forall K V items,
       enforce_type (TGeneric ODict [K; V]) (VDict items) path condition notset_as_special
       = dict_checks_spec K V path condition notset_as_special items.
Proof.
  split; [reflexivity | split; [destruct notset_as_special; reflexivity|]].
  intros K V items. unfold dict_checks_spec.
  cbn [enforce_type map arg_or_any nth]. cbv zeta.
  apply enforce_dict_items_enumerate.
Qed.

(** C6 (the input on which the code departs from the claim).  The tuple
    type with no element types, [tuple[()]], is of fixed arity 0 and has no
    ellipsis, yet a tuple of length 1 passes it. *)
Lemma enforce_type_empty_tuple_type_accepts :
  enforce_type (rt := sample_runtime) (TGeneric OTuple []) (VTuple [VInt 1])
    empty_path None true = Returns.
Proof. reflexivity. Qed.

(** C6.  What the code does with a tuple whose length differs from the
    number of element types of a tuple type without ellipsis.  With at
    least one element type the call raises a [GU_TypeValidationError] at
    the incoming path whose message gives the expected and the actual
    length, whatever the elements are; that message differs from every
    type-mismatch message ["must be of type X not Y"]; [(1, "x")] against
    [tuple[int, str, float]] raises with lengths 3 and 2.  With no element
    type ([tuple[()]]) the length is not compared at all, the test
    [elif args:] being false for the empty [args]: the call returns on
    every tuple. *)
Theorem enforce_type_tuple_length (rt : PyRuntime) (args : list texpr)
    (items : list PyValue) (path : AbstractTreePath) (condition : option string)
    (notset_as_special : bool) :
  is_repeated_tuple args = false ->
  Nat.eqb (List.length items) (List.length args) = false ->
  (Nat.eqb (List.length args) 0 = false ->
   enforce_type (TGeneric OTuple args) (VTuple items) path condition notset_as_special
   = Raises (mk_error GU_TypeValidationError path
               ("must be a tuple of length " ++ str_of_nat (List.length args)
                ++ " not length " ++ str_of_nat (List.length items))
               condition))
  /\ (Nat.eqb (List.length args) 0 = true ->
      enforce_type (TGeneric OTuple args) (VTuple items) path condition notset_as_special
      = Returns)
  /\ (forall X Y : string,
        ("must be a tuple of length " ++ str_of_nat (List.length args)
         ++ " not length " ++ str_of_nat (List.length items))%string
        <> ("must be of type " ++ X ++ " not " ++ Y)%string)
  /\ enforce_type (TGeneric OTuple [TClass int_cls; TClass str_cls; TClass float_cls])
       (VTuple [VInt 1; VStr "x"]) path condition notset_as_special
     = Raises (mk_error GU_TypeValidationError path
                 "must be a tuple of length 3 not length 2" condition).
Proof.
  intros Hrep Hlen. split; [|split; [|split; [|reflexivity]]].
  - intros Hargs. cbn [enforce_type]. cbv zeta. rewrite Hrep, Hargs, Hlen. reflexivity.
  - intros Hargs. destruct args; [|discriminate Hargs]. reflexivity.
  - intros X Y H. simpl in H. discriminate H.
Qed.

Lemma enforce_type_tuple_length_witness :
  enforce_type (rt := sample_runtime)
    (TGeneric OTuple [TClass int_cls; TClass str_cls; TClass float_cls])
    (VTuple [VInt 1; VStr "x"]) empty_path None true
  = Raises (mk_error GU_TypeValidationError empty_path
              "must be a tuple of length 3 not length 2" None)
  /\ enforce_type (rt := sample_runtime) (TGeneric OTuple [])
       (VTuple [VInt 1; VInt 2]) empty_path None true
     = Returns.
Proof.
  split.
  - apply (proj1 (enforce_type_tuple_length sample_runtime
                    [TClass int_cls; TClass str_cls; TClass float_cls]
                    [VInt 1; VStr "x"] empty_path None true
                    eq_refl eq_refl) eq_refl).
  - apply (proj1 (proj2 (enforce_type_tuple_length sample_runtime
                    [] [VInt 1; VInt 2] empty_path None true
                    eq_refl eq_refl)) eq_refl).
Defined.

(** C8.  A str or a bytes value passes [Iterable[T]] for every [T] (and
    for [Iterable] without argument): no element is checked. *)
Theorem enforce_type_iterable_str_bytes (rt : PyRuntime) (args : list texpr)
    (s : string) (b : list Byte.byte) (path : AbstractTreePath)
    (condition : option string) (notset_as_special : bool) :
  enforce_type (TGeneric OIterable args) (VStr s) path condition notset_as_special = Returns
  /\ enforce_type (TGeneric OIterable args) (VBytes b) path condition notset_as_special
     = Returns.
Proof. split; reflexivity. Qed.

(** C9.  Under [Sequence[T]] a str is traversed: its one-character
    substrings are checked against [T] at their indices.  ["ab"] passes
    [Sequence[str]], and against [Sequence[int]] it raises at the incoming
    path extended by index 0. *)
Theorem enforce_type_sequence_str (rt : PyRuntime) (path : AbstractTreePath)
    (condition : option string) (notset_as_special : bool) :
  (forall T s,
     enforce_type (TGeneric OSequence [T]) (VStr s) path condition notset_as_special
     = enforce_items (enforce_type T) path condition notset_as_special 0
         (map (fun c => VStr (String c EmptyString)) (list_ascii_of_string s)))
  /\ enforce_type (TGeneric OSequence [TClass str_cls]) (VStr "ab")
       path condition notset_as_special = Returns
  /\ enforce_type (TGeneric OSequence [TClass int_cls]) (VStr "ab")
       path condition notset_as_special
     = Raises (mk_error GU_TypeValidationError
                 (add_index_or_key path (VInt 0))
                 "must be of type int not str" condition).
Proof. repeat split; destruct notset_as_special; reflexivity. Qed.

(** ** validate_method and absent fields                                  *)

Lemma for_each_app {A : Type} (body : A -> outcome) (before after : list A) :
  for_each body (before ++ after) = for_each body before ;; for_each body after.
Proof.
  induction before as [|x before IH]; simpl; [reflexivity|].
  rewrite IH. destruct (body x); reflexivity.
Qed.

Lemma for_each_returns {A : Type} (body : A -> outcome) (xs : list A) :
  Forall (fun x => body x = Returns) xs -> for_each body xs = Returns.
Proof. induction 1 as [|x xs Hx _ IH]; simpl; [reflexivity|]. rewrite Hx. exact IH. Qed.

(** C7 (the input on which the code departs from the claim and from the
    docstring of [field]).  A field annotated [Any], declared with
    [validate_require_exist=True] and absent on the instance: the checker
    is called with [NotSet], accepts it, and [validate] returns. *)
Lemma validate_absent_required_field_may_pass :
  validate_method (rt := sample_runtime) (fun _ => None)
    (absent_field_instance TAny true) None = Returns.
Proof. reflexivity. Qed.

(** C7.  What the code does with a field that is absent on the instance.
    With [validate_require_exist = False] it raises nothing, in the type
    loop and in the sub-validation loop alike.  With [validate_type] and
    [validate_require_exist] both true, its check is the call of
    [enforce_type] on [NotSet] at the field's attribute path with
    [notset_as_special=True]; when that call raises and the fields before
    it pass, [validate] raises that [GU_TypeValidationError].  So an absent
    required field annotated [int] raises ("must be of type int not <not
    set>"), while whether one raises in general is decided by the declared
    type. *)
Theorem validate_absent_field (rt : PyRuntime)
    (validate_attr : PyValue -> option (AbstractTreePath -> outcome))
    (self : instance) (path : AbstractTreePath) (field : dc_field) :
  lookup_attr (inst_attrs self) (field_name field) = None ->
  (validate_require_exist field = false ->
     check_field self path field = Returns
     /\ subvalidate_field validate_attr self path field = Returns)
  /\ (validate_type field = true -> validate_require_exist field = true ->
      check_field self path field
      = enforce_type (field_type field) VNotSet
          (add_attribute path (field_name field)) None true)
  /\ (validate_type field = true -> validate_require_exist field = true ->
      forall before after e,
        inst_fields self = before ++ field :: after ->
        Forall (fun f => check_field self path f = Returns) before ->
        enforce_type (field_type field) VNotSet
          (add_attribute path (field_name field)) None true = Raises e ->
        validate_method validate_attr self (Some path) = Raises e
        /\ err_kind e = GU_TypeValidationError
        /\ extends_path (add_attribute path (field_name field)) (err_path e))
  /\ validate_method validate_attr (absent_field_instance (TClass int_cls) true) (Some path)
     = Raises (mk_error GU_TypeValidationError (add_attribute path "x")
                 "must be of type int not <not set>" None)
  /\ validate_method validate_attr (absent_field_instance (TClass int_cls) false) (Some path)
     = Returns.
Proof.
  intros Habsent.
  assert (Hcheck : validate_type field = true -> validate_require_exist field = true ->
            check_field self path field
            = enforce_type (field_type field) VNotSet
                (add_attribute path (field_name field)) None true).
  { intros Ht Hr. unfold check_field. rewrite Ht, Habsent, Hr. reflexivity. }
  split; [|split; [exact Hcheck | split; [|split; reflexivity]]].
  - intros Hr. split.
    + unfold check_field. rewrite Habsent, Hr. destruct (negb _); reflexivity.
    + unfold subvalidate_field. rewrite Habsent. destruct (negb _); reflexivity.
  - intros Ht Hr before after e Hfields Hbefore He.
    pose proof (enforce_type_well_reported _ _ _ _ _ He) as (Hk & _ & Hp).
    split; [|split; assumption].
    unfold validate_method. rewrite Hfields, for_each_app.
    rewrite (for_each_returns _ Hbefore). simpl.
    rewrite (Hcheck Ht Hr), He. reflexivity.
Qed.

Lemma validate_absent_field_witness :
  validate_method (rt := sample_runtime) (fun _ => None)
    (mk_instance
       [mk_field "name" (TClass str_cls) true true false;
        mk_field "age" (TClass int_cls) true true false]
       [("name", VStr "Ada")] None)
    (Some empty_path)
  = Raises (mk_error GU_TypeValidationError (add_attribute empty_path "age")
              "must be of type int not <not set>" None).
Proof.
  apply (proj1 (proj2 (proj2
           (validate_absent_field sample_runtime (fun _ => None)
              (mk_instance
                 [mk_field "name" (TClass str_cls) true true false;
                  mk_field "age" (TClass int_cls) true true false]
                 [("name", VStr "Ada")] None)
              empty_path
              (mk_field "age" (TClass int_cls) true true false)
              eq_refl)))
           eq_refl eq_refl
           [mk_field "name" (TClass str_cls) true true false] [] _
           eq_refl).
  - repeat constructor.
  - reflexivity.
Defined.

(** ** The tree visitor never reports the root position                   *)

Lemma add_index_or_key_below_root (p : AbstractTreePath) (k v : PyValue) :
  below_root (add_index_or_key p k, v).
Proof. unfold below_root. simpl. intros H. apply app_eq_nil in H as [_ H]. discriminate. Qed.

Lemma add_attribute_below_root (p : AbstractTreePath) (name : string) (v : PyValue) :
  below_root (add_attribute p name, v).
Proof. unfold below_root. simpl. intros H. apply app_eq_nil in H as [_ H]. discriminate. Qed.

Lemma lookup_attr_map {A B : Type} (f : A -> B) (attrs : list (string * A)) (name : string) :
  lookup_attr (map (fun nv => (fst nv, f (snd nv))) attrs) name
  = option_map f (lookup_attr attrs name).
Proof.
  induction attrs as [|[n v] rest IH]; simpl; [reflexivity|].
  destruct (String.eqb n name); [reflexivity | exact IH].
Qed.

Lemma lookup_attr_In {A : Type} (attrs : list (string * A)) (name : string) (x : A) :
  lookup_attr attrs name = Some x -> In (name, x) attrs.
Proof.
  induction attrs as [|[n v] rest IH]; simpl; [discriminate|].
  destruct (String.eqb_spec n name) as [->|Hn].
  - intros H. injection H as <-. left. reflexivity.
  - intros H. right. auto.
Qed.

Lemma dict_setitem_keys (P : AbstractTreePath -> Prop) (d : pairs)
    (key : AbstractTreePath) (value : PyValue) :
  Forall (fun entry => P (fst entry)) d -> P key ->
  Forall (fun entry => P (fst entry)) (dict_setitem d key value).
Proof.
  intros Hd Hk. induction Hd as [|[k v] rest Hkv Hrest IH]; simpl.
  - repeat constructor. exact Hk.
  - destruct (AbstractTreePath_eq k key); constructor; simpl in *; auto.
Qed.

Lemma filter_pairs_keys (P : AbstractTreePath -> Prop) (included_types : list pyclass)
    (unfiltered_pairs : pairs) :
  Forall (fun entry => P (fst entry)) unfiltered_pairs ->
  forall filtered_map m,
    Forall (fun entry => P (fst entry)) filtered_map ->
    filter_pairs included_types unfiltered_pairs filtered_map = Some m ->
    Forall (fun entry => P (fst entry)) m.
Proof.
  induction 1 as [|[q v] rest Hq _ IH]; simpl; intros filtered_map m Hm Hf.
  - injection Hf as <-. exact Hm.
  - destruct (instance_check v included_types) as [[|]|]; [| |discriminate].
    + eapply IH; [|exact Hf]. apply dict_setitem_keys; assumption.
    + eapply IH; [|exact Hf]. exact Hm.
Qed.

Section TreeVisitorFacts.
Variable visit_hook : nat -> AbstractTreePath -> option pairs.

(** [visit] returns pairs below the root wherever the hook calls [calls]
    it makes do. *)
Definition visits_below_root (visit : visitor)
    (calls : AbstractTreePath -> list hook_call) : Prop :=
  forall p found,
    visit p = Some found -> hooks_below_root visit_hook (calls p) ->
    Forall below_root found.

Lemma visit_items_below_root (f : PyValue -> visitor)
    (g : PyValue -> AbstractTreePath -> list hook_call) (items : list PyValue) :
  Forall (fun item => visits_below_root (f item) (g item)) items ->
  forall p i found,
    visit_items (map (fun item => (item, f item)) items) p i = Some found ->
    hooks_below_root visit_hook (calls_of_items (map g items) p i) ->
    Forall below_root found.
Proof.
  induction 1 as [|item rest Hv _ IH]; simpl; intros p i found Hf Hc.
  - injection Hf as <-. constructor.
  - destruct (f item _) as [below|] eqn:Hb; [|discriminate].
    destruct (visit_items _ p (S i)) as [more|] eqn:Hm; [|discriminate].
    injection Hf as <-. apply Forall_app in Hc as [Hc1 Hc2].
    constructor; [apply add_index_or_key_below_root|].
    apply Forall_app. split; [eapply Hv; eassumption | eapply IH; eassumption].
Qed.

Lemma visit_dict_below_root (f : PyValue -> visitor)
    (g : PyValue -> AbstractTreePath -> list hook_call)
    (items : list (PyValue * PyValue)) :
  Forall (fun kv => visits_below_root (f (snd kv)) (g (snd kv))) items ->
  forall p found,
    visit_dict (map (fun kv => (fst kv, (snd kv, f (snd kv)))) items) p = Some found ->
    hooks_below_root visit_hook
      (calls_of_dict (map (fun kv => (fst kv, g (snd kv))) items) p) ->
    Forall below_root found.
Proof.
  induction 1 as [|[key value] rest Hv _ IH]; simpl; intros p found Hf Hc.
  - injection Hf as <-. constructor.
  - destruct (f value _) as [below|] eqn:Hb; [|discriminate].
    destruct (visit_dict _ p) as [more|] eqn:Hm; [|discriminate].
    injection Hf as <-. apply Forall_app in Hc as [Hc1 Hc2].
    constructor; [apply add_index_or_key_below_root|].
    apply Forall_app. split; [eapply Hv; eassumption | eapply IH; eassumption].
Qed.

Lemma visit_fields_below_root (f : PyValue -> visitor)
    (g : PyValue -> AbstractTreePath -> list hook_call)
    (attrs : list (string * PyValue)) :
  Forall (fun nv => visits_below_root (f (snd nv)) (g (snd nv))) attrs ->
  forall fields p found,
    visit_fields fields (map (fun nv => (fst nv, (snd nv, f (snd nv)))) attrs) p
    = Some found ->
    hooks_below_root visit_hook
      (calls_of_fields fields
         (map (fun nv => (fst nv, (snd nv, g (snd nv)))) attrs) p) ->
    Forall below_root found.
Proof.
  intros Hattrs fields.
  induction fields as [|field rest IH]; simpl; intros p found Hf Hc.
  - injection Hf as <-. constructor.
  - rewrite (lookup_attr_map (fun v => (v, f v))) in Hf.
    rewrite (lookup_attr_map (fun v => (v, g v))) in Hc.
    destruct (lookup_attr attrs field) as [value|] eqn:Hl; simpl in Hf, Hc; [|discriminate].
    assert (Hv : visits_below_root (f value) (g value)).
    { apply lookup_attr_In in Hl. rewrite Forall_forall in Hattrs.
      exact (Hattrs _ Hl). }
    assert (Hgen :
              match f value (add_attribute p field) with
              | Some below =>
                  match visit_fields rest
                          (map (fun nv => (fst nv, (snd nv, f (snd nv)))) attrs) p with
                  | Some more => Some ((add_attribute p field, value) :: below ++ more)
                  | None => None
                  end
              | None => None
              end = Some found ->
              hooks_below_root visit_hook
                (g value (add_attribute p field)
                 ++ calls_of_fields rest
                      (map (fun nv => (fst nv, (snd nv, g (snd nv)))) attrs) p) ->
              Forall below_root found).
    { intros Hc' Hcalls.
      destruct (f value _) as [below|] eqn:Hb; [|discriminate].
      destruct (visit_fields rest _ p) as [more|] eqn:Hm; [|discriminate].
      injection Hc' as <-. apply Forall_app in Hcalls as [Hc1 Hc2].
      constructor; [apply add_attribute_below_root|].
      apply Forall_app. split; [eapply Hv; eassumption | eapply IH; eassumption]. }
    destruct value; try (apply Hgen; assumption).
    eapply IH; eassumption.
Qed.

Lemma hooks_below_root_one (hook : nat) (p : AbstractTreePath) (found : pairs) :
  hooks_below_root visit_hook [(hook, p)] -> visit_hook hook p = Some found ->
  Forall below_root found.
Proof. intros Hc Hf. inversion Hc as [|? ? Hcall _]; subst. exact (Hcall _ Hf). Qed.

Lemma visit_node_below_root (obj : PyValue) :
  visits_below_root (_visit_node_unfiltered visit_hook obj) (hook_calls obj).
Proof.
  induction obj using PyValue_nested_ind; intros p found Hf Hc; simpl in Hf, Hc;
    try (injection Hf as <-; constructor);
    try (eapply (@visit_items_below_root (_visit_node_unfiltered visit_hook) hook_calls);
         [exact H | exact Hf | exact Hc]).
  - eapply (@visit_dict_below_root (_visit_node_unfiltered visit_hook) hook_calls);
      [|exact Hf | exact Hc].
    eapply Forall_impl; [|exact H]. simpl. intros kv [_ Hkv]. exact Hkv.
  - destruct (cls_hook c) as [hook|].
    + eapply hooks_below_root_one; eassumption.
    + injection Hf as <-. constructor.
  - destruct (obj_hook info) as [hook|].
    + eapply hooks_below_root_one; eassumption.
    + eapply (@visit_fields_below_root (_visit_node_unfiltered visit_hook) hook_calls);
        [exact H | exact Hf | exact Hc].
Qed.
End TreeVisitorFacts.

(** C10 (as stated, refuted).  When the root defines
    [_visit_node_unfiltered_(self, path)] as [return [(path, self)]] and its
    class is included, the map returned by [visit_tree] has the empty path
    as a key, with the root itself as its value. *)
Lemma visit_tree_hook_reports_root :
  visit_tree (fun _ p => Some [(p, hooked_node)]) [Node_cls] hooked_node
  = Some [(empty_path, hooked_node)].
Proof. reflexivity. Qed.

(** C10 (amended).  Provided none of the custom [_visit_node_unfiltered_]
    methods called during the traversal returns a pair at the empty path
    (in particular when no object met defines one), every key of the map
    returned by [visit_tree] has at least one segment: the empty path is
    not a key, and the root is not an entry at the root position, whatever
    [included_types] contains. *)
Theorem visit_tree_entries_below_root
    (visit_hook : nat -> AbstractTreePath -> option pairs)
    (included_types : list pyclass) (r : PyValue) (m : pairs) :
  hooks_below_root visit_hook (hook_calls r empty_path) ->
  visit_tree visit_hook included_types r = Some m ->
  Forall below_root m
  /\ (forall key value, In (key, value) m -> (1 <= path_len key)%nat)
  /\ (forall flag value, ~ In (mk_path [] flag, value) m).
Proof.
  intros Hhooks Hm.
  assert (Hall : Forall below_root m).
  { unfold visit_tree in Hm.
    destruct (_visit_node_unfiltered visit_hook r empty_path) as [found|] eqn:Hf;
      [|discriminate].
    apply (@filter_pairs_keys (fun q => path q <> []) included_types found) with (filtered_map := []).
    - exact (@visit_node_below_root visit_hook r _ _ Hf Hhooks).
    - constructor.
    - exact Hm. }
  split; [exact Hall | split].
  - intros key value Hin. rewrite Forall_forall in Hall.
    specialize (Hall _ Hin). unfold below_root, path_len in *. simpl in Hall.
    destruct (path key); [congruence | simpl; lia].
  - intros flag value Hin. rewrite Forall_forall in Hall.
    apply (Hall _ Hin). reflexivity.
Qed.

Lemma visit_tree_entries_below_root_witness :
  visit_tree (fun _ p => Some [(p, hooked_node)]) [Node_cls] (VList [hooked_node])
  = Some [(add_index_or_key empty_path (VInt 0), hooked_node)]
  /\ Forall below_root [(add_index_or_key empty_path (VInt 0), hooked_node)].
Proof.
  split; [reflexivity|].
  apply (proj1 (@visit_tree_entries_below_root
                  (fun _ p => Some [(p, hooked_node)]) [Node_cls]
                  (VList [hooked_node]) _
                  ltac:(repeat constructor; simpl; intros found Hf;
                        injection Hf as <-; repeat constructor; discriminate)
                  eq_refl)).
Defined.

(* ===================================================================== *)
(** * Further properties of the code                                      *)
(* ===================================================================== *)

(** ** AbstractTreePath                                                   *)

Lemma firstn_app_exact {A : Type} (xs ys : list A) :
  firstn (List.length xs) (xs ++ ys) = xs.
Proof.
  rewrite firstn_app, Nat.sub_diag, firstn_all. simpl. apply app_nil_r.
Qed.

Lemma go_up_app (xs ys : list segment) (flag : bool) :
  (1 <= List.length ys)%nat ->
  go_up (mk_path (xs ++ ys) flag) (Z.of_nat (List.length ys)) = mk_path xs flag.
Proof.
  intros Hlen. unfold go_up, getitem_slice. cbn [path start_with_dot].
  rewrite tuple_slice_to. f_equal. unfold adjust_index.
  rewrite length_app.
  destruct (Z.ltb_spec (- Z.of_nat (List.length ys)) 0); [|lia].
  replace (Z.to_nat _) with (List.length xs) by lia.
  apply firstn_app_exact.
Qed.

(** X1.  [go_up] undoes the additions: going up one level from
    [p.add_attribute(a)] or [p.add_index_or_key(k)] gives back [p], and
    going up [len(q)] levels from [p.extend(q)] gives back [p] whenever
    [q] has at least one segment. *)
Theorem go_up_undoes_additions (p : AbstractTreePath) :
  (forall attr, go_up (add_attribute p attr) 1 = p)
  /\ (forall key, go_up (add_index_or_key p key) 1 = p)
  /\ (forall q, (1 <= path_len q)%nat ->
        go_up (extend p q) (Z.of_nat (path_len q)) = p).
Proof.
  destruct p as [segments flag]. repeat split.
  - intros attr. apply (go_up_app segments [ATPathAttribute attr] flag). simpl. lia.
  - intros key. apply (go_up_app segments [ATPathIndexOrKey key] flag). simpl. lia.
  - intros q Hq. apply (go_up_app segments (path q) flag Hq).
Qed.

Lemma go_up_undoes_additions_witness :
  go_up (extend (mk_path [ATPathAttribute "user"] true)
                (mk_path [ATPathIndexOrKey (VInt 0); ATPathAttribute "name"] false)) 2
  = mk_path [ATPathAttribute "user"] true.
Proof.
  apply (proj2 (proj2 (go_up_undoes_additions (mk_path [ATPathAttribute "user"] true)))
           (mk_path [ATPathIndexOrKey (VInt 0); ATPathAttribute "name"] false)).
  unfold path_len. simpl. lia.
Defined.

(** X2.  For every integer [i], negative or out of range included,
    [self[:i] + self[i:]] is [self]. *)
Theorem slices_concatenate (p : AbstractTreePath) (i : Z) :
  path_add (getitem_slice p None (Some i)) (getitem_slice p (Some i) None) = p.
Proof.
  destruct p as [segments flag].
  unfold path_add, extend, getitem_slice. cbn [path start_with_dot]. f_equal.
  rewrite tuple_slice_to. unfold tuple_slice. cbv zeta.
  set (len := Z.of_nat (List.length segments)).
  set (lo := adjust_index len i).
  assert (Hlo : 0 <= lo <= len).
  { unfold lo, adjust_index, len. destruct (Z.ltb_spec i 0); lia. }
  replace (firstn (Z.to_nat (len - lo)) (skipn (Z.to_nat lo) segments))
    with (skipn (Z.to_nat lo) segments).
  - apply firstn_skipn.
  - symmetry. apply firstn_all2. rewrite length_skipn. unfold len in *. lia.
Qed.

(** X3.  [extend] adds the lengths, is associative, keeps the rendering
    flag of the receiver, and extending by an empty path changes nothing. *)
Theorem extend_laws (p q r : AbstractTreePath) :
  path_len (extend p q) = (path_len p + path_len q)%nat
  /\ extend (extend p q) r = extend p (extend q r)
  /\ start_with_dot (extend p q) = start_with_dot p
  /\ (forall flag, extend p (mk_path [] flag) = p).
Proof.
  destruct p as [ps pf]. unfold extend, path_len. cbn [path start_with_dot].
  repeat split.
  - apply length_app.
  - rewrite app_assoc. reflexivity.
  - intros flag. rewrite app_nil_r. reflexivity.
Qed.

Lemma tuple_index_first (t : list segment) (value : segment) (i : nat) :
  tuple_index t value = Some i ->
  (exists item, nth_error t i = Some item /\ segment_eq item value = true)
  /\ (forall j item, (j < i)%nat -> nth_error t j = Some item ->
        segment_eq item value = false).
Proof.
  revert i. induction t as [|x t IH]; simpl; intros i H; [discriminate|].
  destruct (segment_eq x value) eqn:Hx.
  - injection H as <-. split; [exists x; auto | intros j item Hj; lia].
  - destruct (tuple_index t value) as [k|] eqn:Hk; [|discriminate].
    injection H as <-. destruct (IH k eq_refl) as [Hfound Hfirst]. split.
    + exact Hfound.
    + intros [|j] item Hj Hitem; simpl in Hitem.
      * injection Hitem as <-. exact Hx.
      * apply (Hfirst j item); [lia | exact Hitem].
Qed.

Lemma tuple_index_contains (t : list segment) (value : segment) :
  existsb (fun item => segment_eq item value) t = true <->
  exists i, tuple_index t value = Some i.
Proof.
  induction t as [|x t IH]; simpl.
  - split; [discriminate | intros [i H]; discriminate].
  - destruct (segment_eq x value); simpl.
    + split; eauto.
    + rewrite IH. split.
      * intros [i ->]. eauto.
      * intros [i H]. destruct (tuple_index t value); [eauto | discriminate].
Qed.

Lemma tuple_getitem_nat {A : Type} (t : list A) (i : nat) (x : A) :
  nth_error t i = Some x -> tuple_getitem t (Z.of_nat i) = Some x.
Proof.
  intros H. unfold tuple_getitem.
  assert (i < List.length t)%nat by (apply nth_error_Some; congruence).
  destruct (Z.ltb_spec (Z.of_nat i) 0); [lia|].
  destruct (Z.ltb_spec (Z.of_nat i) 0); [lia|].
  destruct (Z.leb_spec (Z.of_nat (List.length t)) (Z.of_nat i)); [lia|].
  simpl. rewrite Nat2Z.id. exact H.
Qed.

(** X4.  [value in p] holds exactly when [p.index(value)] does not raise;
    the index it returns is a valid position, the segment there equals
    [value], and no earlier segment does. *)
Theorem index_finds_first (p : AbstractTreePath) (value : segment) :
  (contains p value = true <-> exists i, index p value = Some i)
  /\ (forall i, index p value = Some i ->
        (exists item, getitem_index p (Z.of_nat i) = Some item
                      /\ segment_eq item value = true)
        /\ (forall j item, (j < i)%nat -> getitem_index p (Z.of_nat j) = Some item ->
              segment_eq item value = false)).
Proof.
  split; [apply tuple_index_contains|].
  intros i Hi. destruct (tuple_index_first _ _ Hi) as [(item & Hitem & Heq) Hfirst].
  split.
  - exists item. split; [apply tuple_getitem_nat, Hitem | exact Heq].
  - intros j item' Hj Hget.
    assert (Hlen : (i < List.length (path p))%nat)
      by (apply nth_error_Some; congruence).
    destruct (nth_error (path p) j) as [y|] eqn:Hy.
    + unfold getitem_index in Hget. rewrite (tuple_getitem_nat _ _ Hy) in Hget.
      injection Hget as <-. apply (Hfirst j y Hj Hy).
    + apply nth_error_None in Hy. lia.
Qed.

Lemma index_finds_first_witness :
  exists item,
    getitem_index (mk_path [ATPathAttribute "a"; ATPathIndexOrKey (VInt 1);
                            ATPathIndexOrKey (VBool true)] true) 1 = Some item
    /\ segment_eq item (ATPathIndexOrKey (VBool true)) = true.
Proof.
  apply (proj1 (proj2 (index_finds_first
                         (mk_path [ATPathAttribute "a"; ATPathIndexOrKey (VInt 1);
                                   ATPathIndexOrKey (VBool true)] true)
                         (ATPathIndexOrKey (VBool true))) 1%nat eq_refl)).
Defined.

Lemma segments_eq_length (xs ys : list segment) :
  segments_eq xs ys = true -> List.length xs = List.length ys.
Proof.
  revert ys. induction xs as [|x xs IH]; intros [|y ys]; simpl; try discriminate; auto.
  intros H. apply andb_true_iff in H as [_ H]. f_equal. apply IH, H.
Qed.

(** X5.  A path equals itself and its [copy()], for whatever keys it
    holds; two equal paths have the same length and the same
    [start_with_dot] flag. *)
Theorem path_eq_reflexive_and_shape (p q : AbstractTreePath) :
  AbstractTreePath_eq p p = true
  /\ AbstractTreePath_eq p (copy p) = true
  /\ (AbstractTreePath_eq p q = true ->
      path_len p = path_len q /\ start_with_dot p = start_with_dot q).
Proof.
  unfold AbstractTreePath_eq, copy, path_len. cbn [path start_with_dot].
  rewrite segments_eq_refl, Bool.eqb_reflx. repeat split; auto.
  - apply andb_true_iff in H as [H _]. apply segments_eq_length, H.
  - apply andb_true_iff in H as [_ H]. apply Bool.eqb_prop, H.
Qed.

Lemma path_eq_reflexive_and_shape_witness :
  path_len (mk_path [ATPathIndexOrKey (VInt 1)] true)
  = path_len (mk_path [ATPathIndexOrKey (VBool true)] true).
Proof.
  apply (proj2 (proj2 (path_eq_reflexive_and_shape
                         (mk_path [ATPathIndexOrKey (VInt 1)] true)
                         (mk_path [ATPathIndexOrKey (VBool true)] true)))
           eq_refl).
Defined.

Lemma string_app_assoc (a b c : string) : ((a ++ b) ++ c)%string = (a ++ b ++ c)%string.
Proof. induction a as [|ch a IH]; simpl; [reflexivity | rewrite IH; reflexivity]. Qed.

Lemma string_app_nil_r (a : string) : (a ++ "")%string = a.
Proof. induction a as [|ch a IH]; simpl; [reflexivity | rewrite IH; reflexivity]. Qed.

Lemma render_segments_app {rt : PyRuntime} (xs ys : list segment) :
  render_segments (xs ++ ys) = (render_segments xs ++ render_segments ys)%string.
Proof.
  induction xs as [|[name|key] xs IH]; simpl; [reflexivity| |];
    rewrite IH, ?string_app_assoc; reflexivity.
Qed.

Lemma removeprefix_dot_app (s t : string) :
  s <> ""%string -> removeprefix_dot (s ++ t) = (removeprefix_dot s ++ t)%string.
Proof.
  destruct s as [|ch s]; [congruence|]. intros _. simpl.
  destruct ch as [[] [] [] [] [] [] [] []]; reflexivity.
Qed.

Lemma render_segments_nonempty {rt : PyRuntime} (xs : list segment) :
  xs <> [] -> render_segments xs <> ""%string.
Proof. destruct xs as [|[name|key] xs]; simpl; congruence. Qed.

(** X6.  The rendering grows with the path: adding an index or key appends
    [[repr(key)]]; adding an attribute appends [.name], except on an empty
    path created with [start_with_dot=False], where the rendering is the
    bare name. *)
Theorem repr_as_python_code_grows (rt : PyRuntime) (p : AbstractTreePath) :
  (forall key,
     repr_as_python_code (add_index_or_key p key)
     = (repr_as_python_code p ++ "[" ++ py_repr key ++ "]")%string)
  /\ (forall attr,
        orb (start_with_dot p) (Nat.ltb 0 (path_len p)) = true ->
        repr_as_python_code (add_attribute p attr)
        = (repr_as_python_code p ++ "." ++ attr)%string)
  /\ (forall attr,
        repr_as_python_code (add_attribute (mk_path [] false) attr) = attr).
Proof.
  destruct p as [segments flag].
  unfold repr_as_python_code, add_index_or_key, add_attribute, path_len.
  cbn [path start_with_dot]. repeat split.
  - intros key. rewrite render_segments_app. simpl.
    rewrite ?string_app_nil_r.
    destruct flag; simpl; [reflexivity|].
    destruct segments as [|s segments]; [reflexivity|].
    apply removeprefix_dot_app, render_segments_nonempty. discriminate.
  - intros attr H. rewrite render_segments_app. simpl.
    rewrite ?string_app_nil_r.
    destruct flag; simpl in *; [reflexivity|].
    destruct segments as [|s segments]; [discriminate|].
    apply removeprefix_dot_app, render_segments_nonempty. discriminate.
  - intros attr. simpl. apply string_app_nil_r.
Qed.

Lemma repr_as_python_code_grows_witness :
  repr_as_python_code (rt := sample_runtime)
    (add_attribute
       (mk_path [ATPathAttribute "user"; ATPathIndexOrKey (VInt 0)] false) "name")
  = "user[0].name"%string.
Proof.
  apply (proj1 (proj2 (repr_as_python_code_grows sample_runtime
                         (mk_path [ATPathAttribute "user"; ATPathIndexOrKey (VInt 0)]
                            false))) "name" eq_refl).
Defined.

(** ** get_in_tree                                                        *)

Section GetInTreeFacts.
Variable builtin_getattr : PyValue -> string -> option PyValue.
Variable user_getitem : PyValue -> PyValue -> option PyValue.

Let get_from' := get_from builtin_getattr user_getitem.

Lemma get_from_walked (walked items : list segment) (tree : PyValue) :
  get_from' walked items tree
  = match get_from' [] items tree with
    | Value v => Value v
    | ValueError a => ValueError (walked ++ a)
    end.
Proof.
  unfold get_from'. revert walked tree.
  induction items as [|item rest IH]; intros walked tree; simpl; [reflexivity|].
  destruct (get_step builtin_getattr user_getitem item tree) as [next|].
  - rewrite (IH (walked ++ [item])), (IH [item]).
    destruct (get_from builtin_getattr user_getitem [] rest next); [reflexivity|].
    rewrite <- app_assoc. reflexivity.
  - rewrite app_nil_r. reflexivity.
Qed.

Lemma get_from_app (walked xs ys : list segment) (tree : PyValue) :
  get_from' walked (xs ++ ys) tree
  = match get_from' walked xs tree with
    | Value v => get_from' (walked ++ xs) ys v
    | ValueError a => ValueError a
    end.
Proof.
  unfold get_from'. revert walked tree.
  induction xs as [|item rest IH]; intros walked tree; simpl.
  - rewrite app_nil_r. reflexivity.
  - destruct (get_step builtin_getattr user_getitem item tree) as [next|]; [|reflexivity].
    rewrite IH, <- app_assoc. reflexivity.
Qed.

Lemma get_from_error_prefix (walked items : list segment) (tree : PyValue) (a : list segment) :
  get_from' walked items tree = ValueError a ->
  exists done item rest, items = done ++ item :: rest /\ a = walked ++ done.
Proof.
  unfold get_from'. revert walked tree.
  induction items as [|item rest IH]; intros walked tree; simpl; [discriminate|].
  destruct (get_step builtin_getattr user_getitem item tree) as [next|].
  - intros H. destruct (IH _ _ H) as (done & item' & rest' & -> & ->).
    exists (item :: done), item', rest'. rewrite <- app_assoc. split; reflexivity.
  - intros H. injection H as <-. exists [], item, rest. rewrite app_nil_r. split; reflexivity.
Qed.

End GetInTreeFacts.

(** X7.  Looking up [p.extend(q)] is looking up [p] and then [q] from the
    value found: a failure inside [p] is reported as for [p] alone, a
    failure inside [q] is reported with [p] prepended to the walked part,
    and the walked part of a [ValueError] is always a proper prefix of the
    path.  Hence a path that exists in a tree has all its prefixes in it. *)
Theorem get_in_tree_composes
    (builtin_getattr : PyValue -> string -> option PyValue)
    (user_getitem : PyValue -> PyValue -> option PyValue)
    (p q : AbstractTreePath) (tree : PyValue) :
  get_in_tree builtin_getattr user_getitem (extend p q) tree VNotSet
  = match get_in_tree builtin_getattr user_getitem p tree VNotSet with
    | Value v =>
        match get_in_tree builtin_getattr user_getitem q v VNotSet with
        | Value w => Value w
        | ValueError walked => ValueError (path p ++ walked)
        end
    | ValueError walked => ValueError walked
    end
  /\ (forall walked,
        get_in_tree builtin_getattr user_getitem p tree VNotSet = ValueError walked ->
        exists item rest, path p = walked ++ item :: rest)
  /\ (exists_in_tree builtin_getattr user_getitem (extend p q) tree = true ->
      exists_in_tree builtin_getattr user_getitem p tree = true).
Proof.
  assert (Hcomp :
    get_in_tree builtin_getattr user_getitem (extend p q) tree VNotSet
    = match get_in_tree builtin_getattr user_getitem p tree VNotSet with
      | Value v =>
          match get_in_tree builtin_getattr user_getitem q v VNotSet with
          | Value w => Value w
          | ValueError walked => ValueError (path p ++ walked)
          end
      | ValueError walked => ValueError walked
      end).
  { unfold get_in_tree, extend. cbn [path].
    rewrite get_from_app.
    destruct (get_from builtin_getattr user_getitem [] (path p) tree) as [v|a];
      [|reflexivity].
    simpl. rewrite get_from_walked.
    destruct (get_from builtin_getattr user_getitem [] (path q) v); reflexivity. }
  split; [exact Hcomp | split].
  - intros walked H. unfold get_in_tree in H.
    destruct (get_from builtin_getattr user_getitem [] (path p) tree) as [v|a] eqn:Hg;
      [discriminate|].
    injection H as <-.
    destruct (get_from_error_prefix _ _ _ _ _ Hg) as (done & item & rest & -> & ->).
    exists item, rest. reflexivity.
  - unfold exists_in_tree. rewrite Hcomp.
    destruct (get_in_tree builtin_getattr user_getitem p tree VNotSet);
      [reflexivity | discriminate].
Qed.

Lemma get_in_tree_composes_witness :
  exists_in_tree (fun _ _ => None) (fun _ _ => None)
    (mk_path [ATPathIndexOrKey (VStr "items")] true)
    (VDict [(VStr "items", VList [VInt 1; VInt 2])]) = true.
Proof.
  apply (proj2 (proj2 (get_in_tree_composes (fun _ _ => None) (fun _ _ => None)
                         (mk_path [ATPathIndexOrKey (VStr "items")] true)
                         (mk_path [ATPathIndexOrKey (VInt (-1))] true)
                         (VDict [(VStr "items", VList [VInt 1; VInt 2])])))).
  reflexivity.
Defined.

(** ** The visitor's paths lead back to the values it reports             *)

Lemma dict_getitem_distinct (items : list (PyValue * PyValue)) (key value : PyValue) :
  distinct_keys (map fst items) = true ->
  In (key, value) items -> dict_getitem items key = Some value.
Proof.
  induction items as [|[k v] rest IH]; simpl; [contradiction|].
  intros Hd Hin. apply andb_true_iff in Hd as [Hk Hrest].
  destruct Hin as [Heq | Hin].
  - injection Heq as -> ->. rewrite py_eq_refl. reflexivity.
  - destruct (py_eq k key) eqn:Hkk.
    + exfalso. apply negb_true_iff in Hk.
      assert (existsb (fun k' => py_eq k k') (map fst rest) = true); [|congruence].
      apply existsb_exists. exists key. split; [|exact Hkk].
      apply in_map_iff. exists (key, value). split; [reflexivity | exact Hin].
    + apply IH; assumption.
Qed.

Section VisitorResolves.
Variable builtin_getattr : PyValue -> string -> option PyValue.
Variable user_getitem : PyValue -> PyValue -> option PyValue.
Variable visit_hook : nat -> AbstractTreePath -> option pairs.

(** [entry] lies below [p], and the segments added to [p] lead from [obj]
    to the value of the entry. *)
Definition resolves (obj : PyValue) (p : AbstractTreePath)
    (entry : AbstractTreePath * PyValue) : Prop :=
  exists suffix,
    fst entry = mk_path (path p ++ suffix) (start_with_dot p)
    /\ get_from builtin_getattr user_getitem [] suffix obj = Value (snd entry).

Definition visits_resolvably (obj : PyValue) (visit : visitor) : Prop :=
  forall p found, visit p = Some found -> Forall (resolves obj p) found.

Lemma resolves_child (obj child : PyValue) (item : segment) (p : AbstractTreePath) :
  get_step builtin_getattr user_getitem item obj = Some child ->
  resolves obj p (mk_path (path p ++ [item]) (start_with_dot p), child).
Proof.
  intros Hstep. exists [item]. split; [reflexivity|].
  simpl. rewrite Hstep. reflexivity.
Qed.

Lemma resolves_below (obj child : PyValue) (item : segment) (p : AbstractTreePath)
    (entry : AbstractTreePath * PyValue) :
  get_step builtin_getattr user_getitem item obj = Some child ->
  resolves child (mk_path (path p ++ [item]) (start_with_dot p)) entry ->
  resolves obj p entry.
Proof.
  intros Hstep (suffix & Hpath & Hget). exists (item :: suffix). split.
  - rewrite Hpath. simpl. rewrite <- app_assoc. reflexivity.
  - simpl. rewrite Hstep. rewrite get_from_walked. rewrite Hget. reflexivity.
Qed.

Lemma visit_items_resolves (obj : PyValue) (children : list (PyValue * visitor)) :
  forall i0,
    (forall k child visit, nth_error children k = Some (child, visit) ->
       visits_resolvably child visit
       /\ get_step builtin_getattr user_getitem
            (ATPathIndexOrKey (VInt (Z.of_nat (i0 + k)))) obj = Some child) ->
    forall p found, visit_items children p i0 = Some found ->
      Forall (resolves obj p) found.
Proof.
  induction children as [|[item visit] rest IH]; intros i0 H p found Hf; simpl in Hf.
  - injection Hf as <-. constructor.
  - destruct (visit _) as [below|] eqn:Hb; [|discriminate].
    destruct (visit_items rest p (S i0)) as [more|] eqn:Hm; [|discriminate].
    injection Hf as <-.
    destruct (H 0%nat item visit eq_refl) as [Hv Hstep].
    rewrite Nat.add_0_r in Hstep.
    constructor; [exact (@resolves_child obj _ _ p Hstep)|].
    apply Forall_app. split.
    + eapply Forall_impl; [|exact (Hv _ _ Hb)].
      intros entry He. exact (@resolves_below obj _ _ p entry Hstep He).
    + apply (IH (S i0)); [|exact Hm].
      intros k child visit' Hk. rewrite Nat.add_succ_comm. apply (H (S k)). exact Hk.
Qed.

Lemma visit_dict_resolves (obj : PyValue)
    (children : list (PyValue * (PyValue * visitor))) :
  Forall (fun child =>
            visits_resolvably (fst (snd child)) (snd (snd child))
            /\ get_step builtin_getattr user_getitem
                 (ATPathIndexOrKey (fst child)) obj = Some (fst (snd child)))
         children ->
  forall p found, visit_dict children p = Some found -> Forall (resolves obj p) found.
Proof.
  induction 1 as [|[key [value visit]] rest [Hv Hstep] _ IH]; simpl; intros p found Hf.
  - injection Hf as <-. constructor.
  - cbn [fst snd] in Hv, Hstep.
    destruct (visit _) as [below|] eqn:Hb; [|discriminate].
    destruct (visit_dict rest p) as [more|] eqn:Hm; [|discriminate].
    injection Hf as <-.
    constructor; [exact (@resolves_child obj _ _ p Hstep)|].
    apply Forall_app. split.
    + eapply Forall_impl; [|exact (Hv _ _ Hb)].
      intros entry He. exact (@resolves_below obj _ _ p entry Hstep He).
    + apply IH, Hm.
Qed.

Lemma visit_fields_resolves (obj : PyValue)
    (attrs : list (string * (PyValue * visitor))) :
  (forall field value visit, lookup_attr attrs field = Some (value, visit) ->
     visits_resolvably value visit
     /\ get_step builtin_getattr user_getitem (ATPathAttribute field) obj = Some value) ->
  forall fields p found, visit_fields fields attrs p = Some found ->
    Forall (resolves obj p) found.
Proof.
  intros H fields. induction fields as [|field rest IH]; simpl; intros p found Hf.
  - injection Hf as <-. constructor.
  - destruct (lookup_attr attrs field) as [[value visit]|] eqn:Hl; [|discriminate].
    destruct (H _ _ _ Hl) as [Hv Hstep].
    assert (Hgen :
      match visit (add_attribute p field) with
      | Some below =>
          match visit_fields rest attrs p with
          | Some more => Some ((add_attribute p field, value) :: below ++ more)
          | None => None
          end
      | None => None
      end = Some found -> Forall (resolves obj p) found).
    { intros Hc.
      destruct (visit (add_attribute p field)) as [below|] eqn:Hb; [|discriminate].
      destruct (visit_fields rest attrs p) as [more|] eqn:Hm; [|discriminate].
      injection Hc as <-.
      constructor; [exact (@resolves_child obj _ _ p Hstep)|].
      apply Forall_app. split.
      - eapply Forall_impl; [|exact (Hv _ _ Hb)].
        intros entry He. exact (@resolves_below obj _ _ p entry Hstep He).
      - apply IH, Hm. }
    destruct value; try (apply Hgen; exact Hf).
    apply IH, Hf.
Qed.

Lemma visit_node_resolves (obj : PyValue) :
  navigable obj = true ->
  visits_resolvably obj (_visit_node_unfiltered visit_hook obj).
Proof.
  induction obj using PyValue_nested_ind; intros Hnav p found Hf; simpl in Hf;
    try (injection Hf as <-; constructor); try discriminate Hnav.
  - (* list *)
    simpl in Hnav. rewrite forallb_forall in Hnav. rewrite Forall_forall in H.
    eapply (visit_items_resolves (VList items)); [|exact Hf].
    intros k child visit Hk. rewrite nth_error_map in Hk.
    destruct (nth_error items k) as [item|] eqn:Hitem; [|discriminate].
    injection Hk as <- <-.
    pose proof (nth_error_In _ _ Hitem) as Hin. split.
    + apply H; auto.
    + simpl. apply tuple_getitem_nat. exact Hitem.
  - (* tuple *)
    simpl in Hnav. rewrite forallb_forall in Hnav. rewrite Forall_forall in H.
    eapply (visit_items_resolves (VTuple items)); [|exact Hf].
    intros k child visit Hk. rewrite nth_error_map in Hk.
    destruct (nth_error items k) as [item|] eqn:Hitem; [|discriminate].
    injection Hk as <- <-.
    pose proof (nth_error_In _ _ Hitem) as Hin. split.
    + apply H; auto.
    + simpl. apply tuple_getitem_nat. exact Hitem.
  - (* dict *)
    simpl in Hnav. apply andb_true_iff in Hnav as [Hd Hnav].
    rewrite forallb_forall in Hnav. rewrite Forall_forall in H.
    eapply (visit_dict_resolves (VDict items)); [|exact Hf].
    apply Forall_forall. intros child Hchild.
    apply in_map_iff in Hchild as ([key value] & <- & Hin). simpl. split.
    + destruct (H _ Hin) as [_ Hv]. apply Hv.
      specialize (Hnav _ Hin). apply andb_true_iff in Hnav as [_ Hnav]. exact Hnav.
    + apply dict_getitem_distinct; assumption.
  - (* class object *)
    simpl in Hnav. destruct (cls_hook c) as [hook|]; [discriminate|].
    injection Hf as <-. constructor.
  - (* instance *)
    simpl in Hnav. destruct (obj_hook info) as [hook|]; [discriminate|].
    rewrite forallb_forall in Hnav. rewrite Forall_forall in H.
    eapply (visit_fields_resolves (VObj info attrs)); [|exact Hf].
    intros field value visit Hl.
    rewrite (lookup_attr_map (fun v => (v, _visit_node_unfiltered visit_hook v))) in Hl.
    destruct (lookup_attr attrs field) as [v|] eqn:Hv; [|discriminate].
    simpl in Hl. injection Hl as <- <-.
    pose proof (lookup_attr_In _ _ Hv) as Hin. split.
    + apply (H _ Hin). apply (Hnav _ Hin).
    + simpl. exact Hv.
Qed.

End VisitorResolves.

Lemma dict_setitem_entries (P : AbstractTreePath -> PyValue -> Prop) (d : pairs)
    (key : AbstractTreePath) (value : PyValue) :
  Forall (fun entry => P (fst entry) (snd entry)) d ->
  (forall k, AbstractTreePath_eq k key = true -> P k value) ->
  Forall (fun entry => P (fst entry) (snd entry)) (dict_setitem d key value).
Proof.
  intros Hd Hnew. induction Hd as [|[k v] rest Hkv Hrest IH]; simpl.
  - constructor; [|constructor]. simpl. apply Hnew.
    unfold AbstractTreePath_eq. rewrite segments_eq_refl, Bool.eqb_reflx. reflexivity.
  - destruct (AbstractTreePath_eq k key) eqn:Hk; constructor; simpl; auto.
Qed.

Lemma instance_check_existsb (value : PyValue) (classes : list pyclass) (b : bool) :
  instance_check value classes = Some b -> existsb (isinstance value) classes = b.
Proof.
  induction classes as [|cls rest IH]; simpl.
  - intros H. injection H as <-. reflexivity.
  - destruct (cls_protocol cls); [discriminate|].
    destruct (isinstance value cls); simpl; [|exact IH].
    intros H. injection H as <-. reflexivity.
Qed.

Lemma filter_pairs_entries (included_types : list pyclass) (all_pairs : pairs) :
  forall unfiltered_pairs filtered_map m,
    incl unfiltered_pairs all_pairs ->
    Forall (fun entry =>
              existsb (isinstance (snd entry)) included_types = true
              /\ exists q, AbstractTreePath_eq (fst entry) q = true
                           /\ In (q, snd entry) all_pairs) filtered_map ->
    filter_pairs included_types unfiltered_pairs filtered_map = Some m ->
    Forall (fun entry =>
              existsb (isinstance (snd entry)) included_types = true
              /\ exists q, AbstractTreePath_eq (fst entry) q = true
                           /\ In (q, snd entry) all_pairs)
           m.
Proof.
  induction unfiltered_pairs as [|[q v] rest IH]; simpl; intros filtered_map m Hin Hm Hf.
  { injection Hf as <-. exact Hm. }
  destruct (instance_check v included_types) as [[|]|] eqn:Hc; [| |discriminate].
  2:{ eapply IH; [intros e He; apply Hin; right; exact He | exact Hm | exact Hf]. }
  apply instance_check_existsb in Hc. rename Hc into Hv.
  eapply IH; [intros e He; apply Hin; right; exact He | | exact Hf].
  apply (dict_setitem_entries
           (fun k w => existsb (isinstance w) included_types = true
                       /\ exists q', AbstractTreePath_eq k q' = true /\ In (q', w) all_pairs)).
  - exact Hm.
  - intros k Hk. split; [exact Hv|]. exists q. split; [exact Hk|].
    apply Hin. left. reflexivity.
Qed.

(** X8.  In a tree of scalars, lists, tuples, dicts and hook-less
    instances, every pair [(path, value)] that [_visit_node_unfiltered]
    yields from the root satisfies [path.get_in_tree(root) is value]; every
    entry of the map returned by [visit_tree] holds an instance of an
    included type, found in the tree at a path equal to its key. *)
Theorem visited_paths_resolve
    (builtin_getattr : PyValue -> string -> option PyValue)
    (user_getitem : PyValue -> PyValue -> option PyValue)
    (visit_hook : nat -> AbstractTreePath -> option pairs) (root : PyValue) :
  navigable root = true ->
  (forall found q v,
     _visit_node_unfiltered visit_hook root empty_path = Some found ->
     In (q, v) found ->
     get_in_tree builtin_getattr user_getitem q root VNotSet = Value v)
  /\ (forall included_types m q v,
        visit_tree visit_hook included_types root = Some m ->
        In (q, v) m ->
        existsb (isinstance v) included_types = true
        /\ exists q', AbstractTreePath_eq q q' = true
                      /\ get_in_tree builtin_getattr user_getitem q' root VNotSet
                         = Value v).
Proof.
  intros Hnav.
  assert (Hdirect : forall found q v,
            _visit_node_unfiltered visit_hook root empty_path = Some found ->
            In (q, v) found ->
            get_in_tree builtin_getattr user_getitem q root VNotSet = Value v).
  { intros found q v Hf Hin.
    pose proof (visit_node_resolves builtin_getattr user_getitem visit_hook root Hnav
                  empty_path Hf) as Hall.
    rewrite Forall_forall in Hall. destruct (Hall _ Hin) as (suffix & Hq & Hget).
    simpl in Hq, Hget. subst q. unfold get_in_tree. cbn [path].
    rewrite Hget. reflexivity. }
  split; [exact Hdirect|].
  intros included_types m q v Hm Hin. unfold visit_tree in Hm.
  destruct (_visit_node_unfiltered visit_hook root empty_path) as [found|] eqn:Hf;
    [|discriminate].
  pose proof (@filter_pairs_entries included_types found found [] m
                (incl_refl found) (Forall_nil _) Hm) as Hall.
  rewrite Forall_forall in Hall. destruct (Hall _ Hin) as (Hinst & q' & Heq & Hq').
  simpl in *. split; [exact Hinst|]. exists q'. split; [exact Heq|].
  eapply Hdirect; [reflexivity | exact Hq'].
Qed.

Lemma visited_paths_resolve_witness :
  get_in_tree (fun _ _ => None) (fun _ _ => None)
    (mk_path [ATPathIndexOrKey (VStr "items"); ATPathIndexOrKey (VInt 1)] true)
    (VDict [(VStr "items", VList [VInt 1; VInt 2]); (VStr "note", VStr "hi")])
    VNotSet
  = Value (VInt 2).
Proof.
  eapply (proj1 (visited_paths_resolve (fun _ _ => None) (fun _ _ => None)
                   (fun _ _ => Some [])
                   (VDict [(VStr "items", VList [VInt 1; VInt 2]);
                           (VStr "note", VStr "hi")])
                   eq_refl)).
  - reflexivity.
  - simpl. right. right. left. reflexivity.
Defined.

Lemma dict_setitem_keeps_keys (d : pairs) (key k : AbstractTreePath) (value : PyValue) :
  (exists w, In (k, w) d) -> exists w, In (k, w) (dict_setitem d key value).
Proof.
  induction d as [|[k0 v0] rest IH]; simpl; intros [w Hin]; [contradiction|].
  destruct (AbstractTreePath_eq k0 key).
  - destruct Hin as [Heq | Hin].
    + injection Heq as -> _. exists value. left. reflexivity.
    + exists w. right. exact Hin.
  - destruct Hin as [Heq | Hin].
    + exists w. left. exact Heq.
    + destruct (IH (ex_intro _ w Hin)) as [w' Hw']. exists w'. right. exact Hw'.
Qed.

Lemma dict_setitem_has_key (d : pairs) (key : AbstractTreePath) (value : PyValue) :
  exists k, In (k, value) (dict_setitem d key value) /\ AbstractTreePath_eq k key = true.
Proof.
  induction d as [|[k0 v0] rest IH]; simpl.
  - exists key. split; [left; reflexivity|].
    unfold AbstractTreePath_eq. rewrite segments_eq_refl, Bool.eqb_reflx. reflexivity.
  - destruct (AbstractTreePath_eq k0 key) eqn:Hk.
    + exists k0. split; [left; reflexivity | exact Hk].
    + destruct IH as (k & Hin & Heq). exists k. split; [right; exact Hin | exact Heq].
Qed.

Lemma filter_pairs_keeps_keys (included_types : list pyclass) (unfiltered_pairs : pairs) :
  forall filtered_map m k,
    filter_pairs included_types unfiltered_pairs filtered_map = Some m ->
    (exists w, In (k, w) filtered_map) ->
    exists w, In (k, w) m.
Proof.
  induction unfiltered_pairs as [|[q v] rest IH]; simpl; intros filtered_map m k Hf Hk.
  { injection Hf as <-. exact Hk. }
  destruct (instance_check v included_types) as [[|]|]; [| |discriminate].
  - eapply IH; [exact Hf|]. apply dict_setitem_keeps_keys. exact Hk.
  - eapply IH; [exact Hf | exact Hk].
Qed.

(** X9.  [visit_tree] loses no included node: for every pair
    [(path, value)] of the unfiltered traversal whose value is an instance
    of an included type, the returned map has a key equal to [path]. *)
Theorem visit_tree_keeps_included
    (visit_hook : nat -> AbstractTreePath -> option pairs)
    (included_types : list pyclass) (root : PyValue) (found m : pairs)
    (q : AbstractTreePath) (v : PyValue) :
  _visit_node_unfiltered visit_hook root empty_path = Some found ->
  visit_tree visit_hook included_types root = Some m ->
  In (q, v) found ->
  existsb (isinstance v) included_types = true ->
  exists k w, In (k, w) m /\ AbstractTreePath_eq k q = true.
Proof.
  intros Hf Hm Hin Hv. unfold visit_tree in Hm. rewrite Hf in Hm.
  clear Hf. revert Hm. generalize (@nil (AbstractTreePath * PyValue)).
  induction found as [|[q0 v0] rest IH]; simpl; intros acc Hm; [contradiction|].
  destruct (instance_check v0 included_types) as [[|]|] eqn:Hc; [| |discriminate].
  - destruct Hin as [Heq | Hin]; [|exact (IH Hin _ Hm)].
    injection Heq as -> ->.
    destruct (dict_setitem_has_key acc q v) as (k & Hk & Hkq).
    destruct (@filter_pairs_keeps_keys included_types rest _ m k Hm (ex_intro _ v Hk))
      as [w Hw].
    exists k, w. split; assumption.
  - destruct Hin as [Heq | Hin]; [|exact (IH Hin _ Hm)].
    injection Heq as -> ->. apply instance_check_existsb in Hc. congruence.
Qed.

Lemma visit_tree_keeps_included_witness :
  exists k w,
    In (k, w) [(mk_path [ATPathIndexOrKey (VInt 0)] true, VInt 5)]
    /\ AbstractTreePath_eq k (mk_path [ATPathIndexOrKey (VInt 0)] true) = true.
Proof.
  apply (@visit_tree_keeps_included (fun _ _ => Some []) [int_cls]
           (VList [VInt 5; VStr "x"])
           [(mk_path [ATPathIndexOrKey (VInt 0)] true, VInt 5);
            (mk_path [ATPathIndexOrKey (VInt 1)] true, VStr "x")]
           [(mk_path [ATPathIndexOrKey (VInt 0)] true, VInt 5)]
           (mk_path [ATPathIndexOrKey (VInt 0)] true) (VInt 5)).
  - reflexivity.
  - reflexivity.
  - left. reflexivity.
  - reflexivity.
Defined.

(** ** When the visitor returns                                            *)

Section VisitorReturns.
Variable visit_hook : nat -> AbstractTreePath -> option pairs.

(** [visit] returns wherever the hook calls [calls] do. *)
Definition always_visits (visit : visitor)
    (calls : AbstractTreePath -> list hook_call) : Prop :=
  forall p, hooks_return visit_hook (calls p) -> exists found, visit p = Some found.

(** Where [visit] returns, the hook calls [calls] have returned. *)
Definition calls_returned (visit : visitor)
    (calls : AbstractTreePath -> list hook_call) : Prop :=
  forall p found, visit p = Some found -> hooks_return visit_hook (calls p).

Lemma visit_items_total (f : PyValue -> visitor)
    (g : PyValue -> AbstractTreePath -> list hook_call) (items : list PyValue) :
  Forall (fun item => always_visits (f item) (g item)) items ->
  forall p i,
    hooks_return visit_hook (calls_of_items (map g items) p i) ->
    exists found, visit_items (map (fun item => (item, f item)) items) p i = Some found.
Proof.
  induction 1 as [|item rest Hv _ IH]; simpl; intros p i Hc; [eauto|].
  apply Forall_app in Hc as [Hc1 Hc2].
  destruct (Hv _ Hc1) as [below ->].
  destruct (IH p (S i) Hc2) as [more ->]. eauto.
Qed.

Lemma visit_dict_total (f : PyValue -> visitor)
    (g : PyValue -> AbstractTreePath -> list hook_call)
    (items : list (PyValue * PyValue)) :
  Forall (fun kv => always_visits (f (snd kv)) (g (snd kv))) items ->
  forall p,
    hooks_return visit_hook
      (calls_of_dict (map (fun kv => (fst kv, g (snd kv))) items) p) ->
    exists found,
      visit_dict (map (fun kv => (fst kv, (snd kv, f (snd kv)))) items) p = Some found.
Proof.
  induction 1 as [|[key value] rest Hv _ IH]; simpl; intros p Hc; [eauto|].
  apply Forall_app in Hc as [Hc1 Hc2]. cbn [snd] in Hv.
  destruct (Hv _ Hc1) as [below ->].
  destruct (IH p Hc2) as [more ->]. eauto.
Qed.

Lemma lookup_attr_existsb {A : Type} (attrs : list (string * A)) (name : string) :
  existsb (fun nv => String.eqb (fst nv) name) attrs = true ->
  exists x, lookup_attr attrs name = Some x.
Proof.
  induction attrs as [|[n v] rest IH]; simpl; [discriminate|].
  destruct (String.eqb n name); simpl; eauto.
Qed.

Lemma visit_fields_total (f : PyValue -> visitor)
    (g : PyValue -> AbstractTreePath -> list hook_call)
    (attrs : list (string * PyValue)) (fields : list string) :
  Forall (fun nv => always_visits (f (snd nv)) (g (snd nv))) attrs ->
  Forall (fun field => exists x, lookup_attr attrs field = Some x) fields ->
  forall p,
    hooks_return visit_hook
      (calls_of_fields fields
         (map (fun nv => (fst nv, (snd nv, g (snd nv)))) attrs) p) ->
    exists found,
      visit_fields fields (map (fun nv => (fst nv, (snd nv, f (snd nv)))) attrs) p
      = Some found.
Proof.
  intros Hattrs. induction 1 as [|field rest [value Hl] _ IH]; simpl; intros p Hc;
    [eauto|].
  rewrite (lookup_attr_map (fun v => (v, f v))).
  rewrite (lookup_attr_map (fun v => (v, g v))) in Hc.
  rewrite Hl in *. simpl in *.
  assert (Hv : always_visits (f value) (g value)).
  { apply lookup_attr_In in Hl. rewrite Forall_forall in Hattrs. exact (Hattrs _ Hl). }
  assert (Hgen :
            hooks_return visit_hook
              (g value (add_attribute p field)
               ++ calls_of_fields rest
                    (map (fun nv => (fst nv, (snd nv, g (snd nv)))) attrs) p) ->
            exists found,
              match f value (add_attribute p field) with
              | Some below =>
                  match visit_fields rest
                          (map (fun nv => (fst nv, (snd nv, f (snd nv)))) attrs) p with
                  | Some more => Some ((add_attribute p field, value) :: below ++ more)
                  | None => None
                  end
              | None => None
              end = Some found).
  { intros Hcalls. apply Forall_app in Hcalls as [Hc1 Hc2].
    destruct (Hv _ Hc1) as [below ->]. destruct (IH p Hc2) as [more ->]. eauto. }
  destruct value; try (apply Hgen; exact Hc).
  apply IH. exact Hc.
Qed.

Lemma Forall_impl_in {A : Type} (P Q : A -> Prop) (xs : list A) :
  (forall x, In x xs -> P x -> Q x) -> Forall P xs -> Forall Q xs.
Proof.
  intros HPQ HP. apply Forall_forall. intros x Hin.
  rewrite Forall_forall in HP. auto.
Qed.

Lemma visit_node_total (obj : PyValue) :
  fields_present obj = true ->
  always_visits (_visit_node_unfiltered visit_hook obj) (hook_calls obj).
Proof.
  induction obj using PyValue_nested_ind; intros Hp p Hc; simpl in Hc |- *; eauto;
    try (simpl in Hp; rewrite forallb_forall in Hp;
         apply (@visit_items_total (_visit_node_unfiltered visit_hook) hook_calls);
         [|exact Hc];
         eapply Forall_impl_in; [|exact H]; intros item Hin Hitem;
         apply Hitem, Hp, Hin).
  - simpl in Hp. rewrite forallb_forall in Hp.
    apply (@visit_dict_total (_visit_node_unfiltered visit_hook) hook_calls); [|exact Hc].
    eapply Forall_impl_in; [|exact H]. intros kv Hin [_ Hkv]. apply Hkv, Hp, Hin.
  - destruct (cls_hook c) as [hook|]; [|eauto].
    inversion Hc as [|? ? Hcall _]; subst. exact Hcall.
  - simpl in Hp. destruct (obj_hook info) as [hook|].
    { inversion Hc as [|? ? Hcall _]; subst. exact Hcall. }
    apply andb_true_iff in Hp as [Hfields Hattrs].
    rewrite forallb_forall in Hfields, Hattrs.
    apply (@visit_fields_total (_visit_node_unfiltered visit_hook) hook_calls);
      [| |exact Hc].
    + eapply Forall_impl_in; [|exact H]. intros nv Hin Hnv. apply Hnv, Hattrs, Hin.
    + apply Forall_forall. intros field Hfield.
      apply lookup_attr_existsb, Hfields, Hfield.
Qed.

Lemma visit_items_calls (f : PyValue -> visitor)
    (g : PyValue -> AbstractTreePath -> list hook_call) (items : list PyValue) :
  Forall (fun item => calls_returned (f item) (g item)) items ->
  forall p i found,
    visit_items (map (fun item => (item, f item)) items) p i = Some found ->
    hooks_return visit_hook (calls_of_items (map g items) p i).
Proof.
  induction 1 as [|item rest Hv _ IH]; simpl; intros p i found Hf; [constructor|].
  destruct (f item _) as [below|] eqn:Hb; [|discriminate].
  destruct (visit_items _ p (S i)) as [more|] eqn:Hm; [|discriminate].
  apply Forall_app. split; [eapply Hv, Hb | eapply IH, Hm].
Qed.

Lemma visit_dict_calls (f : PyValue -> visitor)
    (g : PyValue -> AbstractTreePath -> list hook_call)
    (items : list (PyValue * PyValue)) :
  Forall (fun kv => calls_returned (f (snd kv)) (g (snd kv))) items ->
  forall p found,
    visit_dict (map (fun kv => (fst kv, (snd kv, f (snd kv)))) items) p = Some found ->
    hooks_return visit_hook
      (calls_of_dict (map (fun kv => (fst kv, g (snd kv))) items) p).
Proof.
  induction 1 as [|[key value] rest Hv _ IH]; simpl; intros p found Hf; [constructor|].
  destruct (f value _) as [below|] eqn:Hb; [|discriminate].
  destruct (visit_dict _ p) as [more|] eqn:Hm; [|discriminate].
  apply Forall_app. split; [eapply Hv, Hb | eapply IH, Hm].
Qed.

Lemma visit_fields_calls (f : PyValue -> visitor)
    (g : PyValue -> AbstractTreePath -> list hook_call)
    (attrs : list (string * PyValue)) :
  Forall (fun nv => calls_returned (f (snd nv)) (g (snd nv))) attrs ->
  forall fields p found,
    visit_fields fields (map (fun nv => (fst nv, (snd nv, f (snd nv)))) attrs) p
    = Some found ->
    hooks_return visit_hook
      (calls_of_fields fields
         (map (fun nv => (fst nv, (snd nv, g (snd nv)))) attrs) p).
Proof.
  intros Hattrs fields.
  induction fields as [|field rest IH]; simpl; intros p found Hf; [constructor|].
  rewrite (lookup_attr_map (fun v => (v, f v))) in Hf.
  rewrite (lookup_attr_map (fun v => (v, g v))).
  destruct (lookup_attr attrs field) as [value|] eqn:Hl; simpl in *; [|discriminate].
  assert (Hv : calls_returned (f value) (g value)).
  { apply lookup_attr_In in Hl. rewrite Forall_forall in Hattrs. exact (Hattrs _ Hl). }
  assert (Hgen :
            match f value (add_attribute p field) with
            | Some below =>
                match visit_fields rest
                        (map (fun nv => (fst nv, (snd nv, f (snd nv)))) attrs) p with
                | Some more => Some ((add_attribute p field, value) :: below ++ more)
                | None => None
                end
            | None => None
            end = Some found ->
            hooks_return visit_hook
              (g value (add_attribute p field)
               ++ calls_of_fields rest
                    (map (fun nv => (fst nv, (snd nv, g (snd nv)))) attrs) p)).
  { intros Hc.
    destruct (f value _) as [below|] eqn:Hb; [|discriminate].
    destruct (visit_fields rest _ p) as [more|] eqn:Hm; [|discriminate].
    apply Forall_app. split; [eapply Hv, Hb | eapply IH, Hm]. }
  destruct value; try (apply Hgen; exact Hf).
  eapply IH, Hf.
Qed.

Lemma visit_node_calls (obj : PyValue) :
  calls_returned (_visit_node_unfiltered visit_hook obj) (hook_calls obj).
Proof.
  induction obj using PyValue_nested_ind; intros p found Hf; simpl in Hf |- *;
    try (constructor; fail);
    try (eapply (@visit_items_calls (_visit_node_unfiltered visit_hook) hook_calls);
         [exact H | exact Hf]).
  - eapply (@visit_dict_calls (_visit_node_unfiltered visit_hook) hook_calls);
      [|exact Hf].
    eapply Forall_impl; [|exact H]. simpl. intros kv [_ Hkv]. exact Hkv.
  - destruct (cls_hook c) as [hook|]; [|constructor].
    constructor; [eauto | constructor].
  - destruct (obj_hook info) as [hook|].
    + constructor; [eauto | constructor].
    + eapply (@visit_fields_calls (_visit_node_unfiltered visit_hook) hook_calls);
        [exact H | exact Hf].
Qed.
End VisitorReturns.

Lemma filter_pairs_returns (included_types : list pyclass) (unfiltered_pairs : pairs) :
  forall filtered_map,
    (exists m, filter_pairs included_types unfiltered_pairs filtered_map = Some m)
    <-> Forall (fun entry => instance_check (snd entry) included_types <> None)
               unfiltered_pairs.
Proof.
  induction unfiltered_pairs as [|[q v] rest IH]; simpl; intros filtered_map.
  - split; [constructor | eauto].
  - destruct (instance_check v included_types) as [[|]|] eqn:Hc.
    + rewrite IH. split.
      * intros Hr. constructor; [simpl; congruence | exact Hr].
      * intros Hr. inversion Hr; assumption.
    + rewrite IH. split.
      * intros Hr. constructor; [simpl; congruence | exact Hr].
      * intros Hr. inversion Hr; assumption.
    + split.
      * intros [m Hm]. discriminate.
      * intros Hr. inversion Hr as [|? ? Hv _]; subst. simpl in Hv. congruence.
Qed.

Lemma instance_check_no_protocol (value : PyValue) (classes : list pyclass) :
  existsb cls_protocol classes = false -> instance_check value classes <> None.
Proof.
  induction classes as [|cls rest IH]; simpl; [discriminate|].
  destruct (cls_protocol cls); [discriminate|]. simpl.
  destruct (isinstance value cls); [discriminate | exact IH].
Qed.

(** Two trees on which [visit_tree] raises [TypeError]: a list holding the
    class object [Node] itself, whose [_visit_node_unfiltered_] is then
    called without its [path] argument, and a list of one int filtered by a
    Protocol class that is not runtime-checkable. *)
Lemma visit_tree_raises_on :
  visit_tree (fun hook p => if Nat.eqb hook 1 then None else Some []) []
    (VList [VClass Node_cls [object_cls]]) = None
  /\ visit_tree (fun _ _ => Some []) [HasGreprValidate] (VList [VInt 1]) = None.
Proof. split; reflexivity. Qed.



(** ** enforce_type: verdicts and errors in general                       *)

(** X11.  Whether [enforce_type] returns or raises is decided by the value
    and the annotation alone: [path], [condition] and [notset_as_special]
    only shape the error. *)
Theorem enforce_type_verdict (rt : PyRuntime) (expected : texpr) (value : PyValue)
    (path path' : AbstractTreePath) (condition condition' : option string)
    (notset_as_special notset_as_special' : bool) :
  enforce_type expected value path condition notset_as_special = Returns
  <-> enforce_type expected value path' condition' notset_as_special' = Returns.
Proof.
  rewrite <- !returns_true_iff.
  rewrite (enforce_type_verdict_stable expected value path condition notset_as_special
             path' condition' notset_as_special').
  reflexivity.
Qed.

Lemma prefix_app (a b : string) : String.prefix a (a ++ b) = true.
Proof.
  induction a as [|ch a IH]; simpl; [destruct b; reflexivity|].
  destruct (ascii_dec ch ch); [exact IH | congruence].
Qed.



Lemma existsb_permutation {A : Type} (f : A -> bool) (xs ys : list A) :
  Permutation xs ys -> existsb f xs = existsb f ys.
Proof.
  induction 1; simpl; try congruence.
  destruct (f x), (f y); reflexivity.
Qed.

(** The loop [for arm in arms: try ... return / except
    GU_TypeValidationError: continue] ends at the first arm whose outcome
    is not a validation error. *)
Lemma try_arms_ends {A : Type} (f : A -> outcome) (e0 : GU_PathValidationError)
    (o : outcome) (xs : list A) :
  (forall e, o <> Raises e) ->
  (try_arms (map f xs) (Raises e0) = o
   <-> exists before x after,
         xs = before ++ x :: after
         /\ Forall (fun y => exists e, f y = Raises e) before
         /\ f x = o).
Proof.
  intros Ho. induction xs as [|x xs IH]; simpl.
  - split.
    + intros H. exfalso. exact (Ho e0 (eq_sym H)).
    + intros ([|b before] & y & after & Hxs & _); discriminate Hxs.
  - destruct (f x) as [|e|exc] eqn:Hx.
    + split.
      * intros <-. exists [], x, xs. repeat split; [constructor | exact Hx].
      * intros ([|b before] & y & after & Hxs & Hbefore & Hy); injection Hxs as <- ->.
        -- congruence.
        -- inversion Hbefore as [|? ? [e He] _]; subst. congruence.
    + rewrite IH. split.
      * intros (before & y & after & -> & Hbefore & Hy).
        exists (x :: before), y, after. repeat split; [|exact Hy].
        constructor; [eauto | exact Hbefore].
      * intros ([|b before] & y & after & Hxs & Hbefore & Hy); injection Hxs as <- ->.
        -- exfalso. apply (Ho e). congruence.
        -- exists before, y, after. repeat split; [|exact Hy].
           inversion Hbefore; assumption.
    + split.
      * intros <-. exists [], x, xs. repeat split; [constructor | exact Hx].
      * intros ([|b before] & y & after & Hxs & Hbefore & Hy); injection Hxs as <- ->.
        -- congruence.
        -- inversion Hbefore as [|? ? [e He] _]; subst. congruence.
Qed.

Lemma try_arms_all_rejected {A : Type} (f : A -> outcome) (e0 e : GU_PathValidationError)
    (xs : list A) :
  try_arms (map f xs) (Raises e0) = Raises e
  <-> Forall (fun y => exists e', f y = Raises e') xs /\ e = e0.
Proof.
  induction xs as [|x xs IH]; simpl.
  - split; [intros H; injection H as <-; split; [constructor | reflexivity]
           | intros [_ ->]; reflexivity].
  - destruct (f x) as [|e'|exc] eqn:Hx.
    + split; [discriminate|]. intros [H _]. inversion H as [|? ? [e1 He1] _]; subst.
      congruence.
    + rewrite IH. split.
      * intros [H ->]. split; [constructor; eauto | reflexivity].
      * intros [H ->]. inversion H; subst. split; [assumption | reflexivity].
    + split; [discriminate|]. intros [H _]. inversion H as [|? ? [e1 He1] _]; subst.
      congruence.
Qed.



Lemma and_then_returns (a b : outcome) : a ;; b = Returns <-> a = Returns /\ b = Returns.
Proof. destruct a; simpl; split; try tauto; intros H; try discriminate; destruct H; discriminate. Qed.

Section ContainerVerdicts.
Context {rt : PyRuntime}.

(** [value] passes the annotation [t], stated at the default arguments of
    [enforce_type]. *)
Definition passes (t : texpr) (value : PyValue) : Prop :=
  enforce_type t value empty_path None true = Returns.

Lemma passes_iff (t : texpr) (value : PyValue) p c ns :
  enforce_type t value p c ns = Returns <-> passes t value.
Proof.
  unfold passes. rewrite <- !returns_true_iff.
  rewrite (enforce_type_verdict_stable t value p c ns empty_path None true).
  reflexivity.
Qed.

Lemma enforce_items_passes (t : texpr) p c ns i (items : list PyValue) :
  enforce_items (enforce_type t) p c ns i items = Returns <-> Forall (passes t) items.
Proof.
  revert i. induction items as [|item rest IH]; intros i; simpl.
  - split; [constructor | reflexivity].
  - rewrite and_then_returns, IH, passes_iff. split.
    + intros [H1 H2]. constructor; assumption.
    + intros H. inversion H; subst. split; assumption.
Qed.

Lemma enforce_zip_passes (args : list texpr) p c ns :
  forall i (items : list PyValue),
    List.length items = List.length args ->
    (enforce_zip (map enforce_type args) p c ns i items = Returns
     <-> Forall2 (fun item t => passes t item) items args).
Proof.
  induction args as [|t args IH]; intros i [|item rest] Hlen; simpl in *;
    try discriminate.
  - split; [constructor | reflexivity].
  - rewrite and_then_returns, (IH (S i) rest), passes_iff by lia. split.
    + intros [H1 H2]. constructor; assumption.
    + intros H. inversion H; subst. split; assumption.
Qed.

Lemma enforce_dict_items_passes (K V : texpr) p kp c ns i
    (items : list (PyValue * PyValue)) :
  enforce_dict_items (enforce_type K) (enforce_type V) p kp c ns i items = Returns
  <-> Forall (fun kv => passes K (fst kv) /\ passes V (snd kv)) items.
Proof.
  revert i. induction items as [|[k v] rest IH]; intros i; simpl.
  - split; [constructor | reflexivity].
  - rewrite !and_then_returns, IH, !passes_iff. split.
    + intros (H1 & H2 & H3). constructor; [split|]; assumption.
    + intros H. inversion H as [|? ? [H1 H2] H3]; subst. auto.
Qed.

End ContainerVerdicts.

Lemma Forall2_length_eqb {A B : Type} (P : A -> B -> Prop) (xs : list A) (ys : list B) :
  Forall2 P xs ys -> Nat.eqb (List.length xs) (List.length ys) = true.
Proof. intros H. apply Nat.eqb_eq. induction H; simpl; congruence. Qed.

(** X14.  [tuple[T, ...]] accepts exactly the tuples all of whose items
    pass [T]; a tuple type with one or more positional element types
    accepts exactly the tuples of that length whose items pass the element
    type at their position. *)
Theorem enforce_type_tuple (rt : PyRuntime) (args : list texpr) (value : PyValue)
    (path : AbstractTreePath) (condition : option string) (notset_as_special : bool) :
  (forall T,
     enforce_type (TGeneric OTuple [T; TEllipsis]) value path condition notset_as_special
     = Returns
     <-> exists items, value = VTuple items /\ Forall (passes T) items)
  /\ (is_repeated_tuple args = false ->
      Nat.eqb (List.length args) 0 = false ->
      (enforce_type (TGeneric OTuple args) value path condition notset_as_special
       = Returns
       <-> exists items, value = VTuple items
                         /\ Forall2 (fun item t => passes t item) items args)).
Proof.
  split.
  - intros T. destruct value; cbn [enforce_type is_repeated_tuple]; cbv zeta;
      try (split; [discriminate | intros (l & Hl & _); discriminate]).
    cbn [map arg_or_any nth]. rewrite enforce_items_passes. split.
    + intros H. exists items. auto.
    + intros (l & Hl & H). injection Hl as ->. exact H.
  - intros Hrep Hargs. destruct value; cbn [enforce_type]; cbv zeta;
      try (split; [discriminate | intros (l & Hl & _); discriminate]).
    rewrite Hrep, Hargs. cbn [negb].
    destruct (Nat.eqb (List.length items) (List.length args)) eqn:Hlen; cbn [negb].
    + apply Nat.eqb_eq in Hlen. rewrite (enforce_zip_passes _ _ _ _ _ _ Hlen). split.
      * intros H. exists items. auto.
      * intros (l & Hl & H). injection Hl as ->. exact H.
    + split; [discriminate|]. intros (l & Hl & H). injection Hl as ->.
      apply Forall2_length_eqb in H. congruence.
Qed.

Lemma enforce_type_tuple_witness :
  enforce_type (rt := sample_runtime) (TGeneric OTuple [TClass int_cls; TClass str_cls])
    (VTuple [VBool true; VStr "x"]) empty_path None false = Returns.
Proof.
  apply (proj2 (enforce_type_tuple sample_runtime [TClass int_cls; TClass str_cls]
                  (VTuple [VBool true; VStr "x"]) empty_path None false)
           eq_refl eq_refl).
  exists [VBool true; VStr "x"]. split; [reflexivity|].
  repeat constructor.
Defined.

(** X15.  [dict[K, V]] accepts exactly the dicts all of whose keys pass [K]
    and all of whose values pass [V]; on a dict, [Mapping[K, V]] runs the
    checks of [dict[K, V]] and ends as it does; the unparametrised [Dict]
    and [Mapping] accept every dict. *)
Theorem enforce_type_dict_verdict (rt : PyRuntime) (K V : texpr) (value : PyValue)
    (path : AbstractTreePath) (condition : option string) (notset_as_special : bool) :
  (enforce_type (TGeneric ODict [K; V]) value path condition notset_as_special = Returns
   <-> exists items, value = VDict items
                     /\ Forall (fun kv => passes K (fst kv) /\ passes V (snd kv)) items)
  /\ (forall items,
        enforce_type (TGeneric OMapping [K; V]) (VDict items) path condition
          notset_as_special
        = enforce_type (TGeneric ODict [K; V]) (VDict items) path condition
            notset_as_special)
  /\ (forall items,
        enforce_type (TGeneric ODict []) (VDict items) path condition notset_as_special
        = Returns
        /\ enforce_type (TGeneric OMapping []) (VDict items) path condition
             notset_as_special
           = Returns).
Proof.
  split; [|split].
  - destruct value; cbn [enforce_type]; cbv zeta;
      try (split; [discriminate | intros (l & Hl & _); discriminate]).
    cbn [map arg_or_any nth]. rewrite enforce_dict_items_passes. split.
    + intros H. exists items. auto.
    + intros (l & Hl & H). injection Hl as ->. exact H.
  - intros items. reflexivity.
  - intros items.
    assert (H : forall i,
              enforce_dict_items check_any check_any path (add_attribute path "keys()")
                condition notset_as_special i items = Returns).
    { induction items as [|[k v] rest IH]; intros i; simpl; auto. }
    split; cbn [enforce_type map arg_or_any nth]; cbv zeta; apply H.
Qed.

(** ** The path of an error leads to a value inside the checked value     *)

Section ErrorPathResolves.
Context {rt : PyRuntime}.
Variable builtin_getattr : PyValue -> string -> option PyValue.
Variable user_getitem : PyValue -> PyValue -> option PyValue.

(** The path of [e] is [p] followed by segments that can be walked from
    [obj]. *)
Definition located_in (obj : PyValue) (p : AbstractTreePath)
    (e : GU_PathValidationError) : Prop :=
  exists suffix w,
    err_path e = mk_path (path p ++ suffix) (start_with_dot p)
    /\ get_from builtin_getattr user_getitem [] suffix obj = Value w.

Definition locates_errors (chk : checker) : Prop :=
  forall v p c ns e, navigable v = true -> chk v p c ns = Raises e -> located_in v p e.

Lemma located_here (obj : PyValue) (p : AbstractTreePath) kind msg c :
  located_in obj p (mk_error kind p msg c).
Proof.
  exists [], obj. split; [|reflexivity]. simpl. rewrite app_nil_r. destruct p; reflexivity.
Qed.

Lemma located_below (obj child : PyValue) (item : segment) (p : AbstractTreePath) e :
  get_step builtin_getattr user_getitem item obj = Some child ->
  located_in child (mk_path (path p ++ [item]) (start_with_dot p)) e ->
  located_in obj p e.
Proof.
  intros Hstep (suffix & w & Hpath & Hget). exists (item :: suffix), w. split.
  - rewrite Hpath. simpl. rewrite <- app_assoc. reflexivity.
  - simpl. rewrite Hstep. rewrite get_from_walked. rewrite Hget. reflexivity.
Qed.

Lemma locates_errors_any : locates_errors check_any.
Proof. intros v p c ns e _ H. discriminate. Qed.

Lemma locates_errors_nth (checks : list checker) (i : nat) :
  Forall locates_errors checks -> locates_errors (arg_or_any checks i).
Proof.
  unfold arg_or_any. intros H. revert i.
  induction H as [|chk checks Hc _ IH]; intros [|i]; simpl;
    auto using locates_errors_any.
Qed.

Lemma enforce_items_located (obj : PyValue) (elem_t : checker) :
  locates_errors elem_t ->
  forall items i0,
    (forall k item, nth_error items k = Some item ->
       navigable item = true
       /\ get_step builtin_getattr user_getitem
            (ATPathIndexOrKey (VInt (Z.of_nat (i0 + k)))) obj = Some item) ->
    forall p c ns e,
      enforce_items elem_t p c ns i0 items = Raises e -> located_in obj p e.
Proof.
  intros Hl items. induction items as [|item rest IH]; intros i0 H p c ns e He;
    simpl in He; [discriminate|].
  destruct (H 0%nat item eq_refl) as [Hnav Hstep]. rewrite Nat.add_0_r in Hstep.
  apply and_then_raises in He as [He | [_ He]].
  - exact (@located_below obj item _ p e Hstep (Hl _ _ _ _ _ Hnav He)).
  - apply (IH (S i0)) with (c := c) (ns := ns); [|exact He].
    intros k item' Hk. rewrite Nat.add_succ_comm. apply (H (S k)). exact Hk.
Qed.

Lemma enforce_zip_located (obj : PyValue) (args : list checker) :
  Forall locates_errors args ->
  forall items i0,
    (forall k item, nth_error items k = Some item ->
       navigable item = true
       /\ get_step builtin_getattr user_getitem
            (ATPathIndexOrKey (VInt (Z.of_nat (i0 + k)))) obj = Some item) ->
    forall p c ns e,
      enforce_zip args p c ns i0 items = Raises e -> located_in obj p e.
Proof.
  induction 1 as [|chk args Hc _ IH]; intros [|item rest] i0 H p c ns e He;
    simpl in He; try discriminate.
  destruct (H 0%nat item eq_refl) as [Hnav Hstep]. rewrite Nat.add_0_r in Hstep.
  apply and_then_raises in He as [He | [_ He]].
  - exact (@located_below obj item _ p e Hstep (Hc _ _ _ _ _ Hnav He)).
  - apply (IH rest (S i0)) with (c := c) (ns := ns); [|exact He].
    intros k item' Hk. rewrite Nat.add_succ_comm. apply (H (S k)). exact Hk.
Qed.

Lemma enforce_dict_items_located (all_items : list (PyValue * PyValue))
    (key_t val_t : checker) :
  locates_errors key_t -> locates_errors val_t ->
  distinct_keys (map fst all_items) = true ->
  forall items i0,
    (forall k kv, nth_error items k = Some kv ->
       navigable (fst kv) = true /\ navigable (snd kv) = true
       /\ nth_error all_items (i0 + k) = Some kv) ->
    forall p c ns e,
      enforce_dict_items key_t val_t p (add_attribute p "keys()") c ns i0 items
      = Raises e ->
      located_in (VDict all_items) p e.
Proof.
  intros Hk Hv Hd items.
  induction items as [|[key value] rest IH]; intros i0 H p c ns e He; simpl in He;
    [discriminate|].
  destruct (H 0%nat (key, value) eq_refl) as (Hnk & Hnv & Hnth).
  rewrite Nat.add_0_r in Hnth. cbn [fst snd] in Hnk, Hnv.
  apply and_then_raises in He as [He | [_ He]].
  - apply (@located_below (VDict all_items) (VList (map fst all_items))
             (ATPathAttribute "keys()") p e); [reflexivity|].
    apply (@located_below (VList (map fst all_items)) key
             (ATPathIndexOrKey (VInt (Z.of_nat i0)))
             (mk_path (path p ++ [ATPathAttribute "keys()"]) (start_with_dot p)) e).
    + simpl. apply tuple_getitem_nat. rewrite nth_error_map, Hnth. reflexivity.
    + exact (Hk _ _ _ _ _ Hnk He).
  - apply and_then_raises in He as [He | [_ He]].
    + apply (@located_below (VDict all_items) value (ATPathIndexOrKey key) p e).
      * simpl. apply dict_getitem_distinct; [exact Hd|].
        eapply nth_error_In, Hnth.
      * exact (Hv _ _ _ _ _ Hnv He).
    + apply (IH (S i0)) with (c := c) (ns := ns); [|exact He].
      intros k kv Hkv. rewrite Nat.add_succ_comm. apply (H (S k)). exact Hkv.
Qed.

End ErrorPathResolves.

Section ErrorPathResolvesMain.
Context {rt : PyRuntime}.
Variable builtin_getattr : PyValue -> string -> option PyValue.
Variable user_getitem : PyValue -> PyValue -> option PyValue.

Let step := get_step builtin_getattr user_getitem.

Lemma steps_into_list (items : list PyValue) :
  forallb navigable items = true ->
  forall k item, nth_error items k = Some item ->
    navigable item = true
    /\ step (ATPathIndexOrKey (VInt (Z.of_nat (0 + k)))) (VList items) = Some item.
Proof.
  intros Hnav k item Hk. rewrite forallb_forall in Hnav. split.
  - eapply Hnav, nth_error_In, Hk.
  - simpl. apply tuple_getitem_nat, Hk.
Qed.

Lemma steps_into_tuple (items : list PyValue) :
  forallb navigable items = true ->
  forall k item, nth_error items k = Some item ->
    navigable item = true
    /\ step (ATPathIndexOrKey (VInt (Z.of_nat (0 + k)))) (VTuple items) = Some item.
Proof.
  intros Hnav k item Hk. rewrite forallb_forall in Hnav. split.
  - eapply Hnav, nth_error_In, Hk.
  - simpl. apply tuple_getitem_nat, Hk.
Qed.

Lemma steps_into_str (s : string) :
  forall k item,
    nth_error (map (fun c => VStr (String c EmptyString)) (list_ascii_of_string s)) k
    = Some item ->
    navigable item = true
    /\ step (ATPathIndexOrKey (VInt (Z.of_nat (0 + k)))) (VStr s) = Some item.
Proof.
  intros k item Hk. rewrite nth_error_map in Hk.
  destruct (nth_error (list_ascii_of_string s) k) as [c|] eqn:Hc; [|discriminate].
  injection Hk as <-. split; [reflexivity|].
  simpl. rewrite (tuple_getitem_nat _ _ Hc). reflexivity.
Qed.

Lemma steps_into_bytes (b : list Byte.byte) :
  forall k item,
    nth_error (map (fun x => VInt (Z.of_N (Byte.to_N x))) b) k = Some item ->
    navigable item = true
    /\ step (ATPathIndexOrKey (VInt (Z.of_nat (0 + k)))) (VBytes b) = Some item.
Proof.
  intros k item Hk. rewrite nth_error_map in Hk.
  destruct (nth_error b k) as [x|] eqn:Hx; [|discriminate].
  injection Hk as <-. split; [reflexivity|].
  simpl. rewrite (tuple_getitem_nat _ _ Hx). reflexivity.
Qed.

Lemma steps_into_dict (items : list (PyValue * PyValue)) :
  forallb (fun kv => navigable (fst kv) && navigable (snd kv)) items = true ->
  forall k kv, nth_error items k = Some kv ->
    navigable (fst kv) = true /\ navigable (snd kv) = true
    /\ nth_error items (0 + k) = Some kv.
Proof.
  intros Hnav k kv Hk. rewrite forallb_forall in Hnav.
  pose proof (Hnav _ (nth_error_In _ _ Hk)) as H.
  apply andb_true_iff in H as [H1 H2]. auto.
Qed.

Ltac located_here_tac :=
  match goal with
  | H : Raises _ = Raises _ |- _ =>
      injection H as H; rewrite <- H; apply located_here
  | H : Returns = Raises _ |- _ => discriminate H
  | H : RaisesOther _ = Raises _ |- _ => discriminate H
  end.

Lemma enforce_type_locates (expected : texpr) :
  iterable_free expected = true ->
  locates_errors builtin_getattr user_getitem (enforce_type expected).
Proof.
  induction expected using texpr_nested_ind; intros Hfree v p cd ns e Hnav He.
  - discriminate.
  - destruct bound as [b|]; simpl in He, Hfree;
      [apply (H b eq_refl Hfree _ _ _ _ _ Hnav He) | discriminate].
  - simpl in He. apply try_arms_raises in He. located_here_tac.
  - simpl in He. destruct v; simpl in He; try located_here_tac.
    destruct (is_object _); [discriminate|].
    destruct (subclass_check _ _ _) as [[|]|]; located_here_tac.
  - assert (Hm : Forall (locates_errors builtin_getattr user_getitem)
                   (map enforce_type args)).
    { destruct o; simpl in Hfree; try discriminate Hfree;
        try (rewrite forallb_forall in Hfree; rewrite Forall_forall in H;
             apply Forall_forall; intros chk Hc;
             apply in_map_iff in Hc as (t & <- & Hin); apply (H _ Hin), Hfree, Hin). }
    pose proof (locates_errors_nth 0 Hm) as H0.
    pose proof (locates_errors_nth 1 Hm) as H1.
    destruct o; simpl in He.
    + destruct v; simpl in He; try located_here_tac.
      simpl in Hnav. apply andb_true_iff in Hnav as [Hd Hn].
      exact (@enforce_dict_items_located builtin_getattr user_getitem items _ _
               H0 H1 Hd items 0%nat (steps_into_dict items Hn) p cd ns e He).
    + destruct v; simpl in He; try located_here_tac. simpl in Hnav.
      destruct (is_repeated_tuple args);
        [exact (@enforce_items_located builtin_getattr user_getitem (VTuple items) _ H0 items 0%nat
                 (steps_into_tuple items Hnav) p cd ns e He)|].
      destruct (negb (Nat.eqb (List.length args) 0)); [|discriminate].
      destruct (negb _); simpl in He; [located_here_tac|].
      exact (@enforce_zip_located builtin_getattr user_getitem (VTuple items) _ Hm
               items 0%nat (steps_into_tuple items Hnav) p cd ns e He).
    + destruct v; simpl in He; try located_here_tac. simpl in Hnav.
      exact (@enforce_items_located builtin_getattr user_getitem (VList items) _ H0 items 0%nat
                 (steps_into_list items Hnav) p cd ns e He).
    + destruct v; simpl in He; try located_here_tac. discriminate Hnav.
    + destruct v; simpl in He; try located_here_tac. discriminate Hnav.
    + destruct (negb (callable v)); located_here_tac.
    + destruct v; simpl in He; try located_here_tac.
      simpl in Hnav. apply andb_true_iff in Hnav as [Hd Hn].
      exact (@enforce_dict_items_located builtin_getattr user_getitem items _ _
               H0 H1 Hd items 0%nat (steps_into_dict items Hn) p cd ns e He).
    + destruct v; simpl in He; try located_here_tac.
      * exact (@enforce_items_located builtin_getattr user_getitem (VStr s) _ H0 _ 0%nat
                 (steps_into_str s) p cd ns e He).
      * exact (@enforce_items_located builtin_getattr user_getitem (VBytes b) _ H0 _ 0%nat
                 (steps_into_bytes b) p cd ns e He).
      * simpl in Hnav.
        exact (@enforce_items_located builtin_getattr user_getitem (VList items) _ H0 items 0%nat
                 (steps_into_list items Hnav) p cd ns e He).
      * simpl in Hnav.
        exact (@enforce_items_located builtin_getattr user_getitem (VTuple items) _ H0 items 0%nat
                 (steps_into_tuple items Hnav) p cd ns e He).
    + simpl in Hfree. discriminate Hfree.
    + destruct (cls_protocol c); [discriminate|].
      destruct (isinstance v c); located_here_tac.
  - simpl in He. destruct (negb _); located_here_tac.
  - simpl in He. destruct (pyclass_eqb c ABCCallable).
    + destruct (negb (callable v)); located_here_tac.
    + destruct (cls_protocol c); [discriminate|].
      destruct (isinstance v c); located_here_tac.
  - simpl in He. destruct (instance_check v cs) as [[|]|]; located_here_tac.
  - simpl in He. located_here_tac.
  - simpl in He. located_here_tac.
Qed.

End ErrorPathResolvesMain.

(** X16.  When [enforce_type], called at the empty path on a value built
    from scalars, lists, tuples and dicts with an annotation that has no
    [Iterable[...]] inside, raises, the path of the error can be looked up
    in the value: [e.path.get_in_tree(value)] does not fail.  A failing
    dict key is reached through the ["keys()"] attribute segment. *)
Theorem enforce_type_error_path_resolves (rt : PyRuntime)
    (builtin_getattr : PyValue -> string -> option PyValue)
    (user_getitem : PyValue -> PyValue -> option PyValue)
    (expected : texpr) (value : PyValue) (condition : option string)
    (notset_as_special : bool) (e : GU_PathValidationError) :
  navigable value = true ->
  iterable_free expected = true ->
  enforce_type expected value empty_path condition notset_as_special = Raises e ->
  exists w, get_in_tree builtin_getattr user_getitem (err_path e) value VNotSet = Value w.
Proof.
  intros Hnav Hfree He.
  destruct (enforce_type_locates builtin_getattr user_getitem expected Hfree
              _ _ _ _ Hnav He) as (suffix & w & Hpath & Hget).
  exists w. rewrite Hpath. unfold get_in_tree. simpl. rewrite Hget. reflexivity.
Qed.

Lemma enforce_type_error_path_resolves_witness :
  exists w,
    get_in_tree (fun _ _ => None) (fun _ _ => None)
      (mk_path [ATPathIndexOrKey (VStr "a"); ATPathAttribute "keys()";
                ATPathIndexOrKey (VInt 1)] true)
      (VDict [(VStr "a", VDict [(VStr "x", VInt 1); (VInt 2, VInt 3)])])
      VNotSet = Value w.
Proof.
  apply (enforce_type_error_path_resolves sample_runtime
           (fun _ _ => None) (fun _ _ => None)
           (TGeneric ODict [TClass str_cls;
                            TGeneric ODict [TClass str_cls; TClass int_cls]])
           (VDict [(VStr "a", VDict [(VStr "x", VInt 1); (VInt 2, VInt 3)])])
           None true
           (e := mk_error GU_TypeValidationError
                   (mk_path [ATPathIndexOrKey (VStr "a"); ATPathAttribute "keys()";
                             ATPathIndexOrKey (VInt 1)] true)
                   "must be of type str not int" None));
    reflexivity.
Defined.

(** ** enforce_argument_types                                             *)

Lemma check_arguments_returns {rt : PyRuntime} (type_hints : list (string * texpr))
    (skip_first : bool) (arguments : list (string * PyValue)) :
  forall i,
    check_arguments type_hints skip_first i arguments = Returns
    <-> forall k name value expected_type,
          nth_error arguments k = Some (name, value) ->
          skip_first && Nat.eqb (i + k) 0 = false ->
          lookup_attr type_hints name = Some expected_type ->
          is_typevar_hint expected_type = false ->
          passes expected_type value.
Proof.
  induction arguments as [|[name value] rest IH]; intros i; simpl.
  - split; [intros _ [|k]; discriminate | reflexivity].
  - rewrite and_then_returns, IH. split.
    + intros [Hhead Htail] [|k] n v t Hk Hskip Hhint Htv; simpl in Hk.
      * injection Hk as <- <-. rewrite Nat.add_0_r in Hskip.
        rewrite Hskip, Hhint, Htv in Hhead. apply passes_iff in Hhead. exact Hhead.
      * apply (Htail k n v t Hk); try assumption.
        rewrite Nat.add_succ_comm. exact Hskip.
    + intros H. split.
      * destruct (skip_first && Nat.eqb i 0) eqn:Hskip; [reflexivity|].
        destruct (lookup_attr type_hints name) as [t|] eqn:Hhint; [|reflexivity].
        destruct (is_typevar_hint t) eqn:Htv; [reflexivity|].
        apply passes_iff. apply (H 0%nat name value t eq_refl); try assumption.
        rewrite Nat.add_0_r. exact Hskip.
      * intros k n v t Hk Hskip Hhint Htv.
        apply (H (S k) n v t Hk); try assumption.
        rewrite <- Nat.add_succ_comm. exact Hskip.
Qed.

Lemma check_arguments_raises {rt : PyRuntime} (type_hints : list (string * texpr))
    (skip_first : bool) (arguments : list (string * PyValue)) :
  forall i e,
    check_arguments type_hints skip_first i arguments = Raises e ->
    exists name value expected_type,
      In (name, value) arguments
      /\ lookup_attr type_hints name = Some expected_type
      /\ is_typevar_hint expected_type = false
      /\ enforce_type expected_type value (argument_path name) None true = Raises e.
Proof.
  induction arguments as [|[name value] rest IH]; intros i e; simpl; [discriminate|].
  intros H. apply and_then_raises in H as [H | [_ H]].
  - destruct (skip_first && Nat.eqb i 0); [discriminate|].
    destruct (lookup_attr type_hints name) as [t|] eqn:Hhint; [|discriminate].
    destruct (is_typevar_hint t) eqn:Htv; [discriminate|].
    exists name, value, t. auto.
  - destruct (IH _ _ H) as (n & v & t & Hin & Hrest). exists n, v, t. auto.
Qed.

Lemma check_arguments_other {rt : PyRuntime} (type_hints : list (string * texpr))
    (skip_first : bool) (arguments : list (string * PyValue)) :
  forall i exc,
    check_arguments type_hints skip_first i arguments = RaisesOther exc ->
    exists name value expected_type,
      In (name, value) arguments
      /\ lookup_attr type_hints name = Some expected_type
      /\ is_typevar_hint expected_type = false
      /\ enforce_type expected_type value (argument_path name) None true = RaisesOther exc.
Proof.
  induction arguments as [|[name value] rest IH]; intros i exc; simpl; [discriminate|].
  intros H. apply and_then_other in H as [H | [_ H]].
  - destruct (skip_first && Nat.eqb i 0); [discriminate|].
    destruct (lookup_attr type_hints name) as [t|] eqn:Hhint; [|discriminate].
    destruct (is_typevar_hint t) eqn:Htv; [discriminate|].
    exists name, value, t. auto.
  - destruct (IH _ _ H) as (n & v & t & Hin & Hrest). exists n, v, t. auto.
Qed.



(** ** validate_method as a whole                                         *)

Lemma for_each_returns_iff {A : Type} (body : A -> outcome) (xs : list A) :
  for_each body xs = Returns <-> Forall (fun x => body x = Returns) xs.
Proof.
  induction xs as [|x xs IH]; simpl.
  - split; [constructor | reflexivity].
  - rewrite and_then_returns, IH. split.
    + intros [H1 H2]. constructor; assumption.
    + intros H. inversion H; subst. split; assumption.
Qed.

(** X18.  When [validate()] returns, every field with [validate_type]
    whose attribute is present holds a value that passes the field's type
    hint, every absent one that is required has a type hint that accepts
    [NotSet], every sub-validation that was due returned, and
    [post_validate] returned. *)
Theorem validate_returns_sound (rt : PyRuntime)
    (validate_attr : PyValue -> option (AbstractTreePath -> outcome))
    (self : instance) (path : AbstractTreePath) :
  validate_method validate_attr self (Some path) = Returns ->
  (forall field, In field (inst_fields self) -> validate_type field = true ->
     match lookup_attr (inst_attrs self) (field_name field) with
     | Some value => passes (field_type field) value
     | None => validate_require_exist field = true -> passes (field_type field) VNotSet
     end)
  /\ (forall field, In field (inst_fields self) ->
        subvalidate_field validate_attr self path field = Returns)
  /\ (forall post_validate, inst_post_validate self = Some post_validate ->
        post_validate path = Returns).
Proof.
  unfold validate_method. intros H.
  apply and_then_returns in H as [Hcheck H].
  apply and_then_returns in H as [Hsub Hpost].
  rewrite for_each_returns_iff, Forall_forall in Hcheck, Hsub.
  repeat split.
  - intros field Hin Ht. specialize (Hcheck _ Hin). unfold check_field in Hcheck.
    rewrite Ht in Hcheck. simpl in Hcheck.
    destruct (lookup_attr (inst_attrs self) (field_name field)) as [value|].
    + apply passes_iff in Hcheck. exact Hcheck.
    + intros Hr. rewrite Hr in Hcheck. apply passes_iff in Hcheck. exact Hcheck.
  - exact Hsub.
  - intros post_validate Hp. rewrite Hp in Hpost. exact Hpost.
Qed.

Lemma validate_returns_sound_witness :
  passes (rt := sample_runtime) (TGeneric OList [TClass int_cls]) (VList [VInt 1; VInt 2]).
Proof.
  pose proof (proj1 (validate_returns_sound sample_runtime (fun _ => None)
                       (mk_instance
                          [mk_field "xs" (TGeneric OList [TClass int_cls]) true true false]
                          [("xs", VList [VInt 1; VInt 2])] None)
                       empty_path eq_refl)
                (mk_field "xs" (TGeneric OList [TClass int_cls]) true true false)
                (or_introl eq_refl) eq_refl) as H.
  exact H.
Defined.



(** ** FIELD_OPTIONS                                                      *)

Lemma table_lookup_app (table more : field_table) (field : nat) :
  table_lookup (table ++ more) field
  = match table_lookup table field with
    | Some options => Some options
    | None => table_lookup more field
    end.
Proof.
  induction table as [|[f o] rest IH]; simpl; [reflexivity|].
  destruct (Nat.eqb f field); [reflexivity | exact IH].
Qed.

(** X20.  Field options are written once: [update_field] registers the
    options of a field that has none and changes nothing otherwise, so it
    never alters what is stored for any field already registered; the
    options passed when a field is created survive the later
    re-registration with defaults, and [get_field_options] of an unknown
    field registers and returns the defaults. *)
Theorem update_field_writes_once (table : field_table) (field other : nat)
    (options options' : field_options) :
  (forall stored, table_lookup table other = Some stored ->
     table_lookup (update_field field options table) other = Some stored)
  /\ (table_lookup table field = None ->
      table_lookup (update_field field options table) field = Some options
      /\ snd (get_field_options field
                (update_field field options' (update_field field options table)))
         = Some options)
  /\ (table_lookup table field = None ->
      snd (get_field_options field table) = Some default_options).
Proof.
  unfold get_field_options, update_field. repeat split.
  - intros stored Hs. destruct (table_lookup table field); [exact Hs|].
    rewrite table_lookup_app, Hs. reflexivity.
  - rewrite H. rewrite table_lookup_app, H. simpl. rewrite Nat.eqb_refl. reflexivity.
  - rewrite H. simpl.
    assert (Hl : table_lookup (table ++ [(field, options)]) field = Some options).
    { rewrite table_lookup_app, H. simpl. rewrite Nat.eqb_refl. reflexivity. }
    rewrite Hl. rewrite Hl. exact Hl.
  - intros H. rewrite H. simpl. rewrite table_lookup_app, H. simpl.
    rewrite Nat.eqb_refl. reflexivity.
Qed.

Lemma update_field_writes_once_witness :
  snd (get_field_options 7
         (update_field 7 default_options
            (update_field 7 (mk_options false true None false true)
               [(3%nat, default_options)])))
  = Some (mk_options false true None false true).
Proof.
  apply (proj1 (proj2 (update_field_writes_once [(3%nat, default_options)] 7 3
                         (mk_options false true None false true) default_options))
           eq_refl).
Defined.

(** ** validation.py: VA_TYPE                                             *)



(* ===================================================================== *)
(** * DualKeyDict                                                         *)
(* ===================================================================== *)

Module DKDFacts.
Import DKD.

(** ** Python dicts over keys with a decidable equality                   *)

Section PyDictFacts.
Variables (K A : Type) (eqb : K -> K -> bool).
Hypothesis eqb_spec : forall a b, eqb a b = true <-> a = b.

Lemma key_eqb_refl (k : K) : eqb k k = true.
Proof. apply eqb_spec. reflexivity. Qed.

Lemma key_eqb_neq (a b : K) : a <> b -> eqb a b = false.
Proof.
  intros H. destruct (eqb a b) eqn:E; [|reflexivity].
  apply eqb_spec in E. contradiction.
Qed.

Lemma key_eq_dec (a b : K) : a = b \/ a <> b.
Proof.
  destruct (eqb a b) eqn:E.
  - left. apply eqb_spec, E.
  - right. intros ->. rewrite key_eqb_refl in E. discriminate.
Qed.

Lemma pd_get_set_same (d : list (K * A)) (k : K) (v : A) :
  pd_get eqb (pd_set eqb d k v) k = Some v.
Proof.
  induction d as [|[k' v'] rest IH]; simpl.
  - rewrite key_eqb_refl. reflexivity.
  - destruct (eqb k' k) eqn:E; simpl; rewrite E; [reflexivity | exact IH].
Qed.

Lemma pd_get_set_other (d : list (K * A)) (k k0 : K) (v : A) :
  k0 <> k -> pd_get eqb (pd_set eqb d k v) k0 = pd_get eqb d k0.
Proof.
  intros Hne. induction d as [|[k' v'] rest IH]; simpl.
  - rewrite key_eqb_neq by congruence. reflexivity.
  - destruct (eqb k' k) eqn:E; simpl.
    + apply eqb_spec in E. subst k'. rewrite key_eqb_neq by congruence. reflexivity.
    + rewrite IH. reflexivity.
Qed.

Lemma pd_get_notin (d : list (K * A)) (k : K) :
  pd_get eqb d k = None <-> ~ In k (map fst d).
Proof.
  induction d as [|[k' v'] rest IH]; simpl; [tauto|].
  destruct (eqb k' k) eqn:E.
  - apply eqb_spec in E. split; [discriminate | intros H; exfalso; apply H; auto].
  - rewrite IH. split.
    + intros H [Heq | Hin]; [|contradiction].
      subst k'. rewrite key_eqb_refl in E. discriminate.
    + intros H Hin. apply H. right. exact Hin.
Qed.

Lemma keys_pd_set (d : list (K * A)) (k : K) (v : A) :
  map fst (pd_set eqb d k v)
  = if pd_contains eqb d k then map fst d else map fst d ++ [k].
Proof.
  unfold pd_contains. induction d as [|[k' v'] rest IH]; simpl; [reflexivity|].
  destruct (eqb k' k) eqn:E; simpl; [reflexivity|].
  rewrite IH. destruct (pd_get eqb rest k); reflexivity.
Qed.

Lemma NoDup_pd_set (d : list (K * A)) (k : K) (v : A) :
  NoDup (map fst d) -> NoDup (map fst (pd_set eqb d k v)).
Proof.
  intros H. rewrite keys_pd_set. unfold pd_contains.
  destruct (pd_get eqb d k) eqn:E; [exact H|].
  apply pd_get_notin in E.
  apply NoDup_app; [exact H | constructor; [intros []|constructor] |].
  intros x Hx [<- | []]. contradiction.
Qed.

Lemma length_pd_set (d : list (K * A)) (k : K) (v : A) :
  List.length (pd_set eqb d k v)
  = if pd_contains eqb d k then List.length d else S (List.length d).
Proof.
  unfold pd_contains. induction d as [|[k' v'] rest IH]; simpl; [reflexivity|].
  destruct (eqb k' k) eqn:E; simpl; [reflexivity|].
  rewrite IH. destruct (pd_get eqb rest k); reflexivity.
Qed.

Lemma pd_pop_none (d : list (K * A)) (k : K) :
  pd_pop eqb d k = None <-> pd_get eqb d k = None.
Proof.
  induction d as [|[k' v'] rest IH]; simpl; [tauto|].
  destruct (eqb k' k); [split; discriminate|].
  destruct (pd_pop eqb rest k) as [[x r]|]; [|tauto].
  split; [discriminate|]. intros H. apply IH in H. discriminate.
Qed.

Lemma pd_pop_some (d : list (K * A)) (k : K) (x : A) (d' : list (K * A)) :
  NoDup (map fst d) ->
  pd_pop eqb d k = Some (x, d') ->
  pd_get eqb d k = Some x
  /\ pd_get eqb d' k = None
  /\ (forall k0, k0 <> k -> pd_get eqb d' k0 = pd_get eqb d k0)
  /\ NoDup (map fst d')
  /\ List.length d = S (List.length d').
Proof.
  revert d'. induction d as [|[k' v'] rest IH]; simpl; intros d' Hnd H; [discriminate|].
  inversion Hnd as [|? ? Hnotin Hrest]; subst.
  destruct (eqb k' k) eqn:E.
  - injection H as <- <-. apply eqb_spec in E. subst k'.
    repeat split; auto.
    + apply pd_get_notin. exact Hnotin.
    + intros k0 Hne. rewrite key_eqb_neq by congruence. reflexivity.
  - destruct (pd_pop eqb rest k) as [[y r]|] eqn:Hp; [|discriminate].
    injection H as <- <-.
    destruct (IH r Hrest eq_refl) as (Hg & Hn & Hother & Hnd' & Hlen).
    repeat split; auto.
    + simpl. rewrite E. exact Hn.
    + intros k0 Hne. simpl. destruct (eqb k' k0); [reflexivity | apply Hother, Hne].
    + simpl. constructor; [|exact Hnd'].
      intros Hin.
      destruct (key_eq_dec k' k) as [->|Hne]; [rewrite key_eqb_refl in E; discriminate|].
      assert (Hr : pd_get eqb rest k' = None) by (apply pd_get_notin; exact Hnotin).
      rewrite <- (Hother k' Hne) in Hr. apply pd_get_notin in Hr. exact (Hr Hin).
Qed.

Lemma pd_pop_of_get (d : list (K * A)) (k : K) (x : A) :
  pd_get eqb d k = Some x -> exists d', pd_pop eqb d k = Some (x, d').
Proof.
  induction d as [|[k' v'] rest IH]; simpl; [discriminate|].
  destruct (eqb k' k); [intros H; injection H as <-; eauto|].
  intros H. destruct (IH H) as [d' ->]. eauto.
Qed.

End PyDictFacts.

(** ** The methods on a consistent instance                               *)

Section MethodFacts.
Variables K1 K2 V : Type.
Variable k1_eqb : K1 -> K1 -> bool.
Variable k2_eqb : K2 -> K2 -> bool.
Hypothesis k1_eqb_spec : forall a b, k1_eqb a b = true <-> a = b.
Hypothesis k2_eqb_spec : forall a b, k2_eqb a b = true <-> a = b.

Local Abbreviation dict := (t K1 K2 V).
Local Abbreviation consistent := (@consistent K1 K2 V k1_eqb k2_eqb).
Local Abbreviation entry_moved := (@entry_moved K1 K2 V k1_eqb k2_eqb).

Lemma pd_get_set (K A : Type) (eqb : K -> K -> bool)
    (Hspec : forall a b, eqb a b = true <-> a = b)
    (d : list (K * A)) (k k0 : K) (v : A) :
  pd_get eqb (pd_set eqb d k v) k0 = if eqb k k0 then Some v else pd_get eqb d k0.
Proof.
  destruct (eqb k k0) eqn:E.
  - apply Hspec in E. subst k0. apply pd_get_set_same; exact Hspec.
  - apply pd_get_set_other; [exact Hspec|].
    intros ->. rewrite (proj2 (Hspec _ _) eq_refl) in E. discriminate.
Qed.

Lemma pd_contains_set (K A : Type) (eqb : K -> K -> bool)
    (Hspec : forall a b, eqb a b = true <-> a = b)
    (d : list (K * A)) (k k0 : K) (v : A) :
  pd_contains eqb (pd_set eqb d k v) k0 = eqb k k0 || pd_contains eqb d k0.
Proof.
  unfold pd_contains. rewrite pd_get_set by exact Hspec.
  destruct (eqb k k0); reflexivity.
Qed.

(** The instance after the three assignments of [set]. *)
Definition stored (self : dict) (key1 : K1) (key2 : K2) (value : V) : dict :=
  mk (pd_set k1_eqb (_values self) key1 value)
     (pd_set k2_eqb (_k2_to_k1 self) key2 key1)
     (pd_set k1_eqb (_k1_to_k2 self) key1 key2).

(** [set] on a consistent instance, by the pairing of the two keys. *)
Lemma set_cases (self : dict) (key1 : K1) (key2 : K2) (value : V) :
  consistent self ->
  set k1_eqb k2_eqb key1 key2 value self
  = match pd_get k1_eqb (_k1_to_k2 self) key1, pd_get k2_eqb (_k2_to_k1 self) key2 with
    | None, None => (stored self key1 key2 value, Ok tt)
    | Some real_key2, Some _ =>
        if k2_eqb real_key2 key2 then (stored self key1 key2 value, Ok tt)
        else (self, Raise ValueError)
    | _, _ => (self, Raise ValueError)
    end.
Proof.
  intros (_ & _ & _ & Hsame & _).
  unfold set, has_key1, has_key2, get_key2_for_key1, get_key1_for_key2, store,
    bind, get_self, put_self, ret, raise, stored.
  cbn beta iota. rewrite Hsame. unfold pd_contains.
  destruct (pd_get k1_eqb (_k1_to_k2 self) key1) as [real_key2|] eqn:E1;
    destruct (pd_get k2_eqb (_k2_to_k1 self) key2) as [real_key1|] eqn:E2;
    cbn; rewrite ?E1, ?E2; cbn; try reflexivity.
  destruct (k2_eqb real_key2 key2); cbn; rewrite ?E1; reflexivity.
Qed.

(** When the three assignments keep an instance consistent. *)
Lemma stored_consistent (self : dict) (key1 : K1) (key2 : K2) (value : V) :
  consistent self ->
  (pd_get k1_eqb (_k1_to_k2 self) key1 = None
   /\ pd_get k2_eqb (_k2_to_k1 self) key2 = None)
  \/ pd_get k1_eqb (_k1_to_k2 self) key1 = Some key2 ->
  consistent (stored self key1 key2 value).
Proof.
  intros (Hv & H21 & H12 & Hsame & Hinv) Hcompat.
  unfold DKD.consistent, stored. cbn [_values _k2_to_k1 _k1_to_k2].
  split; [apply NoDup_pd_set; assumption|].
  split; [apply NoDup_pd_set; assumption|].
  split; [apply NoDup_pd_set; assumption|].
  split.
  - intros k. rewrite !pd_contains_set by assumption. rewrite Hsame. reflexivity.
  - intros a b. rewrite !pd_get_set by assumption.
    destruct (k1_eqb key1 a) eqn:Ea; destruct (k2_eqb key2 b) eqn:Eb.
    + apply k1_eqb_spec in Ea. apply k2_eqb_spec in Eb. subst. tauto.
    + apply k1_eqb_spec in Ea. subst a. split.
      * intros H. injection H as <-. rewrite (proj2 (k2_eqb_spec _ _) eq_refl) in Eb. discriminate.
      * intros H. apply Hinv in H. exfalso.
        destruct Hcompat as [[Hn _] | Hs]; rewrite H in *; [discriminate|].
        injection Hs as ->. rewrite (proj2 (k2_eqb_spec _ _) eq_refl) in Eb. discriminate.
    + apply k2_eqb_spec in Eb. subst b. split.
      * intros H. exfalso. pose proof H as H'. apply Hinv in H'.
        destruct Hcompat as [[_ Hn] | Hs]; [rewrite H' in Hn; discriminate|].
        apply Hinv in Hs. rewrite H' in Hs. injection Hs as ->.
        rewrite (proj2 (k1_eqb_spec _ _) eq_refl) in Ea. discriminate.
      * intros H. injection H as <-. rewrite (proj2 (k1_eqb_spec _ _) eq_refl) in Ea. discriminate.
    + apply Hinv.
Qed.

Lemma empty_consistent : consistent (empty K1 K2 V).
Proof.
  unfold DKD.consistent, empty. cbn.
  repeat split; try constructor; discriminate.
Qed.

Lemma set_consistent (self : dict) (key1 : K1) (key2 : K2) (value : V) :
  consistent self -> consistent (fst (set k1_eqb k2_eqb key1 key2 value self)).
Proof.
  intros Hc. rewrite set_cases by exact Hc.
  destruct (pd_get k1_eqb (_k1_to_k2 self) key1) as [real_key2|] eqn:E1;
    destruct (pd_get k2_eqb (_k2_to_k1 self) key2) as [real_key1|] eqn:E2;
    cbn [fst]; try exact Hc.
  - destruct (k2_eqb real_key2 key2) eqn:E; cbn [fst]; [|exact Hc].
    apply k2_eqb_spec in E. subst. apply stored_consistent; auto.
  - apply stored_consistent; auto.
Qed.


(** The getters, read off the three dicts. *)
Lemma has_key1_eq (self : dict) (key1 : K1) :
  has_key1 k1_eqb key1 self = (self, Ok (pd_contains k1_eqb (_values self) key1)).
Proof. reflexivity. Qed.

Lemma has_key2_eq (self : dict) (key2 : K2) :
  has_key2 k2_eqb key2 self = (self, Ok (pd_contains k2_eqb (_k2_to_k1 self) key2)).
Proof. reflexivity. Qed.

(** A lookup as the result of a call. *)
Definition found {A : Type} (o : option A) : res A :=
  match o with
  | Some a => Ok a
  | None => Raise KeyError
  end.

Lemma found_ok (A : Type) (o : option A) (a : A) : found o = Ok a <-> o = Some a.
Proof.
  destruct o; simpl; split; intros H; try discriminate; injection H as <-; reflexivity.
Qed.

Lemma get_key2_for_key1_eq (self : dict) (key1 : K1) :
  get_key2_for_key1 k1_eqb key1 self
  = (self, found (pd_get k1_eqb (_k1_to_k2 self) key1)).
Proof.
  unfold get_key2_for_key1, bind, get_self, ret, raise, found. cbn beta iota.
  destruct (pd_get k1_eqb (_k1_to_k2 self) key1); reflexivity.
Qed.

Lemma get_key1_for_key2_eq (self : dict) (key2 : K2) :
  get_key1_for_key2 k2_eqb key2 self
  = (self, found (pd_get k2_eqb (_k2_to_k1 self) key2)).
Proof.
  unfold get_key1_for_key2, bind, get_self, ret, raise, found. cbn beta iota.
  destruct (pd_get k2_eqb (_k2_to_k1 self) key2); reflexivity.
Qed.

Lemma get_by_key1_eq (self : dict) (key1 : K1) :
  get_by_key1 k1_eqb key1 self = (self, found (pd_get k1_eqb (_values self) key1)).
Proof.
  unfold get_by_key1, bind, get_self, ret, raise, found. cbn beta iota.
  destruct (pd_get k1_eqb (_values self) key1); reflexivity.
Qed.

Lemma get_by_key2_eq (self : dict) (key2 : K2) :
  get_by_key2 k1_eqb k2_eqb key2 self
  = (self, match pd_get k2_eqb (_k2_to_k1 self) key2 with
           | Some key1 => found (pd_get k1_eqb (_values self) key1)
           | None => Raise KeyError
           end).
Proof.
  unfold get_by_key2, get_key1_for_key2, bind, get_self, ret, raise, found.
  cbn beta iota.
  destruct (pd_get k2_eqb (_k2_to_k1 self) key2) as [key1|]; [|reflexivity].
  destruct (pd_get k1_eqb (_values self) key1); reflexivity.
Qed.

Lemma pd_contains_false (K A : Type) (eqb : K -> K -> bool) (d : list (K * A)) (k : K) :
  pd_contains eqb d k = false <-> pd_get eqb d k = None.
Proof.
  unfold pd_contains. destruct (pd_get eqb d k); split; intros H;
    try discriminate; reflexivity.
Qed.

Lemma pd_contains_true (K A : Type) (eqb : K -> K -> bool) (d : list (K * A)) (k : K) :
  pd_contains eqb d k = true <-> exists a, pd_get eqb d k = Some a.
Proof.
  unfold pd_contains. destruct (pd_get eqb d k); split; intros H;
    try discriminate; eauto.
  destruct H; discriminate.
Qed.

(** [after] is [before] without the entry of [key1] and [key2]. *)
Definition removed (before : dict) (key1 : K1) (key2 : K2) (after : dict) : Prop :=
  (forall k, pd_get k1_eqb (_values after) k
             = if k1_eqb key1 k then None else pd_get k1_eqb (_values before) k)
  /\ (forall k, pd_get k1_eqb (_k1_to_k2 after) k
                = if k1_eqb key1 k then None else pd_get k1_eqb (_k1_to_k2 before) k)
  /\ (forall k, pd_get k2_eqb (_k2_to_k1 after) k
                = if k2_eqb key2 k then None else pd_get k2_eqb (_k2_to_k1 before) k)
  /\ len before = S (len after).

Lemma pd_pop_lookup (K A : Type) (eqb : K -> K -> bool)
    (Hspec : forall a b, eqb a b = true <-> a = b)
    (d d' : list (K * A)) (k : K) (x : A) :
  NoDup (map fst d) ->
  pd_pop eqb d k = Some (x, d') ->
  forall k0, pd_get eqb d' k0 = if eqb k k0 then None else pd_get eqb d k0.
Proof.
  intros Hnd Hp k0.
  destruct (pd_pop_some eqb Hspec d k Hnd Hp) as (_ & Hn & Hother & _).
  destruct (eqb k k0) eqn:E.
  - apply Hspec in E. subst k0. exact Hn.
  - apply Hother. intros ->. rewrite (proj2 (Hspec _ _) eq_refl) in E. discriminate.
Qed.

(** A present entry can be popped from the three dicts, and what is left
    is consistent. *)
Lemma remove_entry (self : dict) (key1 : K1) (key2 : K2) :
  consistent self ->
  pd_get k1_eqb (_k1_to_k2 self) key1 = Some key2 ->
  exists value values' k2_to_k1' k1_to_k2',
    pd_get k1_eqb (_values self) key1 = Some value
    /\ pd_pop k1_eqb (_values self) key1 = Some (value, values')
    /\ pd_pop k2_eqb (_k2_to_k1 self) key2 = Some (key1, k2_to_k1')
    /\ pd_pop k1_eqb (_k1_to_k2 self) key1 = Some (key2, k1_to_k2')
    /\ consistent (mk values' k2_to_k1' k1_to_k2')
    /\ removed self key1 key2 (mk values' k2_to_k1' k1_to_k2').
Proof.
  intros (Hv & H21 & H12 & Hsame & Hinv) Hk.
  assert (Hk' : pd_get k2_eqb (_k2_to_k1 self) key2 = Some key1) by (apply Hinv, Hk).
  assert (Hval : exists value, pd_get k1_eqb (_values self) key1 = Some value).
  { specialize (Hsame key1). unfold pd_contains in Hsame. rewrite Hk in Hsame.
    destruct (pd_get k1_eqb (_values self) key1); [eauto | discriminate]. }
  destruct Hval as [value Hval].
  destruct (pd_pop_of_get k1_eqb _ _ Hval) as [values' Pv].
  destruct (pd_pop_of_get k2_eqb _ _ Hk') as [m21 P21].
  destruct (pd_pop_of_get k1_eqb _ _ Hk) as [m12 P12].
  exists value, values', m21, m12.
  pose proof (@pd_pop_lookup _ _ k1_eqb k1_eqb_spec _ _ _ _ Hv Pv) as Lv.
  pose proof (@pd_pop_lookup _ _ k2_eqb k2_eqb_spec _ _ _ _ H21 P21) as L21.
  pose proof (@pd_pop_lookup _ _ k1_eqb k1_eqb_spec _ _ _ _ H12 P12) as L12.
  destruct (pd_pop_some k1_eqb k1_eqb_spec _ _ Hv Pv) as (_ & _ & _ & Nv & Lenv).
  destruct (pd_pop_some k2_eqb k2_eqb_spec _ _ H21 P21) as (_ & _ & _ & N21 & _).
  destruct (pd_pop_some k1_eqb k1_eqb_spec _ _ H12 P12) as (_ & _ & _ & N12 & _).
  assert (Hinv' : forall a b,
             pd_get k1_eqb m12 a = Some b <-> pd_get k2_eqb m21 b = Some a).
  { intros a b. rewrite L12, L21. split; intros H.
    - destruct (k1_eqb key1 a) eqn:Ea; [discriminate|].
      destruct (k2_eqb key2 b) eqn:Eb; [|apply Hinv, H].
      apply k2_eqb_spec in Eb. subst b. apply Hinv in H. rewrite Hk' in H.
      injection H as <-. rewrite (proj2 (k1_eqb_spec _ _) eq_refl) in Ea. discriminate.
    - destruct (k2_eqb key2 b) eqn:Eb; [discriminate|].
      destruct (k1_eqb key1 a) eqn:Ea; [|apply Hinv, H].
      apply k1_eqb_spec in Ea. subst a. apply Hinv in H. rewrite Hk in H.
      injection H as <-. rewrite (proj2 (k2_eqb_spec _ _) eq_refl) in Eb. discriminate. }
  split; [exact Hval|]. split; [exact Pv|]. split; [exact P21|]. split; [exact P12|].
  split.
  - unfold DKD.consistent. cbn [_values _k2_to_k1 _k1_to_k2].
    split; [exact Nv|]. split; [exact N21|]. split; [exact N12|].
    split; [|exact Hinv'].
    intros k. unfold pd_contains. rewrite Lv, L12.
    destruct (k1_eqb key1 k); [reflexivity|]. apply Hsame.
  - unfold removed, len. cbn [_values _k2_to_k1 _k1_to_k2].
    split; [exact Lv|]. split; [exact L12|]. split; [exact L21|]. exact Lenv.
Qed.

Lemma pop_by_key1_present (self : dict) (key1 : K1) (key2 : K2) :
  consistent self ->
  pd_get k1_eqb (_k1_to_k2 self) key1 = Some key2 ->
  exists value after,
    pop_by_key1 k1_eqb k2_eqb key1 self = (after, Ok value)
    /\ pd_get k1_eqb (_values self) key1 = Some value
    /\ consistent after
    /\ removed self key1 key2 after.
Proof.
  intros Hc Hk.
  destruct (@remove_entry self key1 key2 Hc Hk) as (value & v' & m21 & m12 & Hval & Pv & P21 & P12 & Hc' & Hr).
  exists value, (mk v' m21 m12).
  split; [|split; [exact Hval | split; [exact Hc' | exact Hr]]].
  unfold pop_by_key1, pop_k1_to_k2, pop_k2_to_k1, pop_values, bind, get_self,
    put_self, ret, raise.
  cbn beta iota. rewrite P12. cbn. rewrite P21. cbn. rewrite Pv. reflexivity.
Qed.

Lemma pop_by_key2_present (self : dict) (key1 : K1) (key2 : K2) :
  consistent self ->
  pd_get k2_eqb (_k2_to_k1 self) key2 = Some key1 ->
  exists value after,
    pop_by_key2 k1_eqb k2_eqb key2 self = (after, Ok value)
    /\ pd_get k1_eqb (_values self) key1 = Some value
    /\ consistent after
    /\ removed self key1 key2 after.
Proof.
  intros Hc Hk. pose proof Hc as (_ & _ & _ & _ & Hinv). apply Hinv in Hk.
  destruct (@remove_entry self key1 key2 Hc Hk) as (value & v' & m21 & m12 & Hval & Pv & P21 & P12 & Hc' & Hr).
  exists value, (mk v' m21 m12).
  split; [|split; [exact Hval | split; [exact Hc' | exact Hr]]].
  unfold pop_by_key2, pop_k1_to_k2, pop_k2_to_k1, pop_values, bind, get_self,
    put_self, ret, raise.
  cbn beta iota. rewrite P21. cbn. rewrite P12. cbn. rewrite Pv. reflexivity.
Qed.

Lemma pop_by_key1_absent (self : dict) (key1 : K1) :
  pd_get k1_eqb (_k1_to_k2 self) key1 = None ->
  pop_by_key1 k1_eqb k2_eqb key1 self = (self, Raise KeyError).
Proof.
  intros Hk. apply (pd_pop_none k1_eqb) in Hk.
  unfold pop_by_key1, pop_k1_to_k2, bind, get_self, raise. cbn beta iota.
  rewrite Hk. reflexivity.
Qed.

Lemma pop_by_key2_absent (self : dict) (key2 : K2) :
  pd_get k2_eqb (_k2_to_k1 self) key2 = None ->
  pop_by_key2 k1_eqb k2_eqb key2 self = (self, Raise KeyError).
Proof.
  intros Hk. apply (pd_pop_none k2_eqb) in Hk.
  unfold pop_by_key2, pop_k2_to_k1, bind, get_self, raise. cbn beta iota.
  rewrite Hk. reflexivity.
Qed.


Ltac read_getters :=
  rewrite ?has_key1_eq, ?has_key2_eq, ?get_key2_for_key1_eq, ?get_key1_for_key2_eq,
    ?get_by_key1_eq, ?get_by_key2_eq in *;
  cbn [fst snd] in *.

Lemma ok_inj (A : Type) (a b : A) : @Ok A a = Ok b -> a = b.
Proof. intros H. injection H as ->. reflexivity. Qed.

(** When [set] returns. *)
Lemma set_returns (self : dict) (key1 : K1) (key2 : K2) (value : V) :
  consistent self ->
  snd (set k1_eqb k2_eqb key1 key2 value self) = Ok tt ->
  set k1_eqb k2_eqb key1 key2 value self = (stored self key1 key2 value, Ok tt)
  /\ ((pd_get k1_eqb (_k1_to_k2 self) key1 = None
       /\ pd_get k2_eqb (_k2_to_k1 self) key2 = None)
      \/ pd_get k1_eqb (_k1_to_k2 self) key1 = Some key2).
Proof.
  intros Hc. rewrite set_cases by exact Hc.
  destruct (pd_get k1_eqb (_k1_to_k2 self) key1) as [real_key2|] eqn:E1;
    destruct (pd_get k2_eqb (_k2_to_k1 self) key2) as [real_key1|] eqn:E2;
    cbn [snd]; try discriminate.
  - destruct (k2_eqb real_key2 key2) eqn:E; cbn [snd]; [|discriminate].
    apply k2_eqb_spec in E. subst. auto.
  - auto.
Qed.

(** X22.  [set] then read: when [set(key1, key2, value)] returns on a
    consistent instance, both keys read [value] back and each key names the
    other; every other key1 and key2 reads what it read before; the length
    grows by one exactly when key1 was not a key before. *)
Theorem set_then_get (self : dict) (key1 : K1) (key2 : K2) (value : V) :
  consistent self ->
  snd (set k1_eqb k2_eqb key1 key2 value self) = Ok tt ->
  let after := fst (set k1_eqb k2_eqb key1 key2 value self) in
  snd (get_by_key1 k1_eqb key1 after) = Ok value
  /\ snd (get_by_key2 k1_eqb k2_eqb key2 after) = Ok value
  /\ snd (get_key2_for_key1 k1_eqb key1 after) = Ok key2
  /\ snd (get_key1_for_key2 k2_eqb key2 after) = Ok key1
  /\ (forall k, k <> key1 ->
        snd (get_by_key1 k1_eqb k after) = snd (get_by_key1 k1_eqb k self))
  /\ (forall k, k <> key2 ->
        snd (get_by_key2 k1_eqb k2_eqb k after) = snd (get_by_key2 k1_eqb k2_eqb k self))
  /\ len after = (if pd_contains k1_eqb (_values self) key1
                  then len self else S (len self)).
Proof.
  intros Hc Hok. destruct (@set_returns self key1 key2 value Hc Hok) as [-> Hcompat]. cbn zeta.
  pose proof Hc as (_ & _ & _ & _ & Hinv).
  read_getters. unfold stored, len. cbn [_values _k2_to_k1 _k1_to_k2].
  rewrite !pd_get_set by assumption.
  rewrite ?(proj2 (k1_eqb_spec _ _) eq_refl), ?(proj2 (k2_eqb_spec _ _) eq_refl).
  cbn beta iota.
  rewrite ?pd_get_set by assumption.
  rewrite ?(proj2 (k1_eqb_spec _ _) eq_refl).
  cbn [found].
  repeat split.
  - intros k Hne. read_getters. cbn [_values]. rewrite pd_get_set by assumption.
    rewrite (key_eqb_neq k1_eqb k1_eqb_spec) by congruence. reflexivity.
  - intros k Hne. read_getters. cbn [_values _k2_to_k1].
    rewrite pd_get_set by assumption.
    rewrite (key_eqb_neq k2_eqb k2_eqb_spec) by congruence.
    destruct (pd_get k2_eqb (_k2_to_k1 self) k) as [a|] eqn:Ea; [|reflexivity].
    rewrite pd_get_set by assumption.
    destruct (k1_eqb key1 a) eqn:E; [|reflexivity].
    apply k1_eqb_spec in E. subst a. apply Hinv in Ea. exfalso.
    destruct Hcompat as [[Hn _] | Hs]; rewrite Ea in *; [discriminate|].
    injection Hs as ->. apply Hne. reflexivity.
  - apply length_pd_set.
Qed.

(** X23.  [set] refuses a second partner: on a consistent instance [set]
    either returns or raises [ValueError] leaving the instance as it was
    (never [KeyError]); it returns exactly when both keys are new or key1
    is already paired with key2. *)
Theorem set_refuses_other_partner (self : dict) (key1 : K1) (key2 : K2) (value : V) :
  consistent self ->
  (snd (set k1_eqb k2_eqb key1 key2 value self) = Ok tt
   \/ set k1_eqb k2_eqb key1 key2 value self = (self, Raise ValueError))
  /\ (snd (set k1_eqb k2_eqb key1 key2 value self) = Ok tt
      <-> (snd (has_key1 k1_eqb key1 self) = Ok false
           /\ snd (has_key2 k2_eqb key2 self) = Ok false)
          \/ snd (get_key2_for_key1 k1_eqb key1 self) = Ok key2).
Proof.
  intros Hc. pose proof Hc as (_ & _ & _ & Hsame & Hinv).
  rewrite set_cases by exact Hc. read_getters.
  rewrite Hsame. unfold pd_contains.
  destruct (pd_get k1_eqb (_k1_to_k2 self) key1) as [real_key2|] eqn:E1;
    destruct (pd_get k2_eqb (_k2_to_k1 self) key2) as [real_key1|] eqn:E2;
    cbn [snd found].
  - destruct (k2_eqb real_key2 key2) eqn:E; cbn [snd].
    + apply k2_eqb_spec in E. subst. split; [auto|]. split; auto.
    + split; [auto|]. split; [discriminate|].
      intros [[H _] | H]; [discriminate|].
      injection H as ->. rewrite (proj2 (k2_eqb_spec _ _) eq_refl) in E. discriminate.
  - split; [auto|]. split; [discriminate|].
    intros [[H _] | H]; [discriminate|].
    injection H as ->. apply Hinv in E1. rewrite E1 in E2. discriminate.
  - split; [auto|]. split; [discriminate|].
    intros [[_ H] | H]; discriminate.
  - split; [auto|]. split; auto.
Qed.


(** X24.  [pop_by_key1] and [pop_by_key2] remove one whole entry: for key1
    paired with key2 in a consistent instance the two calls do the same;
    they return the value stored, after which neither key is a key, the
    length is one less, and every other key reads what it read before. *)
Theorem pop_removes_entry (self : dict) (key1 : K1) (key2 : K2) :
  consistent self ->
  snd (get_key2_for_key1 k1_eqb key1 self) = Ok key2 ->
  let after := fst (pop_by_key1 k1_eqb k2_eqb key1 self) in
  pop_by_key2 k1_eqb k2_eqb key2 self = pop_by_key1 k1_eqb k2_eqb key1 self
  /\ (exists value, snd (pop_by_key1 k1_eqb k2_eqb key1 self) = Ok value
                    /\ snd (get_by_key1 k1_eqb key1 self) = Ok value)
  /\ snd (has_key1 k1_eqb key1 after) = Ok false
  /\ snd (has_key2 k2_eqb key2 after) = Ok false
  /\ snd (get_key2_for_key1 k1_eqb key1 after) = Raise KeyError
  /\ snd (get_key1_for_key2 k2_eqb key2 after) = Raise KeyError
  /\ S (len after) = len self
  /\ (forall k, k <> key1 ->
        snd (get_by_key1 k1_eqb k after) = snd (get_by_key1 k1_eqb k self))
  /\ (forall k, k <> key2 ->
        snd (get_by_key2 k1_eqb k2_eqb k after) = snd (get_by_key2 k1_eqb k2_eqb k self)).
Proof.
  intros Hc Hk. cbn zeta. read_getters. apply found_ok in Hk.
  pose proof Hc as (_ & _ & _ & _ & Hinv).
  destruct (@pop_by_key1_present self key1 key2 Hc Hk)
    as (value & after & Hpop & Hval & Hc' & Hv & H12 & H21 & Hlen).
  destruct (@pop_by_key2_present self key1 key2 Hc (proj1 (Hinv _ _) Hk))
    as (value2 & after2 & Hpop2 & Hval2 & _).
  rewrite Hpop2, Hpop. cbn [fst snd]. read_getters.
  unfold pd_contains. rewrite Hv, H12, H21.
  rewrite ?(proj2 (k1_eqb_spec _ _) eq_refl), ?(proj2 (k2_eqb_spec _ _) eq_refl).
  cbn [found].
  split.
  { rewrite Hval in Hval2. injection Hval2 as <-.
    destruct (@remove_entry self key1 key2 Hc Hk)
      as (v0 & a & b & c & _ & Pv & P21 & P12 & _).
    revert Hpop Hpop2.
    unfold pop_by_key1, pop_by_key2, pop_k1_to_k2, pop_k2_to_k1, pop_values, bind,
      get_self, put_self, ret, raise.
    cbn beta iota. rewrite P12, P21. cbn. rewrite P12, P21. cbn. rewrite Pv.
    intros <- <-. reflexivity. }
  split; [exists value; rewrite Hval; auto|].
  repeat split; auto.
  - intros k Hne. read_getters. rewrite Hv.
    rewrite (key_eqb_neq k1_eqb k1_eqb_spec) by congruence. reflexivity.
  - intros k Hne. read_getters. rewrite H21.
    rewrite (key_eqb_neq k2_eqb k2_eqb_spec) by congruence.
    destruct (pd_get k2_eqb (_k2_to_k1 self) k) as [a|] eqn:Ea; [|reflexivity].
    rewrite Hv. destruct (k1_eqb key1 a) eqn:E; [|reflexivity].
    apply k1_eqb_spec in E. subst a. apply Hinv in Ea. rewrite Ea in Hk.
    injection Hk as ->. exfalso. apply Hne. reflexivity.
Qed.

(** X25.  Popping a key that is not there raises [KeyError] and changes
    nothing; the [_with_default] forms return the default instead, and on
    a key that is there they are [pop_by_key1] and [pop_by_key2]. *)
Theorem pop_absent_raises (self : dict) (key1 : K1) (key2 : K2) (default : V) :
  consistent self ->
  (snd (has_key1 k1_eqb key1 self) = Ok false ->
     pop_by_key1 k1_eqb k2_eqb key1 self = (self, Raise KeyError)
     /\ pop_by_key1_with_default k1_eqb k2_eqb key1 default self = (self, Ok default))
  /\ (snd (has_key2 k2_eqb key2 self) = Ok false ->
        pop_by_key2 k1_eqb k2_eqb key2 self = (self, Raise KeyError)
        /\ pop_by_key2_with_default k1_eqb k2_eqb key2 default self = (self, Ok default))
  /\ (snd (has_key1 k1_eqb key1 self) = Ok true ->
        pop_by_key1_with_default k1_eqb k2_eqb key1 default self
        = pop_by_key1 k1_eqb k2_eqb key1 self)
  /\ (snd (has_key2 k2_eqb key2 self) = Ok true ->
        pop_by_key2_with_default k1_eqb k2_eqb key2 default self
        = pop_by_key2 k1_eqb k2_eqb key2 self).
Proof.
  intros Hc. pose proof Hc as (_ & _ & _ & Hsame & Hinv).
  unfold pop_by_key1_with_default, pop_by_key2_with_default, except_KeyError.
  read_getters. split; [|split; [|split]].
  - intros H. apply ok_inj in H. rewrite Hsame in H. apply pd_contains_false in H.
    rewrite (@pop_by_key1_absent self key1 H). split; reflexivity.
  - intros H. apply ok_inj in H. apply pd_contains_false in H.
    rewrite (@pop_by_key2_absent self key2 H). split; reflexivity.
  - intros H. apply ok_inj in H. rewrite Hsame in H. apply pd_contains_true in H.
    destruct H as [k2 Hk].
    destruct (@pop_by_key1_present self key1 k2 Hc Hk) as (v & a & -> & _).
    reflexivity.
  - intros H. apply ok_inj in H. apply pd_contains_true in H.
    destruct H as [k1 Hk].
    destruct (@pop_by_key2_present self k1 key2 Hc Hk) as (v & a & -> & _).
    reflexivity.
Qed.


(** ** The invariant                                                       *)

(** A call keeps instances consistent, whether it returns or raises. *)
Definition preserves {A : Type} (m : M K1 K2 V A) : Prop :=
  forall self, consistent self -> consistent (fst (m self)).

Lemma preserves_bind (A B : Type) (m : M K1 K2 V A) (k : A -> M K1 K2 V B) :
  preserves m -> (forall a, preserves (k a)) -> preserves (bind m k).
Proof.
  intros Hm Hk self Hc. unfold bind. specialize (Hm self Hc).
  destruct (m self) as [s' [a|e]]; cbn [fst] in *; [apply Hk, Hm | exact Hm].
Qed.

Lemma preserves_unchanged (A : Type) (m : M K1 K2 V A) :
  (forall self, fst (m self) = self) -> preserves m.
Proof. intros H self Hc. rewrite H. exact Hc. Qed.

Lemma preserves_except (A : Type) (m handler : M K1 K2 V A) :
  preserves m -> preserves handler -> preserves (except_KeyError m handler).
Proof.
  intros Hm Hh self Hc. unfold except_KeyError. specialize (Hm self Hc).
  destruct (m self) as [s' [a|[|]]]; cbn [fst] in *; auto.
Qed.

Lemma preserves_has_key1 (key1 : K1) : preserves (has_key1 k1_eqb key1).
Proof. apply preserves_unchanged. reflexivity. Qed.

Lemma preserves_has_key2 (key2 : K2) : preserves (has_key2 k2_eqb key2).
Proof. apply preserves_unchanged. reflexivity. Qed.

Lemma preserves_get_key2_for_key1 (key1 : K1) : preserves (get_key2_for_key1 k1_eqb key1).
Proof. apply preserves_unchanged. intros s. rewrite get_key2_for_key1_eq. reflexivity. Qed.

Lemma preserves_get_key1_for_key2 (key2 : K2) : preserves (get_key1_for_key2 k2_eqb key2).
Proof. apply preserves_unchanged. intros s. rewrite get_key1_for_key2_eq. reflexivity. Qed.

Lemma preserves_raise (A : Type) (e : exn) : preserves (@raise K1 K2 V A e).
Proof. apply preserves_unchanged. reflexivity. Qed.

Lemma preserves_ret (A : Type) (a : A) : preserves (@ret K1 K2 V A a).
Proof. apply preserves_unchanged. reflexivity. Qed.

Lemma preserves_set (key1 : K1) (key2 : K2) (value : V) :
  preserves (set k1_eqb k2_eqb key1 key2 value).
Proof. intros self Hc. apply set_consistent, Hc. Qed.

Lemma preserves_pop_by_key1 (key1 : K1) : preserves (pop_by_key1 k1_eqb k2_eqb key1).
Proof.
  intros self Hc.
  destruct (pd_get k1_eqb (_k1_to_k2 self) key1) as [key2|] eqn:E.
  - destruct (@pop_by_key1_present self key1 key2 Hc E) as (v & a & -> & _ & Hc' & _).
    exact Hc'.
  - rewrite (@pop_by_key1_absent self key1 E). exact Hc.
Qed.

Lemma preserves_pop_by_key2 (key2 : K2) : preserves (pop_by_key2 k1_eqb k2_eqb key2).
Proof.
  intros self Hc.
  destruct (pd_get k2_eqb (_k2_to_k1 self) key2) as [key1|] eqn:E.
  - destruct (@pop_by_key2_present self key1 key2 Hc E) as (v & a & -> & _ & Hc' & _).
    exact Hc'.
  - rewrite (@pop_by_key2_absent self key2 E). exact Hc.
Qed.

(** Assigning to a key [_values] already has. *)
Lemma values_update_consistent (self : dict) (key1 : K1) (value : V) :
  consistent self ->
  pd_contains k1_eqb (_values self) key1 = true ->
  consistent (mk (pd_set k1_eqb (_values self) key1 value)
                 (_k2_to_k1 self) (_k1_to_k2 self)).
Proof.
  intros (Hv & H21 & H12 & Hsame & Hinv) Hk.
  unfold DKD.consistent. cbn [_values _k2_to_k1 _k1_to_k2].
  split; [apply NoDup_pd_set; assumption|].
  split; [exact H21|]. split; [exact H12|]. split; [|exact Hinv].
  intros k. rewrite pd_contains_set by assumption. rewrite <- Hsame.
  destruct (k1_eqb key1 k) eqn:E; [|reflexivity].
  apply k1_eqb_spec in E. subst k. rewrite Hk. reflexivity.
Qed.

Lemma preserves_update_by_key1 (key1 : K1) (value : V) :
  preserves (update_by_key1 k1_eqb key1 value).
Proof.
  intros self Hc. unfold update_by_key1, has_key1, bind, get_self, put_self, ret, raise.
  cbn beta iota.
  destruct (pd_contains k1_eqb (_values self) key1) eqn:E; cbn; [|exact Hc].
  apply values_update_consistent; assumption.
Qed.

Lemma preserves_update_by_key2 (key2 : K2) (value : V) :
  preserves (update_by_key2 k1_eqb k2_eqb key2 value).
Proof.
  intros self Hc. pose proof Hc as (_ & _ & _ & Hsame & Hinv).
  unfold update_by_key2, has_key2, get_key1_for_key2, bind, get_self, put_self,
    ret, raise.
  cbn beta iota. unfold pd_contains.
  destruct (pd_get k2_eqb (_k2_to_k1 self) key2) as [key1|] eqn:E; cbn; [|exact Hc].
  rewrite E. cbn. apply values_update_consistent; [exact Hc|].
  rewrite Hsame. apply pd_contains_true. exists key2. apply Hinv, E.
Qed.

Ltac preserved :=
  repeat first
    [ apply preserves_set | apply preserves_pop_by_key1 | apply preserves_pop_by_key2
    | apply preserves_has_key1 | apply preserves_has_key2
    | apply preserves_get_key2_for_key1 | apply preserves_get_key1_for_key2
    | apply preserves_raise | apply preserves_ret
    | apply preserves_bind
    | intros [|]; cbn [negb]
    | intro ].

Lemma preserves_change_key1_by_key2 (key2 : K2) (new_key1 : K1) :
  preserves (change_key1_by_key2 k1_eqb k2_eqb key2 new_key1).
Proof. unfold change_key1_by_key2. preserved. Qed.

Lemma preserves_change_key2_by_key1 (key1 : K1) (new_key2 : K2) :
  preserves (change_key2_by_key1 k1_eqb k2_eqb key1 new_key2).
Proof. unfold change_key2_by_key1. preserved. Qed.

Lemma preserves_change_key1_key2_by_key1 (old_key1 new_key1 : K1) (new_key2 : K2) :
  preserves (change_key1_key2_by_key1 k1_eqb k2_eqb old_key1 new_key1 new_key2).
Proof. unfold change_key1_key2_by_key1. preserved. Qed.

Lemma preserves_change_key1_key2_by_key2 (old_key2 : K2) (new_key1 : K1) (new_key2 : K2) :
  preserves (change_key1_key2_by_key2 k1_eqb k2_eqb old_key2 new_key1 new_key2).
Proof. unfold change_key1_key2_by_key2. preserved. Qed.

(** The loop body of [__ior__] on a consistent instance. *)
Lemma ior_entry_cases (self : dict) (key1 : K1) (key2 : K2) (evalue : V) :
  consistent self ->
  ior_entry k1_eqb k2_eqb key1 key2 evalue self
  = match pd_get k1_eqb (_k1_to_k2 self) key1, pd_get k2_eqb (_k2_to_k1 self) key2 with
    | None, None => (self, Raise KeyError)
    | Some real_key2, Some _ =>
        if k2_eqb real_key2 key2 then (stored self key1 key2 evalue, Ok tt)
        else (self, Raise ValueError)
    | _, _ => (self, Raise ValueError)
    end.
Proof.
  intros (_ & _ & _ & Hsame & _).
  unfold ior_entry, has_key1, has_key2, get_key2_for_key1, get_key1_for_key2, store,
    bind, get_self, put_self, ret, raise, stored.
  cbn beta iota. rewrite Hsame. unfold pd_contains.
  destruct (pd_get k1_eqb (_k1_to_k2 self) key1) as [real_key2|] eqn:E1;
    destruct (pd_get k2_eqb (_k2_to_k1 self) key2) as [real_key1|] eqn:E2;
    cbn; rewrite ?E1, ?E2; cbn; try reflexivity.
  destruct (k2_eqb real_key2 key2); cbn; rewrite ?E1; reflexivity.
Qed.

Lemma preserves_ior_entry (key1 : K1) (key2 : K2) (evalue : V) :
  preserves (ior_entry k1_eqb k2_eqb key1 key2 evalue).
Proof.
  intros self Hc. rewrite ior_entry_cases by exact Hc.
  destruct (pd_get k1_eqb (_k1_to_k2 self) key1) as [real_key2|] eqn:E1;
    destruct (pd_get k2_eqb (_k2_to_k1 self) key2) as [real_key1|] eqn:E2;
    cbn [fst]; try exact Hc.
  destruct (k2_eqb real_key2 key2) eqn:E; cbn [fst]; [|exact Hc].
  apply k2_eqb_spec in E. subst. apply stored_consistent; auto.
Qed.

Lemma preserves_ior (value : dict) : preserves (ior k1_eqb k2_eqb value).
Proof.
  unfold ior. generalize (_values value) as other_values.
  intros other_values.
  induction (_k1_to_k2 value) as [|[key1 key2] rest IH]; cbn [ior_loop].
  - apply preserves_ret.
  - destruct (pd_get k1_eqb other_values key1); [|apply preserves_raise].
    apply preserves_bind; [apply preserves_ior_entry | intros _; exact IH].
Qed.

Lemma preserves_init_loop (items : list ((K1 * K2) * V)) :
  preserves (init_loop k1_eqb k2_eqb items).
Proof.
  induction items as [|[[key1 key2] value] rest IH]; cbn [init_loop].
  - apply preserves_ret.
  - apply preserves_bind; [apply preserves_set | intros _; exact IH].
Qed.

(** X26.  The class invariant: every mutating method takes a consistent
    instance to a consistent one, whether it returns or raises (the changes
    made before an exception included), and the constructor builds a
    consistent instance from any dict of pairs. *)
Theorem methods_keep_consistent (self : dict) :
  consistent self ->
  (forall key1 key2 value, consistent (fst (set k1_eqb k2_eqb key1 key2 value self)))
  /\ (forall key1 value, consistent (fst (update_by_key1 k1_eqb key1 value self)))
  /\ (forall key2 value, consistent (fst (update_by_key2 k1_eqb k2_eqb key2 value self)))
  /\ (forall key1, consistent (fst (pop_by_key1 k1_eqb k2_eqb key1 self)))
  /\ (forall key2, consistent (fst (pop_by_key2 k1_eqb k2_eqb key2 self)))
  /\ (forall key1 default,
        consistent (fst (pop_by_key1_with_default k1_eqb k2_eqb key1 default self)))
  /\ (forall key2 default,
        consistent (fst (pop_by_key2_with_default k1_eqb k2_eqb key2 default self)))
  /\ (forall key2 new_key1,
        consistent (fst (change_key1_by_key2 k1_eqb k2_eqb key2 new_key1 self)))
  /\ (forall key1 new_key2,
        consistent (fst (change_key2_by_key1 k1_eqb k2_eqb key1 new_key2 self)))
  /\ (forall old_key1 new_key1 new_key2,
        consistent (fst (change_key1_key2_by_key1 k1_eqb k2_eqb
                           old_key1 new_key1 new_key2 self)))
  /\ (forall old_key2 new_key1 new_key2,
        consistent (fst (change_key1_key2_by_key2 k1_eqb k2_eqb
                           old_key2 new_key1 new_key2 self)))
  /\ (forall value, consistent (fst (ior k1_eqb k2_eqb value self)))
  /\ consistent (fst (clear self))
  /\ (forall iterable, consistent (fst (init k1_eqb k2_eqb iterable))).
Proof.
  intros Hc.
  split; [intros; apply preserves_set, Hc|].
  split; [intros; apply preserves_update_by_key1, Hc|].
  split; [intros; apply preserves_update_by_key2, Hc|].
  split; [intros; apply preserves_pop_by_key1, Hc|].
  split; [intros; apply preserves_pop_by_key2, Hc|].
  split; [intros; apply preserves_except;
          [apply preserves_pop_by_key1 | apply preserves_ret | exact Hc]|].
  split; [intros; apply preserves_except;
          [apply preserves_pop_by_key2 | apply preserves_ret | exact Hc]|].
  split; [intros; apply preserves_change_key1_by_key2, Hc|].
  split; [intros; apply preserves_change_key2_by_key1, Hc|].
  split; [intros; apply preserves_change_key1_key2_by_key1, Hc|].
  split; [intros; apply preserves_change_key1_key2_by_key2, Hc|].
  split; [intros; apply preserves_ior, Hc|].
  split; [apply empty_consistent|].
  intros [items|]; cbn [init fst]; [|apply empty_consistent].
  apply preserves_init_loop, empty_consistent.
Qed.


(** ** Changing keys                                                      *)

(** [set] after the entry was popped. *)
Lemma set_after_pop (self after : dict) (old1 : K1) (old2 : K2) (new1 : K1) (new2 : K2)
    (value : V) :
  consistent self ->
  consistent after ->
  removed self old1 old2 after ->
  pd_get k1_eqb (_values self) old1 = Some value ->
  new1 = old1 \/ pd_get k1_eqb (_k1_to_k2 self) new1 = None ->
  new2 = old2 \/ pd_get k2_eqb (_k2_to_k1 self) new2 = None ->
  entry_moved self old1 old2 new1 new2 (set k1_eqb k2_eqb new1 new2 value after).
Proof.
  intros Hc Hc' (Hv & H12 & H21 & Hlen) Hval Hn1 Hn2.
  pose proof Hc as (_ & _ & _ & Hsame & _).
  assert (A1 : pd_get k1_eqb (_k1_to_k2 after) new1 = None).
  { rewrite H12. destruct (k1_eqb old1 new1) eqn:E; [reflexivity|].
    destruct Hn1 as [-> | Hn1]; [|exact Hn1].
    rewrite (proj2 (k1_eqb_spec _ _) eq_refl) in E. discriminate. }
  assert (A2 : pd_get k2_eqb (_k2_to_k1 after) new2 = None).
  { rewrite H21. destruct (k2_eqb old2 new2) eqn:E; [reflexivity|].
    destruct Hn2 as [-> | Hn2]; [|exact Hn2].
    rewrite (proj2 (k2_eqb_spec _ _) eq_refl) in E. discriminate. }
  assert (A3 : pd_contains k1_eqb (_values after) new1 = false).
  { destruct Hc' as (_ & _ & _ & Hsame' & _). rewrite Hsame'.
    apply pd_contains_false, A1. }
  rewrite set_cases by exact Hc'. rewrite A1, A2.
  unfold DKD.entry_moved. cbn [fst snd]. read_getters.
  unfold stored, len. cbn [_values _k2_to_k1 _k1_to_k2].
  rewrite ?pd_get_set by assumption.
  rewrite ?(proj2 (k1_eqb_spec _ _) eq_refl), ?(proj2 (k2_eqb_spec _ _) eq_refl).
  cbn beta iota. rewrite ?pd_get_set by assumption.
  rewrite ?(proj2 (k1_eqb_spec _ _) eq_refl). rewrite Hval. cbn [found].
  split; [reflexivity|]. split; [exists value; auto|].
  split; [reflexivity|]. split; [reflexivity|].
  split; [|split; [|split]].
  - intros Hne. unfold pd_contains. rewrite pd_get_set by assumption.
    rewrite (key_eqb_neq k1_eqb k1_eqb_spec) by congruence.
    rewrite Hv, (proj2 (k1_eqb_spec _ _) eq_refl). reflexivity.
  - intros Hne. unfold pd_contains. rewrite pd_get_set by assumption.
    rewrite (key_eqb_neq k2_eqb k2_eqb_spec) by congruence.
    rewrite H21, (proj2 (k2_eqb_spec _ _) eq_refl). reflexivity.
  - rewrite length_pd_set, A3. unfold len in Hlen. symmetry. exact Hlen.
  - intros k Ho Hn. rewrite !get_by_key1_eq. cbn [snd _values].
    rewrite pd_get_set by assumption.
    rewrite (key_eqb_neq k1_eqb k1_eqb_spec) by congruence.
    rewrite Hv. rewrite (key_eqb_neq k1_eqb k1_eqb_spec) by congruence. reflexivity.
Qed.

(** Pop by either key, then [set]. *)
Lemma pop_then_set (self : dict) (old1 : K1) (old2 : K2) (new1 : K1) (new2 : K2) :
  consistent self ->
  pd_get k1_eqb (_k1_to_k2 self) old1 = Some old2 ->
  new1 = old1 \/ pd_get k1_eqb (_k1_to_k2 self) new1 = None ->
  new2 = old2 \/ pd_get k2_eqb (_k2_to_k1 self) new2 = None ->
  entry_moved self old1 old2 new1 new2
    (bind (pop_by_key1 k1_eqb k2_eqb old1)
          (fun value => set k1_eqb k2_eqb new1 new2 value) self)
  /\ entry_moved self old1 old2 new1 new2
       (bind (pop_by_key2 k1_eqb k2_eqb old2)
             (fun value => set k1_eqb k2_eqb new1 new2 value) self).
Proof.
  intros Hc Hk Hn1 Hn2. pose proof Hc as (_ & _ & _ & _ & Hinv).
  destruct (@pop_by_key1_present self old1 old2 Hc Hk)
    as (value & after & Hpop & Hval & Hc' & Hr).
  destruct (@pop_by_key2_present self old1 old2 Hc (proj1 (Hinv _ _) Hk))
    as (value2 & after2 & Hpop2 & Hval2 & Hc2 & Hr2).
  unfold bind. rewrite Hpop, Hpop2. split.
  - exact (@set_after_pop self after old1 old2 new1 new2 value Hc Hc' Hr Hval Hn1 Hn2).
  - exact (@set_after_pop self after2 old1 old2 new1 new2 value2 Hc Hc2 Hr2 Hval2 Hn1 Hn2).
Qed.

Lemma bind_has_key1 (A : Type) (key1 : K1) (k : bool -> M K1 K2 V A) (self : dict) :
  bind (has_key1 k1_eqb key1) k self = k (pd_contains k1_eqb (_values self) key1) self.
Proof. reflexivity. Qed.

Lemma bind_has_key2 (A : Type) (key2 : K2) (k : bool -> M K1 K2 V A) (self : dict) :
  bind (has_key2 k2_eqb key2) k self = k (pd_contains k2_eqb (_k2_to_k1 self) key2) self.
Proof. reflexivity. Qed.

(** X27.  The four key changes move one entry: on a consistent instance
    where key1 [old1] is paired with [old2] and [new1], [new2] are not keys,
    each [change_*] call returns, the value of the entry is afterwards read
    by the new pair of keys, the replaced keys are gone and the length is
    unchanged. *)
Theorem change_keys_move_entry (self : dict) (old1 : K1) (old2 : K2)
    (new1 : K1) (new2 : K2) :
  consistent self ->
  snd (get_key2_for_key1 k1_eqb old1 self) = Ok old2 ->
  snd (has_key1 k1_eqb new1 self) = Ok false ->
  snd (has_key2 k2_eqb new2 self) = Ok false ->
  entry_moved self old1 old2 new1 old2
    (change_key1_by_key2 k1_eqb k2_eqb old2 new1 self)
  /\ entry_moved self old1 old2 old1 new2
       (change_key2_by_key1 k1_eqb k2_eqb old1 new2 self)
  /\ entry_moved self old1 old2 new1 new2
       (change_key1_key2_by_key1 k1_eqb k2_eqb old1 new1 new2 self)
  /\ entry_moved self old1 old2 new1 new2
       (change_key1_key2_by_key2 k1_eqb k2_eqb old2 new1 new2 self).
Proof.
  intros Hc Hk Hn1 Hn2. pose proof Hc as (_ & _ & _ & Hsame & Hinv).
  rewrite get_key2_for_key1_eq in Hk. cbn [snd] in Hk. apply found_ok in Hk.
  rewrite has_key1_eq in Hn1. cbn [snd] in Hn1. apply ok_inj in Hn1.
  rewrite has_key2_eq in Hn2. cbn [snd] in Hn2. apply ok_inj in Hn2.
  assert (Hk' : pd_get k2_eqb (_k2_to_k1 self) old2 = Some old1) by (apply Hinv, Hk).
  assert (P1 : pd_contains k1_eqb (_values self) old1 = true).
  { rewrite Hsame. apply pd_contains_true. eauto. }
  assert (P2 : pd_contains k2_eqb (_k2_to_k1 self) old2 = true).
  { apply pd_contains_true. eauto. }
  assert (A1 : pd_get k1_eqb (_k1_to_k2 self) new1 = None).
  { apply pd_contains_false. rewrite <- Hsame. exact Hn1. }
  assert (A2 : pd_get k2_eqb (_k2_to_k1 self) new2 = None).
  { apply pd_contains_false. exact Hn2. }
  destruct (@pop_then_set self old1 old2 new1 old2 Hc Hk (or_intror A1) (or_introl eq_refl))
    as [_ M1].
  destruct (@pop_then_set self old1 old2 old1 new2 Hc Hk (or_introl eq_refl) (or_intror A2))
    as [M2 _].
  destruct (@pop_then_set self old1 old2 new1 new2 Hc Hk (or_intror A1) (or_intror A2))
    as [M3 M4].
  split; [|split; [|split]].
  - unfold change_key1_by_key2.
    rewrite bind_has_key2, P2. cbn [negb]. rewrite bind_has_key1, Hn1. exact M1.
  - unfold change_key2_by_key1.
    rewrite bind_has_key1, P1. cbn [negb]. rewrite bind_has_key2, Hn2. exact M2.
  - unfold change_key1_key2_by_key1.
    rewrite bind_has_key1, P1. cbn [negb]. rewrite bind_has_key1, Hn1.
    rewrite bind_has_key2, Hn2. exact M3.
  - unfold change_key1_key2_by_key2.
    rewrite bind_has_key2, P2. cbn [negb]. rewrite bind_has_key1, Hn1.
    rewrite bind_has_key2, Hn2. exact M4.
Qed.


(** X28.  What the key changes refuse, leaving the instance as it was:
    [KeyError] when the entry to change does not exist, [ValueError] when a
    new key is already a key; this includes the key the entry has already,
    so changing a key to itself raises [ValueError]. *)
Theorem change_keys_refuse (self : dict) (key1 : K1) (key2 : K2)
    (new_key1 : K1) (new_key2 : K2) :
  consistent self ->
  (snd (has_key2 k2_eqb key2 self) = Ok false ->
     change_key1_by_key2 k1_eqb k2_eqb key2 new_key1 self = (self, Raise KeyError)
     /\ change_key1_key2_by_key2 k1_eqb k2_eqb key2 new_key1 new_key2 self
        = (self, Raise KeyError))
  /\ (snd (has_key1 k1_eqb key1 self) = Ok false ->
        change_key2_by_key1 k1_eqb k2_eqb key1 new_key2 self = (self, Raise KeyError)
        /\ change_key1_key2_by_key1 k1_eqb k2_eqb key1 new_key1 new_key2 self
           = (self, Raise KeyError))
  /\ (snd (has_key2 k2_eqb key2 self) = Ok true ->
      snd (has_key1 k1_eqb new_key1 self) = Ok true ->
        change_key1_by_key2 k1_eqb k2_eqb key2 new_key1 self = (self, Raise ValueError)
        /\ change_key1_key2_by_key2 k1_eqb k2_eqb key2 new_key1 new_key2 self
           = (self, Raise ValueError))
  /\ (snd (has_key1 k1_eqb key1 self) = Ok true ->
      snd (has_key2 k2_eqb new_key2 self) = Ok true ->
        change_key2_by_key1 k1_eqb k2_eqb key1 new_key2 self = (self, Raise ValueError)
        /\ (snd (has_key1 k1_eqb new_key1 self) = Ok false ->
            change_key1_key2_by_key1 k1_eqb k2_eqb key1 new_key1 new_key2 self
            = (self, Raise ValueError)))
  /\ (snd (get_key2_for_key1 k1_eqb key1 self) = Ok key2 ->
        change_key1_by_key2 k1_eqb k2_eqb key2 key1 self = (self, Raise ValueError)
        /\ change_key2_by_key1 k1_eqb k2_eqb key1 key2 self = (self, Raise ValueError)).
Proof.
  intros Hc. pose proof Hc as (_ & _ & _ & Hsame & Hinv).
  assert (G1 : forall k, pd_contains k1_eqb (_values self) k = true ->
                 bind (get_key2_for_key1 k1_eqb k) (fun _ => raise ValueError) self
                 = (self, @Raise unit ValueError)).
  { intros k Hk. rewrite Hsame in Hk. apply pd_contains_true in Hk.
    destruct Hk as [b Hb]. unfold bind. rewrite get_key2_for_key1_eq, Hb. reflexivity. }
  assert (G2 : forall k, pd_contains k2_eqb (_k2_to_k1 self) k = true ->
                 bind (get_key1_for_key2 k2_eqb k) (fun _ => raise ValueError) self
                 = (self, @Raise unit ValueError)).
  { intros k Hk. apply pd_contains_true in Hk.
    destruct Hk as [b Hb]. unfold bind. rewrite get_key1_for_key2_eq, Hb. reflexivity. }
  rewrite !has_key1_eq, !has_key2_eq, get_key2_for_key1_eq. cbn [snd].
  unfold change_key1_by_key2, change_key2_by_key1, change_key1_key2_by_key1,
    change_key1_key2_by_key2.
  split; [|split; [|split; [|split]]].
  - intros H. apply ok_inj in H.
    rewrite !bind_has_key2, H. split; reflexivity.
  - intros H. apply ok_inj in H.
    rewrite !bind_has_key1, H. split; reflexivity.
  - intros H H'. apply ok_inj in H. apply ok_inj in H'.
    rewrite !bind_has_key2, H. cbn [negb]. rewrite !bind_has_key1, H'.
    split; apply G1, H'.
  - intros H H'. apply ok_inj in H. apply ok_inj in H'.
    rewrite !bind_has_key1, H. cbn [negb]. rewrite bind_has_key2, H'.
    split; [apply G2, H'|].
    intros H''. apply ok_inj in H''. rewrite bind_has_key1, H''.
    rewrite bind_has_key2, H'. apply G2, H'.
  - intros H. apply found_ok in H.
    assert (P1 : pd_contains k1_eqb (_values self) key1 = true).
    { rewrite Hsame. apply pd_contains_true. eauto. }
    assert (P2 : pd_contains k2_eqb (_k2_to_k1 self) key2 = true).
    { apply pd_contains_true. exists key1. apply Hinv, H. }
    rewrite bind_has_key2, P2. cbn [negb]. rewrite !bind_has_key1, P1. cbn [negb].
    rewrite bind_has_key2, P2. split; [apply G1, P1 | apply G2, P2].
Qed.


(** ** Merging                                                            *)

Lemma pd_get_some_in (K A : Type) (eqb : K -> K -> bool)
    (Hspec : forall a b, eqb a b = true <-> a = b)
    (d : list (K * A)) (k : K) (v : A) :
  pd_get eqb d k = Some v -> In k (map fst d).
Proof.
  induction d as [|[k' v'] rest IH]; simpl; [discriminate|].
  destruct (eqb k' k) eqn:E.
  - intros _. left. apply Hspec, E.
  - intros H. right. apply IH, H.
Qed.

Lemma in_keys_dec (A : Type) (d : list (K1 * A)) (k : K1) :
  In k (map fst d) \/ ~ In k (map fst d).
Proof.
  destruct (pd_get k1_eqb d k) as [v|] eqn:E.
  - left. exact (@pd_get_some_in _ _ k1_eqb k1_eqb_spec d k v E).
  - right. apply (pd_get_notin k1_eqb k1_eqb_spec). exact E.
Qed.

(** What the loop of [__ior__] has done when it returns. *)
Lemma ior_loop_returns (other_values : list (K1 * V)) (entries : list (K1 * K2)) :
  forall self,
    consistent self ->
    snd (ior_loop k1_eqb k2_eqb other_values entries self) = Ok tt ->
    let after := fst (ior_loop k1_eqb k2_eqb other_values entries self) in
    (forall key1 key2, In (key1, key2) entries ->
       pd_get k1_eqb (_k1_to_k2 self) key1 = Some key2
       /\ pd_get k1_eqb (_values after) key1 = pd_get k1_eqb other_values key1)
    /\ (forall key1, ~ In key1 (map fst entries) ->
          pd_get k1_eqb (_values after) key1 = pd_get k1_eqb (_values self) key1)
    /\ (forall key1, pd_get k1_eqb (_k1_to_k2 after) key1
                     = pd_get k1_eqb (_k1_to_k2 self) key1)
    /\ (forall key2, pd_get k2_eqb (_k2_to_k1 after) key2
                     = pd_get k2_eqb (_k2_to_k1 self) key2)
    /\ (forall key1, pd_contains k1_eqb (_values after) key1
                     = pd_contains k1_eqb (_values self) key1)
    /\ len after = len self.
Proof.
  induction entries as [|[k1 k2] rest IH]; intros self Hc; cbn [ior_loop].
  - intros _. cbn. split; [intros a b []|]. repeat split; auto.
  - destruct (pd_get k1_eqb other_values k1) as [evalue|] eqn:Ev; [|discriminate].
    cbn zeta. unfold bind. rewrite ior_entry_cases by exact Hc.
    pose proof Hc as (_ & _ & _ & Hsame & Hinv).
    destruct (pd_get k1_eqb (_k1_to_k2 self) k1) as [real_key2|] eqn:E1;
      destruct (pd_get k2_eqb (_k2_to_k1 self) k2) as [real_key1|] eqn:E2;
      try discriminate.
    destruct (k2_eqb real_key2 k2) eqn:E; [|discriminate].
    apply k2_eqb_spec in E. subst real_key2.
    assert (E2' : pd_get k2_eqb (_k2_to_k1 self) k2 = Some k1) by (apply Hinv, E1).
    assert (Hc1 : consistent (stored self k1 k2 evalue))
      by (apply stored_consistent; auto).
    intros Hok. specialize (IH _ Hc1 Hok). cbn zeta in *.
    set (after := fst (ior_loop k1_eqb k2_eqb other_values rest (stored self k1 k2 evalue)))
      in *.
    destruct IH as (I1 & I2 & I3 & I4 & I5 & I6).
    assert (S12 : forall k, pd_get k1_eqb (_k1_to_k2 (stored self k1 k2 evalue)) k
                            = pd_get k1_eqb (_k1_to_k2 self) k).
    { intros k. unfold stored. cbn [_k1_to_k2]. rewrite pd_get_set by assumption.
      destruct (k1_eqb k1 k) eqn:Ek; [|reflexivity].
      apply k1_eqb_spec in Ek. subst k. symmetry. exact E1. }
    split; [|split; [|split; [|split; [|split]]]].
    + intros a b [Heq | Hin].
      * injection Heq as <- <-. split; [exact E1|].
        destruct (in_keys_dec rest k1) as [Hin | Hnot].
        -- apply in_map_iff in Hin. destruct Hin as ([a b] & Ha & Hin).
           cbn in Ha. subst a. apply (proj2 (I1 _ _ Hin)).
        -- rewrite (I2 _ Hnot). unfold stored. cbn [_values].
           rewrite pd_get_set by assumption.
           rewrite (proj2 (k1_eqb_spec _ _) eq_refl). symmetry. exact Ev.
      * destruct (I1 _ _ Hin) as [Ha Hb]. rewrite S12 in Ha. auto.
    + intros a Hnot. cbn [map fst] in Hnot.
      rewrite I2 by (intros Hin; apply Hnot; right; exact Hin).
      unfold stored. cbn [_values]. rewrite pd_get_set by assumption.
      destruct (k1_eqb k1 a) eqn:Ek; [|reflexivity].
      apply k1_eqb_spec in Ek. subst a. exfalso. apply Hnot. left. reflexivity.
    + intros k. rewrite I3. apply S12.
    + intros k. rewrite I4. unfold stored. cbn [_k2_to_k1].
      rewrite pd_get_set by assumption.
      destruct (k2_eqb k2 k) eqn:Ek; [|reflexivity].
      apply k2_eqb_spec in Ek. subst k. symmetry. exact E2'.
    + intros k. rewrite I5. unfold stored. cbn [_values].
      rewrite pd_contains_set by assumption.
      destruct (k1_eqb k1 k) eqn:Ek; [|reflexivity].
      apply k1_eqb_spec in Ek. subst k. rewrite Hsame. cbn [orb]. symmetry.
      apply pd_contains_true. eauto.
    + rewrite I6. unfold len, stored. cbn [_values]. rewrite length_pd_set.
      rewrite Hsame. unfold pd_contains. rewrite E1. reflexivity.
Qed.

(** X29.  [__ior__] (and [update]) only overwrite: when the call on a
    consistent instance returns, every pair of keys of [value] was already
    a pair of the instance, whose keys, pairing and length are unchanged;
    the values of [value] are written over those of the instance and the
    other values are kept.  An entry of [value] with two new keys is not
    added: met first, it raises [KeyError] and nothing is changed. *)
Theorem ior_only_overwrites (self value : dict) :
  consistent self ->
  (snd (ior k1_eqb k2_eqb value self) = Ok tt ->
   let after := fst (ior k1_eqb k2_eqb value self) in
   (forall key1 key2, In (key1, key2) (_k1_to_k2 value) ->
      snd (get_key2_for_key1 k1_eqb key1 self) = Ok key2
      /\ snd (get_by_key1 k1_eqb key1 after) = snd (get_by_key1 k1_eqb key1 value))
   /\ (forall key1, ~ In key1 (map fst (_k1_to_k2 value)) ->
         snd (get_by_key1 k1_eqb key1 after) = snd (get_by_key1 k1_eqb key1 self))
   /\ (forall key1, snd (has_key1 k1_eqb key1 after) = snd (has_key1 k1_eqb key1 self))
   /\ (forall key1, snd (get_key2_for_key1 k1_eqb key1 after)
                    = snd (get_key2_for_key1 k1_eqb key1 self))
   /\ (forall key2, snd (get_key1_for_key2 k2_eqb key2 after)
                    = snd (get_key1_for_key2 k2_eqb key2 self))
   /\ len after = len self)
  /\ (forall key1 key2 rest,
        _k1_to_k2 value = (key1, key2) :: rest ->
        snd (has_key1 k1_eqb key1 value) = Ok true ->
        snd (has_key1 k1_eqb key1 self) = Ok false ->
        snd (has_key2 k2_eqb key2 self) = Ok false ->
        ior k1_eqb k2_eqb value self = (self, Raise KeyError)
        /\ update k1_eqb k2_eqb value self = (self, Raise KeyError)
        /\ or_ k1_eqb k2_eqb value self = (self, Raise KeyError)).
Proof.
  intros Hc. split.
  - intros Hok.
    destruct (@ior_loop_returns (_values value) (_k1_to_k2 value) self Hc Hok)
      as (I1 & I2 & I3 & I4 & I5 & I6).
    cbn zeta. unfold ior in *.
    set (after := fst (ior_loop k1_eqb k2_eqb (_values value) (_k1_to_k2 value) self)) in *.
    split; [|split; [|split; [|split; [|split]]]].
    + intros a b Hin. destruct (I1 a b Hin) as [Ha Hb].
      rewrite get_key2_for_key1_eq, !get_by_key1_eq. cbn [snd].
      rewrite Ha, Hb. split; reflexivity.
    + intros a Hnot. rewrite !get_by_key1_eq. cbn [snd]. rewrite I2 by exact Hnot.
      reflexivity.
    + intros a. rewrite !has_key1_eq. cbn [snd]. rewrite I5. reflexivity.
    + intros a. rewrite !get_key2_for_key1_eq. cbn [snd]. rewrite I3. reflexivity.
    + intros b. rewrite !get_key1_for_key2_eq. cbn [snd]. rewrite I4. reflexivity.
    + exact I6.
  - intros key1 key2 rest Hentries Hv H1 H2.
    pose proof Hc as (_ & _ & _ & Hsame & _).
    rewrite has_key1_eq in Hv, H1. rewrite has_key2_eq in H2. cbn [snd] in *.
    apply ok_inj in Hv. apply ok_inj in H1. apply ok_inj in H2.
    apply pd_contains_true in Hv. destruct Hv as [evalue Hv].
    rewrite Hsame in H1. apply pd_contains_false in H1. apply pd_contains_false in H2.
    assert (Hior : ior k1_eqb k2_eqb value self = (self, Raise KeyError)).
    { unfold ior. rewrite Hentries. cbn [ior_loop]. rewrite Hv.
      unfold bind. rewrite ior_entry_cases by exact Hc. rewrite H1, H2. reflexivity. }
    unfold update, or_. rewrite Hior. auto.
Qed.


End MethodFacts.


(** ** from_single_key_value                                              *)

Section SingleKeyFacts.
Variables K V : Type.
Variable k_eqb : K -> K -> bool.
Hypothesis k_eqb_spec : forall a b, k_eqb a b = true <-> a = b.

Local Abbreviation dict_of := (@dict_of K V k_eqb).

Definition dup (kv : K * V) : (K * K) * V := ((fst kv, fst kv), snd kv).

Lemma pd_set_dup (acc : list (K * V)) (k : K) (v : V) :
  pd_set (pair_eqb k_eqb) (map dup acc) (k, k) v = map dup (pd_set k_eqb acc k v).
Proof.
  induction acc as [|[k' v'] rest IH]; [reflexivity|].
  cbn [map dup pd_set fst snd]. unfold pair_eqb at 1. cbn [fst snd].
  destruct (k_eqb k' k); cbn [andb map dup fst snd]; [reflexivity|].
  rewrite IH. reflexivity.
Qed.

Lemma comprehension_dup (iterable : list (K * V)) :
  forall acc,
    fold_left (fun d kv => pd_set (pair_eqb k_eqb) d (fst kv, fst kv) (snd kv))
      iterable (map dup acc)
    = map dup (fold_left (fun d kv => pd_set k_eqb d (fst kv) (snd kv)) iterable acc).
Proof.
  induction iterable as [|[k v] rest IH]; intros acc; [reflexivity|].
  cbn [fold_left fst snd]. rewrite pd_set_dup. apply IH.
Qed.

Lemma dict_of_keys_distinct (iterable : list (K * V)) :
  NoDup (map fst (dict_of iterable)).
Proof.
  unfold DKD.dict_of.
  assert (H : forall acc, NoDup (map fst acc) ->
            NoDup (map fst (fold_left (fun d kv => pd_set k_eqb d (fst kv) (snd kv))
                              iterable acc))).
  { induction iterable as [|[k v] rest IH]; intros acc Hacc; [exact Hacc|].
    cbn [fold_left fst snd]. apply IH. apply NoDup_pd_set; assumption. }
  apply H. constructor.
Qed.

(** The loop of [__init__] over entries keyed by [(key, key)] for distinct
    keys that are new to the instance. *)
Lemma init_loop_dup (d : list (K * V)) :
  forall self,
    consistent k_eqb k_eqb self ->
    NoDup (map fst d) ->
    (forall k, In k (map fst d) ->
       pd_get k_eqb (_k1_to_k2 self) k = None /\ pd_get k_eqb (_k2_to_k1 self) k = None) ->
    snd (init_loop k_eqb k_eqb (map dup d) self) = Ok tt
    /\ (forall k, pd_get k_eqb (_values (fst (init_loop k_eqb k_eqb (map dup d) self))) k
                  = match pd_get k_eqb d k with
                    | Some v => Some v
                    | None => pd_get k_eqb (_values self) k
                    end)
    /\ (forall k, pd_get k_eqb (_k1_to_k2 (fst (init_loop k_eqb k_eqb (map dup d) self))) k
                  = match pd_get k_eqb d k with
                    | Some _ => Some k
                    | None => pd_get k_eqb (_k1_to_k2 self) k
                    end)
    /\ (forall k, pd_get k_eqb (_k2_to_k1 (fst (init_loop k_eqb k_eqb (map dup d) self))) k
                  = match pd_get k_eqb d k with
                    | Some _ => Some k
                    | None => pd_get k_eqb (_k2_to_k1 self) k
                    end)
    /\ len (fst (init_loop k_eqb k_eqb (map dup d) self))
       = (len self + List.length d)%nat.
Proof.
  induction d as [|[k v] rest IH]; intros self Hc Hnd Hnew.
  - cbn. repeat split; auto.
  - cbn [map dup fst snd init_loop]. unfold bind.
    destruct (Hnew k (or_introl eq_refl)) as [N1 N2].
    rewrite (@set_cases K K V k_eqb k_eqb self k k v Hc). rewrite N1, N2.
    inversion Hnd as [|? ? Hnotin Hrest]; subst.
    assert (Hc1 : consistent k_eqb k_eqb (stored k_eqb k_eqb self k k v)).
    { apply stored_consistent; auto. }
    assert (Hnew1 : forall q, In q (map fst rest) ->
              pd_get k_eqb (_k1_to_k2 (stored k_eqb k_eqb self k k v)) q = None
              /\ pd_get k_eqb (_k2_to_k1 (stored k_eqb k_eqb self k k v)) q = None).
    { intros q Hq. unfold stored. cbn [_k1_to_k2 _k2_to_k1].
      rewrite !pd_get_set by assumption.
      destruct (k_eqb k q) eqn:E.
      - apply k_eqb_spec in E. subst q. contradiction.
      - apply Hnew. right. exact Hq. }
    destruct (IH _ Hc1 Hrest Hnew1) as (I0 & I1 & I2 & I3 & I4).
    assert (Hrk : pd_get k_eqb rest k = None)
      by (apply (pd_get_notin k_eqb k_eqb_spec); exact Hnotin).
    split; [exact I0|].
    split; [|split; [|split]].
    + intros q. rewrite I1. cbn [pd_get]. unfold stored. cbn [_values].
      rewrite pd_get_set by assumption.
      destruct (k_eqb k q) eqn:E; [|reflexivity].
      apply k_eqb_spec in E. subst q. rewrite Hrk. reflexivity.
    + intros q. rewrite I2. cbn [pd_get]. unfold stored. cbn [_k1_to_k2].
      rewrite pd_get_set by assumption.
      destruct (k_eqb k q) eqn:E; [|reflexivity].
      apply k_eqb_spec in E. subst q. rewrite Hrk. reflexivity.
    + intros q. rewrite I3. cbn [pd_get]. unfold stored. cbn [_k2_to_k1].
      rewrite pd_get_set by assumption.
      destruct (k_eqb k q) eqn:E; [|reflexivity].
      apply k_eqb_spec in E. subst q. rewrite Hrk. reflexivity.
    + rewrite I4. unfold len, stored. cbn [_values List.length].
      rewrite length_pd_set.
      destruct Hc as (_ & _ & _ & Hsame & _). rewrite Hsame.
      unfold pd_contains. rewrite N1. lia.
Qed.

(** X30.  [from_single_key_value] never raises: it returns the instance in
    which every key of [dict(iterable)] is both key1 and key2 of one entry,
    paired with itself and holding the value [dict(iterable)] has for it
    (the last one given); no other key is a key, and the length is that of
    [dict(iterable)]. *)
Theorem from_single_key_value_reads (iterable : list (K * V)) :
  let made := from_single_key_value k_eqb iterable in
  snd made = Ok tt
  /\ (forall k v, pd_get k_eqb (dict_of iterable) k = Some v ->
        snd (get_by_key1 k_eqb k (fst made)) = Ok v
        /\ snd (get_by_key2 k_eqb k_eqb k (fst made)) = Ok v
        /\ snd (get_key2_for_key1 k_eqb k (fst made)) = Ok k
        /\ snd (get_key1_for_key2 k_eqb k (fst made)) = Ok k)
  /\ (forall k, pd_get k_eqb (dict_of iterable) k = None ->
        snd (has_key1 k_eqb k (fst made)) = Ok false
        /\ snd (has_key2 k_eqb k (fst made)) = Ok false)
  /\ len (fst made) = List.length (dict_of iterable).
Proof.
  cbn zeta. unfold from_single_key_value, init.
  change (@nil ((K * K) * V)) with (map dup []).
  rewrite comprehension_dup. fold (DKD.dict_of k_eqb iterable).
  destruct (@init_loop_dup (dict_of iterable) (empty K K V))
    as (I0 & I1 & I2 & I3 & I4).
  { apply empty_consistent. }
  { apply dict_of_keys_distinct. }
  { intros k _. split; reflexivity. }
  split; [exact I0|]. split; [|split].
  - intros k v Hk.
    rewrite get_by_key1_eq, get_by_key2_eq, get_key2_for_key1_eq, get_key1_for_key2_eq.
    cbn [snd]. rewrite I3, I2, Hk. rewrite I1, Hk. cbn. auto.
  - intros k Hk. rewrite has_key1_eq, has_key2_eq. cbn [snd].
    unfold pd_contains. rewrite I1, I3, Hk. cbn. auto.
  - rewrite I4. reflexivity.
Qed.

End SingleKeyFacts.


(** ** The theorems at [sample_dkd]                                     *)

Lemma sample_dkd_consistent : consistent Nat.eqb String.eqb sample_dkd.
Proof.
  unfold sample_dkd.
  apply (@set_consistent nat string Z Nat.eqb String.eqb Nat.eqb_eq String.eqb_eq).
  apply (@set_consistent nat string Z Nat.eqb String.eqb Nat.eqb_eq String.eqb_eq).
  apply (@empty_consistent nat string Z Nat.eqb String.eqb).
Qed.

Lemma set_then_get_witness :
  snd (get_by_key2 Nat.eqb String.eqb "three"
         (fst (set Nat.eqb String.eqb 3%nat "three" 30 sample_dkd))) = Ok 30.
Proof.
  exact (proj1 (proj2 (@set_then_get nat string Z Nat.eqb String.eqb
                         Nat.eqb_eq String.eqb_eq sample_dkd 3%nat "three" 30
                         sample_dkd_consistent eq_refl))).
Defined.

Lemma set_refuses_other_partner_witness :
  set Nat.eqb String.eqb 1%nat "two" 5 sample_dkd = (sample_dkd, Raise ValueError)
  /\ snd (set Nat.eqb String.eqb 3%nat "three" 30 sample_dkd) = Ok tt.
Proof.
  split.
  - destruct (proj1 (@set_refuses_other_partner nat string Z Nat.eqb String.eqb
                       String.eqb_eq sample_dkd 1%nat "two" 5
                       sample_dkd_consistent)) as [H | H].
    + discriminate H.
    + exact H.
  - exact (proj2 (proj2 (@set_refuses_other_partner nat string Z Nat.eqb String.eqb
                           String.eqb_eq sample_dkd 3%nat "three" 30
                           sample_dkd_consistent))
             (or_introl (conj eq_refl eq_refl))).
Defined.

Lemma pop_removes_entry_witness :
  pop_by_key2 Nat.eqb String.eqb "one" sample_dkd
  = pop_by_key1 Nat.eqb String.eqb 1%nat sample_dkd.
Proof.
  exact (proj1 (@pop_removes_entry nat string Z Nat.eqb String.eqb
                  Nat.eqb_eq String.eqb_eq sample_dkd 1%nat "one"
                  sample_dkd_consistent eq_refl)).
Defined.

Lemma pop_absent_raises_witness :
  pop_by_key1 Nat.eqb String.eqb 7%nat sample_dkd = (sample_dkd, Raise KeyError)
  /\ pop_by_key1_with_default Nat.eqb String.eqb 7%nat 0 sample_dkd = (sample_dkd, Ok 0).
Proof.
  exact (proj1 (@pop_absent_raises nat string Z Nat.eqb String.eqb
                  Nat.eqb_eq String.eqb_eq sample_dkd 7%nat "seven" 0
                  sample_dkd_consistent) eq_refl).
Defined.

Lemma methods_keep_consistent_witness :
  consistent Nat.eqb String.eqb
    (fst (change_key1_by_key2 Nat.eqb String.eqb "one" 2%nat sample_dkd)).
Proof.
  destruct (@methods_keep_consistent nat string Z Nat.eqb String.eqb
              Nat.eqb_eq String.eqb_eq sample_dkd sample_dkd_consistent)
    as (_ & _ & _ & _ & _ & _ & _ & H & _).
  exact (H "one" 2%nat).
Defined.

Lemma change_keys_move_entry_witness :
  entry_moved Nat.eqb String.eqb sample_dkd 1%nat "one" 5%nat "one"
    (change_key1_by_key2 Nat.eqb String.eqb "one" 5%nat sample_dkd).
Proof.
  exact (proj1 (@change_keys_move_entry nat string Z Nat.eqb String.eqb
                  Nat.eqb_eq String.eqb_eq sample_dkd 1%nat "one" 5%nat "five"
                  sample_dkd_consistent eq_refl eq_refl eq_refl)).
Defined.

Lemma change_keys_refuse_witness :
  change_key1_by_key2 Nat.eqb String.eqb "one" 1%nat sample_dkd
  = (sample_dkd, Raise ValueError).
Proof.
  destruct (@change_keys_refuse nat string Z Nat.eqb String.eqb
              sample_dkd 1%nat "one" 1%nat "one"
              sample_dkd_consistent)
    as (_ & _ & _ & _ & H).
  exact (proj1 (H eq_refl)).
Defined.

Lemma ior_only_overwrites_witness :
  ior Nat.eqb String.eqb sample_dkd (empty nat string Z)
  = (empty nat string Z, Raise KeyError).
Proof.
  destruct (@ior_only_overwrites nat string Z Nat.eqb String.eqb
              Nat.eqb_eq String.eqb_eq (empty nat string Z) sample_dkd
              (@empty_consistent nat string Z Nat.eqb String.eqb))
    as [_ H].
  exact (proj1 (H 2%nat "two" [(1%nat, "one")] eq_refl eq_refl eq_refl eq_refl)).
Defined.

Lemma from_single_key_value_reads_witness :
  snd (get_by_key2 Nat.eqb Nat.eqb 1%nat
         (fst (from_single_key_value Nat.eqb [(1%nat, 10); (2%nat, 20); (1%nat, 30)])))
  = Ok 30.
Proof.
  exact (proj1 (proj2 (proj1 (proj2
           (@from_single_key_value_reads nat Z Nat.eqb Nat.eqb_eq
              [(1%nat, 10); (2%nat, 20); (1%nat, 30)]))
           1%nat 30 eq_refl))).
Defined.

End DKDFacts.
